(** * Event approval and venue booking: a shallow embedding of the route handlers

    The development follows [src/routes/event.js] and
    [src/routes/venueBooking.js], together with the Mongoose schemas of
    [Organization], [Event] and [VenueBooking].  The MongoDB collections are
    explicit state: every handler is a function from the request and the
    database to a reply and the database it leaves behind.

    - documents are records; the closed [enum] lists of the schemas are
      inductive types;
    - [events] and [venues] are only ever addressed by [_id], so they are
      finite maps keyed by it; [organizations] and [venueBookings] are also
      queried on other fields ([find], [findOneAndUpdate]), so they are lists
      in collection order and a query is a filter or a first match;
    - a [Date] is its millisecond time stamp in [Z], an invalid date is [None];
    - the paths of a request body that a handler tests for truthiness, or
      that only Mongoose checks when a document is saved, are JSON values as
      they arrive; the cast to the type of the schema path is part of the
      handler, and a document with a value that could not be cast is refused
      by [save]. *)

From stdpp Require Import base option list strings gmap.
From Stdlib Require Import ZArith Lia Bool Ascii.

Local Open Scope Z_scope.

(** ** JSON values of a request body *)

#[warnings="-register-all"]
Inductive JsVal :=
| JUndefined
| JNull
| JBool (b : bool)
| JNum (n : Z)
| JStr (s : string)
| JArr (items : list JsVal)
| JObj (fields : list (string * JsVal)).

(** [!v] is [negb (truthy v)].  Numbers are the integers among the JSON
    numerals; [0] is the only falsy one. *)
Definition truthy (v : JsVal) : bool :=
  match v with
  | JUndefined | JNull => false
  | JBool b => b
  | JNum n => negb (n =? 0)
  | JStr s => negb (String.eqb s "")
  | JArr _ | JObj _ => true
  end.

(** ** Documents *)

Definition Id := nat.
Bind Scope nat_scope with Id.

Inductive EventStatus :=
| EvPending | EvApproved | EvRejected | EvNeedsModification | EvCancelled.

Inductive ApprovalStatus :=
| ApPending | ApApproved | ApRejected | ApNeedsModification.

Inductive BookingStatus :=
| BkTemporary | BkConfirmed | BkCancelled.

(** The three values the review handler accepts in [req.body.status]. *)
Inductive Decision := DApproved | DRejected | DNeedsModification.

Definition decisionOf (v : JsVal) : option Decision :=
  match v with
  | JStr s =>
      if String.eqb s "approved" then Some DApproved
      else if String.eqb s "rejected" then Some DRejected
      else if String.eqb s "needs_modification" then Some DNeedsModification
      else None
  | _ => None
  end.

Definition approvalOf (d : Decision) : ApprovalStatus :=
  match d with
  | DApproved => ApApproved
  | DRejected => ApRejected
  | DNeedsModification => ApNeedsModification
  end.

Definition statusOf (d : Decision) : EventStatus :=
  match d with
  | DApproved => EvApproved
  | DRejected => EvRejected
  | DNeedsModification => EvNeedsModification
  end.

Definition bookingStatusOf (v : JsVal) : option BookingStatus :=
  match v with
  | JStr s =>
      if String.eqb s "temporary" then Some BkTemporary
      else if String.eqb s "confirmed" then Some BkConfirmed
      else if String.eqb s "cancelled" then Some BkCancelled
      else None
  | _ => None
  end.

Record Organization := {
  org_id : Id;
  org_name : string;
  org_parentOrganization : option Id;
  org_level : nat;
  org_isVenueManager : bool
}.

Record Venue := {
  venue_name : string;
  venue_capacity : Z
}.

Record Approval := {
  ap_organization : Id;
  ap_status : ApprovalStatus;
  ap_comments : option string;
  ap_timestamp : Z
}.

Record Modification := {
  mod_requestedBy : Id;
  mod_comments : option string;
  mod_modifiedAt : Z
}.

(** The [venueBookingStatus] path of the schema is left out: no handler reads
    or writes it. *)
Record Event := {
  ev_name : string;
  ev_createdBy : Id;
  ev_startDateTime : Z;
  ev_endDateTime : Z;
  ev_venue : Id;
  ev_budget : Z;
  ev_description : string;
  ev_expectedParticipants : Z;
  ev_requiredResources : list string;
  ev_status : EventStatus;
  ev_approvalChain : list Approval;
  ev_modificationHistory : list Modification
}.

Record VenueBooking := {
  bk_id : Id;
  bk_venue : Id;
  bk_event : Id;
  bk_startDateTime : Z;
  bk_endDateTime : Z;
  bk_status : BookingStatus
}.

Record Db := {
  organizations : list Organization;
  venues : gmap Id Venue;
  events : gmap Id Event;
  venueBookings : list VenueBooking
}.

Definition withEvents (db : Db) (es : gmap Id Event) : Db :=
  {| organizations := organizations db; venues := venues db;
     events := es; venueBookings := venueBookings db |}.

Definition withBookings (db : Db) (bs : list VenueBooking) : Db :=
  {| organizations := organizations db; venues := venues db;
     events := events db; venueBookings := bs |}.

Definition setEventStatus (e : Event) (s : EventStatus) : Event :=
  {| ev_name := ev_name e; ev_createdBy := ev_createdBy e;
     ev_startDateTime := ev_startDateTime e; ev_endDateTime := ev_endDateTime e;
     ev_venue := ev_venue e; ev_budget := ev_budget e;
     ev_description := ev_description e;
     ev_expectedParticipants := ev_expectedParticipants e;
     ev_requiredResources := ev_requiredResources e;
     ev_status := s;
     ev_approvalChain := ev_approvalChain e;
     ev_modificationHistory := ev_modificationHistory e |}.

Definition setApprovalChain (e : Event) (c : list Approval) : Event :=
  {| ev_name := ev_name e; ev_createdBy := ev_createdBy e;
     ev_startDateTime := ev_startDateTime e; ev_endDateTime := ev_endDateTime e;
     ev_venue := ev_venue e; ev_budget := ev_budget e;
     ev_description := ev_description e;
     ev_expectedParticipants := ev_expectedParticipants e;
     ev_requiredResources := ev_requiredResources e;
     ev_status := ev_status e;
     ev_approvalChain := c;
     ev_modificationHistory := ev_modificationHistory e |}.

Definition pushModification (e : Event) (m : Modification) : Event :=
  {| ev_name := ev_name e; ev_createdBy := ev_createdBy e;
     ev_startDateTime := ev_startDateTime e; ev_endDateTime := ev_endDateTime e;
     ev_venue := ev_venue e; ev_budget := ev_budget e;
     ev_description := ev_description e;
     ev_expectedParticipants := ev_expectedParticipants e;
     ev_requiredResources := ev_requiredResources e;
     ev_status := ev_status e;
     ev_approvalChain := ev_approvalChain e;
     ev_modificationHistory := ev_modificationHistory e ++ [m] |}.

Definition setBookingStatus (s : BookingStatus) (b : VenueBooking) : VenueBooking :=
  {| bk_id := bk_id b; bk_venue := bk_venue b; bk_event := bk_event b;
     bk_startDateTime := bk_startDateTime b; bk_endDateTime := bk_endDateTime b;
     bk_status := s |}.

(** ** Collection primitives *)

(** [Organization.findById]. *)
Definition findOrg (orgs : list Organization) (id : Id) : option Organization :=
  List.find (fun o => Nat.eqb (org_id o) id) orgs.

(** [Array.prototype.findIndex], with [None] for [-1]. *)
Fixpoint findIndex {A} (p : A -> bool) (l : list A) : option nat :=
  match l with
  | [] => None
  | x :: l' => if p x then Some 0%nat else S <$> findIndex p l'
  end.

(** [findOneAndUpdate] and [findByIdAndUpdate]: the first document matching
    the filter is updated, the others are left alone. *)
Fixpoint updateFirst {A} (p : A -> bool) (f : A -> A) (l : list A) : list A :=
  match l with
  | [] => []
  | x :: l' => if p x then f x :: l' else x :: updateFirst p f l'
  end.

Definition forEvent (eventId : Id) (b : VenueBooking) : bool :=
  Nat.eqb (bk_event b) eventId.


(** ** Venue conflict detector *)

Definition isActive (s : BookingStatus) : bool :=
  match s with
  | BkTemporary | BkConfirmed => true
  | BkCancelled => false
  end.

(** The [$or] of the availability query, for a stored booking and the
    requested interval [startDate, endDate]. *)
Definition timeClash (startDate endDate : Z) (b : VenueBooking) : bool :=
  ((bk_startDateTime b <=? startDate) && (startDate <? bk_endDateTime b))
  || ((bk_startDateTime b <? endDate) && (endDate <=? bk_endDateTime b))
  || ((startDate <=? bk_startDateTime b) && (bk_endDateTime b <=? endDate)).

(** The general half-open overlap test of the specification,
    [s1 < e2 AND s2 < e1]. *)
Definition overlaps (s1 e1 s2 e2 : Z) : bool :=
  (s1 <? e2) && (s2 <? e1).

(** The whole filter of [VenueBooking.find] in [POST /events]. *)
Definition conflictQuery (venue : Id) (startDate endDate : Z) (b : VenueBooking) : bool :=
  Nat.eqb (bk_venue b) venue && isActive (bk_status b) && timeClash startDate endDate b.

Definition conflictingBookings (venue : Id) (startDate endDate : Z)
    (bs : list VenueBooking) : list VenueBooking :=
  List.filter (conflictQuery venue startDate endDate) bs.

(** The same filter with [query.event = { $ne: excludeEventId }] added when
    the caller names an event to leave out ([GET /check-availability]). *)
Definition availabilityQuery (venue : Id) (startDate endDate : Z)
    (excludeEventId : option Id) (b : VenueBooking) : bool :=
  conflictQuery venue startDate endDate b
  && match excludeEventId with
     | Some e => negb (Nat.eqb (bk_event b) e)
     | None => true
     end.

Record Conflict := {
  cf_eventName : string;
  cf_startTime : Z;
  cf_endTime : Z
}.

(** [conflictingBookings.map(booking => ({ eventName: booking.event.name, ... }))]
    after [populate('event')]: a booking whose event is gone is populated with
    [null], and reading its [name] throws. *)
Definition conflictingEvents (es : gmap Id Event) (bs : list VenueBooking)
    : option (list Conflict) :=
  mapM (fun b =>
          e ← es !! bk_event b;
          Some {| cf_eventName := ev_name e;
                  cf_startTime := bk_startDateTime b;
                  cf_endTime := bk_endDateTime b |}) bs.

(** ** Replies *)

Inductive Error :=
| MissingFields                        (* 400 *)
| VenueNotFound                        (* 400 *)
| InvalidDate                          (* 400 *)
| InvalidInterval                      (* 400 *)
| InvalidDecision                      (* 400 *)
| InvalidStatus                        (* 400 *)
| NotAuthorized                        (* 403 *)
| NotFound                             (* 404 *)
| VenueConflict (cs : list Conflict)   (* 409 *)
| ServerError.                         (* 500, from the [catch] of the handler *)

Inductive Reply :=
| RespEvent (e : Event)
| RespBooking (b : VenueBooking)
| RespAvailable
| RespUnavailable (cs : list Conflict)
| RespError (e : Error)
| NoReply.   (* the handler never answers *)

(** ** Casting of request values

    What the runtime does to a JSON value when it is turned into a [Date]
    ([new Date(v)], [None] when [getTime()] is [NaN]) and what Mongoose does
    when it casts a value to the type of a schema path ([None] when the cast
    fails).  The handlers are written against this interface. *)
Class Casting := {
  newDate : JsVal -> option Z;
  castObjectId : JsVal -> option Id;
  castString : JsVal -> option string;
  castNumber : JsVal -> option Z;
  castStrings : JsVal -> option (list string)
}.

(** A casting for bodies that already carry the JSON type of each path:
    dates as time stamps, ids as numbers. *)
Definition jsonCasting : Casting := {|
  newDate v := match v with JNum n => Some n | _ => None end;
  castObjectId v := match v with JNum n => if 0 <=? n then Some (Z.to_nat n) else None | _ => None end;
  castString v := match v with JStr s => Some s | _ => None end;
  castNumber v := match v with JNum n => Some n | _ => None end;
  castStrings v :=
    match v with
    | JUndefined => Some []
    | JArr items => mapM (fun i => match i with JStr s => Some s | _ => None end) items
    | _ => None
    end
|}.

(** ** Organization hierarchy: the approval chain of a new event *)

Definition pendingApproval (now : Z) (organization : Id) : Approval :=
  {| ap_organization := organization; ap_status := ApPending;
     ap_comments := None; ap_timestamp := now |}.

Inductive Walk :=
| WalkChain (approvalChain : list Approval)
| WalkThrows      (* a [TypeError], caught by the handler *)
| WalkDiverges.   (* the [while] loop has not ended within the fuel *)

(** The [while (currentOrg.parentOrganization)] loop.  [fuel] bounds the
    number of times the body runs.  When the parent is not found the body
    reads [currentOrg.parentOrganization] of the [null] it has just assigned,
    which throws before the [break]. *)
Fixpoint walkParents (fuel : nat) (orgs : list Organization) (now : Z)
    (currentOrg : Organization) (approvalChain : list Approval) : Walk :=
  match org_parentOrganization currentOrg with
  | None => WalkChain approvalChain
  | Some parentId =>
      match fuel with
      | O => WalkDiverges
      | S fuel' =>
          match findOrg orgs parentId with
          | None => WalkThrows
          | Some parent =>
              let approvalChain' := approvalChain ++ [pendingApproval now (org_id parent)] in
              if Nat.eqb (org_level parent) 1 then WalkChain approvalChain'
              else walkParents fuel' orgs now parent approvalChain'
          end
      end
  end.

Definition buildApprovalChain (fuel : nat) (orgs : list Organization) (now : Z)
    (reqOrg : Organization) : Walk :=
  match findOrg orgs (org_id reqOrg) with
  | None => WalkThrows
  | Some currentOrg =>
      match walkParents fuel orgs now currentOrg [] with
      | WalkChain approvalChain =>
          if Nat.eqb (length approvalChain) 0 && negb (Nat.eqb (org_level reqOrg) 1) then
            let level1Orgs := List.filter (fun o => Nat.eqb (org_level o) 1) orgs in
            WalkChain (approvalChain ++ List.map (fun o => pendingApproval now (org_id o)) level1Orgs)
          else WalkChain approvalChain
      | w => w
      end
  end.

(** ** [POST /events] *)

Record EventBody := {
  body_name : JsVal;
  body_startDateTime : JsVal;
  body_endDateTime : JsVal;
  body_venue : JsVal;
  body_budget : JsVal;
  body_description : JsVal;
  body_expectedParticipants : JsVal;
  body_requiredResources : JsVal
}.

Definition missingRequired (b : EventBody) : bool :=
  negb (truthy (body_name b)) || negb (truthy (body_startDateTime b))
  || negb (truthy (body_endDateTime b)) || negb (truthy (body_venue b))
  || negb (truthy (body_budget b)) || negb (truthy (body_description b))
  || negb (truthy (body_expectedParticipants b)).

(** [new Event({...})] followed by the validation [event.save()] runs first:
    every path is cast to its schema type, a failed cast rejects the save.
    A date path is cast with the [Date] constructor, so the dates stored are
    the ones the handler has parsed. *)
Definition newEvent `{Casting} (reqOrg : Organization) (b : EventBody)
    (approvalChain : list Approval) : option Event :=
  name ← castString (body_name b);
  startDateTime ← newDate (body_startDateTime b);
  endDateTime ← newDate (body_endDateTime b);
  venue ← castObjectId (body_venue b);
  budget ← castNumber (body_budget b);
  description ← castString (body_description b);
  expectedParticipants ← castNumber (body_expectedParticipants b);
  requiredResources ← castStrings (body_requiredResources b);
  Some {| ev_name := name; ev_createdBy := org_id reqOrg;
          ev_startDateTime := startDateTime; ev_endDateTime := endDateTime;
          ev_venue := venue; ev_budget := budget; ev_description := description;
          ev_expectedParticipants := expectedParticipants;
          ev_requiredResources := requiredResources;
          ev_status := EvPending;
          ev_approvalChain := approvalChain;
          ev_modificationHistory := [] |}.

(** [eventId] and [bookingId] are the [_id]s the driver draws for the two new
    documents, [now] is the clock, [fuel] bounds the hierarchy walk. *)
Definition createEvent `{Casting} (fuel : nat) (now : Z) (eventId bookingId : Id)
    (reqOrg : Organization) (b : EventBody) (db : Db) : Reply * Db :=
  if missingRequired b then (RespError MissingFields, db) else
  match castObjectId (body_venue b) with
  | None => (RespError ServerError, db)
  | Some venue =>
  match venues db !! venue with
  | None => (RespError VenueNotFound, db)
  | Some _ =>
  match newDate (body_startDateTime b), newDate (body_endDateTime b) with
  | Some startDate, Some endDate =>
      if endDate <=? startDate then (RespError InvalidInterval, db) else
      match conflictingBookings venue startDate endDate (venueBookings db) with
      | (_ :: _) as conflicts =>
          match conflictingEvents (events db) conflicts with
          | Some cs => (RespError (VenueConflict cs), db)
          | None => (RespError ServerError, db)
          end
      | [] =>
          match buildApprovalChain fuel (organizations db) now reqOrg with
          | WalkDiverges => (NoReply, db)
          | WalkThrows => (RespError ServerError, db)
          | WalkChain approvalChain =>
              match newEvent reqOrg b approvalChain with
              | None => (RespError ServerError, db)
              | Some event =>
                  let venueBooking :=
                    {| bk_id := bookingId; bk_venue := venue; bk_event := eventId;
                       bk_startDateTime := startDate; bk_endDateTime := endDate;
                       bk_status := BkTemporary |} in
                  (RespEvent event,
                   {| organizations := organizations db; venues := venues db;
                      events := <[eventId := event]> (events db);
                      venueBookings := venueBookings db ++ [venueBooking] |})
              end
          end
      end
  | _, _ => (RespError InvalidDate, db)
  end end end.

(** ** [PUT /events/:eventId/review] *)

Definition saveEvent (eventId : Id) (event : Event) (db : Db) : Db :=
  withEvents db (<[eventId := event]> (events db)).

(** [VenueBooking.findOneAndUpdate({ event: eventId }, { status })]. *)
Definition updateBookingStatus (eventId : Id) (s : BookingStatus) (db : Db) : Db :=
  withBookings db (updateFirst (forEvent eventId) (setBookingStatus s) (venueBookings db)).

(** What Mongoose makes of the value assigned to a [comments] path, which
    the schema types [String]: [undefined] and [null] leave the path without
    a value, any other value is cast.  A value that cannot be cast ([None])
    is not assigned: the path keeps what it had, and the document no longer
    validates. *)
Definition castComments `{Casting} (comments : JsVal) : option (option string) :=
  match comments with
  | JUndefined | JNull => Some None
  | _ => Some <$> castString comments
  end.

(** Whether every value assigned to the document could be cast. *)
Definition accepted {A} (cast : option A) : bool :=
  match cast with Some _ => true | None => false end.

(** [await event.save(); res.json(...)].  The validation that [save] runs
    first rejects a document to which a value that could not be cast has been
    assigned; the [catch] of the handler then answers, and what the handler
    has written to other collections by then stays written.  [replied] is the
    document as it is when the reply is serialised. *)
Definition saveAndReply (valid : bool) (eventId : Id) (event replied : Event) (db : Db)
    : Reply * Db :=
  if valid then (RespEvent replied, saveEvent eventId event db)
  else (RespError ServerError, db).

(** The three assignments to [event.approvalChain[i]]. *)
Definition recordDecision (d : Decision) (comments : option string) (now : Z)
    (a : Approval) : Approval :=
  {| ap_organization := ap_organization a; ap_status := approvalOf d;
     ap_comments := comments; ap_timestamp := now |}.

Definition isApproved (s : ApprovalStatus) : bool :=
  match s with ApApproved => true | _ => false end.

Definition resetApproval (reviewingOrg : Organization) (approval : Approval) : Approval :=
  {| ap_organization := ap_organization approval;
     ap_status := ApPending;
     ap_comments :=
       Some ("Reset due to modification request from " +:+ org_name reviewingOrg);
     ap_timestamp := ap_timestamp approval |}.

(** The body of [Organization.findById(approvalOrgId).then(org => ...)] for
    one chain entry, run when the lookup is answered. *)
Definition resetCallback (orgs : list Organization) (reviewingOrg : Organization)
    (approval : Approval) : Approval :=
  match findOrg orgs (ap_organization approval) with
  | Some org =>
      if Nat.ltb (org_level reviewingOrg) (org_level org)
      then resetApproval reviewingOrg approval
      else approval
  | None => approval
  end.

(** The [forEach] of the cascade reset starts one lookup per entry other than
    the reviewer's and returns at once: nothing waits for the promises.  The
    in-memory document therefore carries the reset of entry [idx] only from the
    moment the lookup of [idx] has been answered; [answered idx] says whether
    that moment has come. *)
Definition cascadeReset (answered : nat -> bool) (orgs : list Organization)
    (reviewingOrg : Organization) (approvalIndex : nat)
    (approvalChain : list Approval) : list Approval :=
  imap (fun idx approval =>
          if negb (Nat.eqb idx approvalIndex) && answered idx
          then resetCallback orgs reviewingOrg approval
          else approval) approvalChain.

(** The handler.  [reqOrg] is [req.organization], the document the [auth]
    middleware loaded; [reviewingOrg] is the copy the handler fetches again;
    [status] and [comments] are the two paths of the body as they arrive.

    The booking is written, where the decision asks for it, before
    [event.save()], and the save is the only place where the comments are
    checked: a review whose comments cannot be cast has cancelled or confirmed
    the booking by the time it is answered with the server error.

    The continuations of the cascade lookups are reactions to database
    replies, so none of them runs before the handler suspends, and the first
    suspension after the [forEach] is [await event.save()]: the document
    written is the one without any reset.  The reply is serialised when the
    save has been acknowledged; [answered] tells which lookups have been
    answered by then, and the event of the reply carries their resets. *)
Definition reviewEvent `{Casting} (now : Z) (answered : nat -> bool)
    (reqOrg : Organization) (eventId : Id) (status comments : JsVal) (db : Db)
    : Reply * Db :=
  match decisionOf status with
  | None => (RespError InvalidDecision, db)
  | Some d =>
  match events db !! eventId with
  | None => (RespError NotFound, db)
  | Some event =>
  let cast := castComments comments in
  let valid := accepted cast in
  let record a := recordDecision d (default (ap_comments a) cast) now a in
  let modification :=
    {| mod_requestedBy := org_id reqOrg; mod_comments := default None cast;
       mod_modifiedAt := now |} in
  match findIndex (fun a => Nat.eqb (ap_organization a) (org_id reqOrg))
                  (ev_approvalChain event) with
  | None =>
      if Nat.leb (org_level reqOrg) 1 then
        let pushed := ev_approvalChain event ++ [pendingApproval now (org_id reqOrg)] in
        let newIndex := (length pushed - 1)%nat in
        let event := setApprovalChain event (alter record newIndex pushed) in
        match d with
        | DRejected =>
            let event := setEventStatus event EvRejected in
            let db := updateBookingStatus eventId BkCancelled db in
            saveAndReply valid eventId event event db
        | DNeedsModification =>
            let event := setEventStatus event EvNeedsModification in
            let event := pushModification event modification in
            saveAndReply valid eventId event event db
        | DApproved =>
            if Nat.eqb (org_level reqOrg) 1 then
              let event := setEventStatus event EvApproved in
              let db := updateBookingStatus eventId BkConfirmed db in
              saveAndReply valid eventId event event db
            else saveAndReply valid eventId event event db
        end
      else (RespError NotAuthorized, db)
  | Some approvalIndex =>
      let event := setApprovalChain event
                     (alter record approvalIndex (ev_approvalChain event)) in
      match d with
      | DRejected =>
          let event := setEventStatus event EvRejected in
          let db := updateBookingStatus eventId BkCancelled db in
          saveAndReply valid eventId event event db
      | DNeedsModification =>
          let event := setEventStatus event EvNeedsModification in
          let event := pushModification event modification in
          let replied :=
            match findOrg (organizations db) (org_id reqOrg) with
            | Some reviewingOrg =>
                setApprovalChain event
                  (cascadeReset answered (organizations db) reviewingOrg
                                approvalIndex (ev_approvalChain event))
            | None => event
            end in
          saveAndReply valid eventId event replied db
      | DApproved =>
          match findOrg (organizations db) (org_id reqOrg) with
          | None => (RespError ServerError, db)
          | Some reviewingOrg =>
              if Nat.eqb (org_level reviewingOrg) 1 then
                let event := setEventStatus event EvApproved in
                let db := updateBookingStatus eventId BkConfirmed db in
                saveAndReply valid eventId event event db
              else
                let allApproved :=
                  forallb (fun a => isApproved (ap_status a))
                          (take (approvalIndex + 1) (ev_approvalChain event)) in
                let event := if allApproved then event
                             else setEventStatus event EvPending in
                saveAndReply valid eventId event event db
          end
      end
  end end end.

(** ** [PUT /events/:id/cancel] *)

Definition cancelEvent (reqOrg : Organization) (eventId : Id) (db : Db) : Reply * Db :=
  match events db !! eventId with
  | None => (RespError NotFound, db)
  | Some event =>
      if negb (Nat.eqb (ev_createdBy event) (org_id reqOrg))
      then (RespError NotAuthorized, db)
      else
        let event := setEventStatus event EvCancelled in
        let db := updateBookingStatus eventId BkCancelled db in
        (RespEvent event, saveEvent eventId event db)
  end.

(** ** [PUT /events/:id] *)

(** The body of an update, each path as it arrives; [JUndefined] is a path
    the body does not carry. *)
Record EventPatch := {
  patch_name : JsVal;
  patch_startDateTime : JsVal;
  patch_endDateTime : JsVal;
  patch_venue : JsVal;
  patch_budget : JsVal;
  patch_description : JsVal;
  patch_expectedParticipants : JsVal;
  patch_requiredResources : JsVal;
  patch_resetStatus : JsVal
}.

(** [if (v) event.path = v]: a falsy value (the empty string, [0], a path the
    body does not carry) leaves the path alone; a truthy one is cast to the
    type of the path and assigned, and when the cast fails the path keeps its
    value. *)
Definition assign {A} (cast : JsVal -> option A) (v : JsVal) (old : A) : A :=
  if truthy v then default old (cast v) else old.

(** Whether the assignment leaves the document valid. *)
Definition assignable {A} (cast : JsVal -> option A) (v : JsVal) : bool :=
  if truthy v then accepted (cast v) else true.

(** The eight conditional assignments.  As in [newEvent], a date path is
    cast with the [Date] constructor. *)
Definition applyPatch `{Casting} (p : EventPatch) (e : Event) : Event :=
  {| ev_name := assign castString (patch_name p) (ev_name e);
     ev_createdBy := ev_createdBy e;
     ev_startDateTime := assign newDate (patch_startDateTime p) (ev_startDateTime e);
     ev_endDateTime := assign newDate (patch_endDateTime p) (ev_endDateTime e);
     ev_venue := assign castObjectId (patch_venue p) (ev_venue e);
     ev_budget := assign castNumber (patch_budget p) (ev_budget e);
     ev_description := assign castString (patch_description p) (ev_description e);
     ev_expectedParticipants :=
       assign castNumber (patch_expectedParticipants p) (ev_expectedParticipants e);
     ev_requiredResources :=
       assign castStrings (patch_requiredResources p) (ev_requiredResources e);
     ev_status := ev_status e;
     ev_approvalChain := ev_approvalChain e;
     ev_modificationHistory := ev_modificationHistory e |}.

Definition validPatch `{Casting} (p : EventPatch) : bool :=
  assignable castString (patch_name p)
  && assignable newDate (patch_startDateTime p)
  && assignable newDate (patch_endDateTime p)
  && assignable castObjectId (patch_venue p)
  && assignable castNumber (patch_budget p)
  && assignable castString (patch_description p)
  && assignable castNumber (patch_expectedParticipants p)
  && assignable castStrings (patch_requiredResources p).

(** The update document of the [findOneAndUpdate] that follows a reset. *)
Definition retarget (event : Event) (b : VenueBooking) : VenueBooking :=
  {| bk_id := bk_id b; bk_venue := ev_venue event; bk_event := bk_event b;
     bk_startDateTime := ev_startDateTime event;
     bk_endDateTime := ev_endDateTime event;
     bk_status := BkTemporary |}.

Definition isNeedsModification (s : EventStatus) : bool :=
  match s with EvNeedsModification => true | _ => false end.

(** The handler consults no conflict query.  After a reset the booking is
    moved to the venue and the interval of the document in memory before
    [event.save()], so an edit one of whose values cannot be cast has moved
    the booking by the time it is answered with the server error. *)
Definition updateEvent `{Casting} (now : Z) (reqOrg : Organization) (eventId : Id)
    (p : EventPatch) (db : Db) : Reply * Db :=
  match events db !! eventId with
  | None => (RespError NotFound, db)
  | Some event =>
      if negb (Nat.eqb (ev_createdBy event) (org_id reqOrg))
      then (RespError NotAuthorized, db)
      else
        let valid := validPatch p in
        let event := applyPatch p event in
        if truthy (patch_resetStatus p) && isNeedsModification (ev_status event) then
          let event := setEventStatus event EvPending in
          let event := pushModification event
                         {| mod_requestedBy := org_id reqOrg;
                            mod_comments := Some "Event modified as requested";
                            mod_modifiedAt := now |} in
          let db := withBookings db
                      (updateFirst (forEvent eventId) (retarget event) (venueBookings db)) in
          saveAndReply valid eventId event event db
        else saveAndReply valid eventId event event db
  end.

(** ** [PUT /venue-bookings/:id] *)

Definition updateBooking (reqOrg : Organization) (bookingId : Id) (status : JsVal)
    (db : Db) : Reply * Db :=
  if negb (org_isVenueManager reqOrg) then (RespError NotAuthorized, db) else
  match bookingStatusOf status with
  | None => (RespError InvalidStatus, db)
  | Some s =>
      let hasId b := Nat.eqb (bk_id b) bookingId in
      match List.find hasId (venueBookings db) with
      | None => (RespError NotFound, db)
      | Some old =>
          let booking := setBookingStatus s old in
          let db := withBookings db
                      (updateFirst hasId (setBookingStatus s) (venueBookings db)) in
          match s with
          | BkTemporary => (RespBooking booking, db)
          | BkCancelled =>
              match events db !! bk_event booking with
              | None => (RespError ServerError, db)
              | Some event =>
                  (RespBooking booking,
                   saveEvent (bk_event booking) (setEventStatus event EvCancelled) db)
              end
          | BkConfirmed =>
              match events db !! bk_event booking with
              | None => (RespError ServerError, db)
              | Some event =>
                  (RespBooking booking,
                   saveEvent (bk_event booking) (setEventStatus event EvApproved) db)
              end
          end
      end
  end.

(** ** [GET /venue-bookings/check-availability/:venueId], with an interval *)

Definition checkAvailability (venueId : Id) (startDate endDate : Z)
    (excludeEventId : option Id) (db : Db) : Reply :=
  if endDate <=? startDate then RespError InvalidInterval else
  match venues db !! venueId with
  | None => RespError NotFound
  | Some _ =>
      match List.filter (availabilityQuery venueId startDate endDate excludeEventId)
                        (venueBookings db) with
      | [] => RespAvailable
      | conflicts =>
          match conflictingEvents (events db) conflicts with
          | Some cs => RespUnavailable cs
          | None => RespError ServerError
          end
      end
  end.

(** ** The system as a whole *)

(** The requests that write to the database. *)
Inductive Request :=
| CreateEvent (fuel : nat) (now : Z) (eventId bookingId : Id)
              (reqOrg : Organization) (body : EventBody)
| ReviewEvent (now : Z) (answered : nat -> bool) (reqOrg : Organization)
              (eventId : Id) (status comments : JsVal)
| CancelEvent (reqOrg : Organization) (eventId : Id)
| UpdateEvent (now : Z) (reqOrg : Organization) (eventId : Id) (patch : EventPatch)
| UpdateBooking (reqOrg : Organization) (bookingId : Id) (status : JsVal).

Definition handle `{Casting} (r : Request) (db : Db) : Reply * Db :=
  match r with
  | CreateEvent fuel now eventId bookingId reqOrg body =>
      createEvent fuel now eventId bookingId reqOrg body db
  | ReviewEvent now answered reqOrg eventId status comments =>
      reviewEvent now answered reqOrg eventId status comments db
  | CancelEvent reqOrg eventId => cancelEvent reqOrg eventId db
  | UpdateEvent now reqOrg eventId patch => updateEvent now reqOrg eventId patch db
  | UpdateBooking reqOrg bookingId status => updateBooking reqOrg bookingId status db
  end.

(** The booking status that reflects an event status. *)
Definition bookingStatusFor (s : EventStatus) : BookingStatus :=
  match s with
  | EvPending | EvNeedsModification => BkTemporary
  | EvApproved => BkConfirmed
  | EvRejected | EvCancelled => BkCancelled
  end.

(** Every booking carries the status that reflects its event's. *)
Definition Synced (db : Db) : Prop :=
  forall b ev, b ∈ venueBookings db -> events db !! bk_event b = Some ev ->
    bk_status b = bookingStatusFor (ev_status ev).

(** [bs'] is [bs] with the status of the booking of the event set to [s]:
    of the first stored booking that refers to the event, when several do;
    when none does, [bs'] is [bs]. *)
Definition BookingSet (eventId : Id) (s : BookingStatus) (bs bs' : list VenueBooking)
    : Prop :=
  ((forall b, b ∈ bs -> bk_event b <> eventId) /\ bs' = bs)
  \/ exists l1 b l2,
       bs = l1 ++ b :: l2
       /\ (forall x, x ∈ l1 -> bk_event x <> eventId)
       /\ bk_event b = eventId
       /\ bs' = l1 ++ {| bk_id := bk_id b; bk_venue := bk_venue b; bk_event := eventId;
                         bk_startDateTime := bk_startDateTime b;
                         bk_endDateTime := bk_endDateTime b; bk_status := s |} :: l2.

(** Bookings and events are one to one. *)
Definition OneBookingPerEvent (db : Db) : Prop :=
  NoDup (bk_event <$> venueBookings db).

(** The event, if stored, is still under review. *)
Definition UnderReview (eventId : Id) (db : Db) : Prop :=
  forall ev, events db !! eventId = Some ev ->
    ev_status ev = EvPending \/ ev_status ev = EvNeedsModification.

(** The review is an approval that takes the [!allApproved] branch;
    [comments] are the comments as cast. *)
Definition OutOfOrderApproval (now : Z) (reqOrg : Organization) (eventId : Id)
    (comments : option string) (db : Db) : Prop :=
  exists event approvalIndex reviewingOrg,
    events db !! eventId = Some event
    /\ findIndex (fun a => Nat.eqb (ap_organization a) (org_id reqOrg))
                 (ev_approvalChain event) = Some approvalIndex
    /\ findOrg (organizations db) (org_id reqOrg) = Some reviewingOrg
    /\ org_level reviewingOrg <> 1%nat
    /\ forallb (fun a => isApproved (ap_status a))
               (take (approvalIndex + 1)
                     (alter (recordDecision DApproved comments now) approvalIndex
                            (ev_approvalChain event))) = false.

(** The event, if stored, has a status that the booking status [s] reflects
    already. *)
Definition Settled (eventId : Id) (s : BookingStatus) (db : Db) : Prop :=
  forall ev, events db !! eventId = Some ev -> bookingStatusFor (ev_status ev) = s.

(** The requests that write an event status without a booking status, or a
    booking status without an event status, and what they need of the state
    to keep the two in step.
    - A needs_modification review and an out-of-order approval write the
      event only, a venue manager's update of a booking to temporary writes
      the booking only.
    - A rejection or an approval whose comments cannot be cast is answered
      with the server error when the save of the event fails; the booking may
      have been cancelled or confirmed by then.
    - [CreateEvent] needs its new [_id] to be new. *)
Definition KeepsInStep `{Casting} (r : Request) (db : Db) : Prop :=
  match r with
  | CreateEvent _ _ eventId _ _ _ => eventId ∉ (bk_event <$> venueBookings db)
  | ReviewEvent now _ reqOrg eventId status comments =>
      match decisionOf status, castComments comments with
      | Some DNeedsModification, Some _ => UnderReview eventId db
      | Some DApproved, Some c =>
          OutOfOrderApproval now reqOrg eventId c db -> UnderReview eventId db
      | Some DRejected, None => Settled eventId BkCancelled db
      | Some DApproved, None => Settled eventId BkConfirmed db
      | _, _ => True
      end
  | UpdateBooking _ bookingId status =>
      bookingStatusOf status = Some BkTemporary ->
      forall b, List.find (fun b => Nat.eqb (bk_id b) bookingId) (venueBookings db) = Some b ->
        UnderReview (bk_event b) db
  | _ => True
  end.

(** The database after a sequence of requests, and the conditions of
    [KeepsInStep] along it. *)
Fixpoint run `{Casting} (rs : list Request) (db : Db) : Db :=
  match rs with
  | [] => db
  | r :: rs' => run rs' (snd (handle r db))
  end.

Fixpoint KeepsInStepAlong `{Casting} (rs : list Request) (db : Db) : Prop :=
  match rs with
  | [] => True
  | r :: rs' => KeepsInStep r db /\ KeepsInStepAlong rs' (snd (handle r db))
  end.

(** ** A campus to run the handlers on *)

Module Campus.

Definition root : Organization :=
  {| org_id := 0; org_name := "CGPU"; org_parentOrganization := None;
     org_level := 0; org_isVenueManager := true |}.
Definition college : Organization :=
  {| org_id := 1; org_name := "College"; org_parentOrganization := Some 0%nat;
     org_level := 1; org_isVenueManager := false |}.
Definition department : Organization :=
  {| org_id := 2; org_name := "Department"; org_parentOrganization := Some 1%nat;
     org_level := 2; org_isVenueManager := false |}.
Definition club : Organization :=
  {| org_id := 3; org_name := "Club"; org_parentOrganization := Some 2%nat;
     org_level := 3; org_isVenueManager := false |}.

Definition hall : Id := 10%nat.

Definition approval (o : Organization) (s : ApprovalStatus) : Approval :=
  {| ap_organization := org_id o; ap_status := s; ap_comments := None;
     ap_timestamp := 1 |}.

(** An event of the club in the hall, with the chain of the club's ancestors. *)
Definition event (s : EventStatus) (department_s college_s : ApprovalStatus)
    (startDateTime endDateTime : Z) : Event :=
  {| ev_name := "Fest"; ev_createdBy := org_id club;
     ev_startDateTime := startDateTime; ev_endDateTime := endDateTime;
     ev_venue := hall; ev_budget := 5000; ev_description := "Annual fest";
     ev_expectedParticipants := 200; ev_requiredResources := ["projector"];
     ev_status := s;
     ev_approvalChain := [approval department department_s; approval college college_s];
     ev_modificationHistory := [] |}.

Definition booking (id eventId : Id) (startDateTime endDateTime : Z)
    (s : BookingStatus) : VenueBooking :=
  {| bk_id := id; bk_venue := hall; bk_event := eventId;
     bk_startDateTime := startDateTime; bk_endDateTime := endDateTime;
     bk_status := s |}.

Definition db (es : gmap Id Event) (bs : list VenueBooking) : Db :=
  {| organizations := [root; college; department; club];
     venues := {[ hall := {| venue_name := "Hall"; venue_capacity := 300 |} ]};
     events := es;
     venueBookings := bs |}.

(** The department has approved, the college has not reviewed yet. *)
Definition awaitingCollege : Db :=
  db {[ 100%nat := event EvPending ApApproved ApPending 1000 2000 ]}
     [booking 200 100 1000 2000 BkTemporary].

(** The college has rejected the event. *)
Definition rejectedByCollege : Db :=
  db {[ 100%nat := event EvRejected ApApproved ApRejected 1000 2000 ]}
     [booking 200 100 1000 2000 BkCancelled].

(** The event has been approved all the way up. *)
Definition approvedByAll : Db :=
  db {[ 100%nat := event EvApproved ApApproved ApApproved 1000 2000 ]}
     [booking 200 100 1000 2000 BkConfirmed].

(** One approved event holds the hall from 1000 to 2000; a second one, sent
    back for modification, holds it from 3000 to 4000. *)
Definition twoEvents : Db :=
  db {[ 100%nat := event EvApproved ApApproved ApApproved 1000 2000;
        101%nat := event EvNeedsModification ApApproved ApNeedsModification 3000 4000 ]}
     [booking 200 100 1000 2000 BkConfirmed; booking 201 101 3000 4000 BkTemporary].

(** The creator moves the second event onto the first one's slot. *)
Definition moveOntoFirst : EventPatch :=
  {| patch_name := JUndefined; patch_startDateTime := JNum 1000;
     patch_endDateTime := JNum 2000; patch_venue := JUndefined;
     patch_budget := JUndefined; patch_description := JUndefined;
     patch_expectedParticipants := JUndefined;
     patch_requiredResources := JUndefined; patch_resetStatus := JBool true |}.

(** Comments sent as an object, which no [String] path takes. *)
Definition notText : JsVal := JObj [("text", JStr "Move it to May")].

(** A team under the club: its event climbs three levels, and nobody has
    reviewed it yet. *)
Definition team : Organization :=
  {| org_id := 4; org_name := "Team"; org_parentOrganization := Some 3%nat;
     org_level := 4; org_isVenueManager := false |}.

Definition teamEvent : Db :=
  {| organizations := [root; college; department; club; team];
     venues := {[ hall := {| venue_name := "Hall"; venue_capacity := 300 |} ]};
     events :=
       {[ 102%nat :=
            {| ev_name := "Hackathon"; ev_createdBy := 4;
               ev_startDateTime := 7000; ev_endDateTime := 8000;
               ev_venue := hall; ev_budget := 900;
               ev_description := "Overnight"; ev_expectedParticipants := 40;
               ev_requiredResources := [];
               ev_status := EvPending;
               ev_approvalChain :=
                 [approval club ApPending; approval department ApPending;
                  approval college ApPending];
               ev_modificationHistory := [] |} ]};
     venueBookings := [booking 202 102 7000 8000 BkTemporary] |}.

Definition body (budget expectedParticipants : JsVal) : EventBody :=
  {| body_name := JStr "Workshop"; body_startDateTime := JNum 5000;
     body_endDateTime := JNum 6000; body_venue := JNum 10;
     body_budget := budget; body_description := JStr "Hands-on";
     body_expectedParticipants := expectedParticipants;
     body_requiredResources := JUndefined |}.

End Campus.

(** * The other routes

    What follows covers the routes the sections above leave out: the
    organizations ([models/Organization.js], [routes/organization.js],
    [middleware/auth.js]), the venue routes that read or guard the bookings
    ([routes/venue.js]), the date mode of [GET /check-availability] and the
    listing of the events that await an organization. *)

(** ** Organizations: documents and secrets *)

(** A document of the [organizations] collection: the paths the event routes
    read, and the two credentials. *)
Record OrgDoc := {
  doc_org : Organization;
  doc_orgId : string;
  doc_password : string
}.

(** The view of the collection the event routes work on. *)
Definition orgsOf (docs : list OrgDoc) : list Organization := doc_org <$> docs.

(** [bcrypt.hash(p, 10)] with the salt it draws, [bcrypt.compare(p, h)],
    [jwt.sign({ id }, secret, { expiresIn: '24h' })] at a time of the clock,
    which stamps the token, and [jwt.verify(token, secret)] at a time of the
    clock ([None] when it throws: a bad signature, or a token that has
    expired).  The secret is inside the functions. *)
Class Secrets := {
  bcryptHash : string -> string -> string;
  bcryptCompare : string -> string -> bool;
  jwtSign : Z -> Id -> string;
  jwtVerify : Z -> string -> option Id
}.

(** Secrets that hide nothing, to run the routes on: a hash is the salt, a
    [#] and the password; a token is a [t], the [_id] as a digit and the hour
    it was signed in as a character, and is good for 24 hours. *)
Definition plainSecrets : Secrets := {|
  bcryptHash salt p := salt +:+ String "#"%char p;
  bcryptCompare p h :=
    match String.index 0 "#" h with
    | Some i => String.eqb (String.substring (S i) (String.length h - S i) h) p
    | None => false
    end;
  jwtSign now id :=
    String "t"%char
      (String (Ascii.ascii_of_nat (id + 48))
         (String (Ascii.ascii_of_nat (Z.to_nat (now / 3600000))) EmptyString));
  jwtVerify now t :=
    match t with
    | String "t"%char (String c (String h EmptyString)) =>
        let signed := Z.of_nat (Ascii.nat_of_ascii h) in
        if (signed <=? now / 3600000) && (now / 3600000 <? signed + 24)
        then Some (Ascii.nat_of_ascii c - 48)%nat
        else None
    | _ => None
    end
|}.

Record OrgSummary := {
  sum_id : Id;
  sum_name : string;
  sum_orgId : string;
  sum_level : nat;
  sum_isVenueManager : bool
}.

Definition summary (d : OrgDoc) : OrgSummary :=
  {| sum_id := org_id (doc_org d); sum_name := org_name (doc_org d);
     sum_orgId := doc_orgId d; sum_level := org_level (doc_org d);
     sum_isVenueManager := org_isVenueManager (doc_org d) |}.

Inductive OrgError :=
| OrgAlreadyExists      (* 400 *)
| CredentialsRequired   (* 400 *)
| InvalidCredentials    (* 400 *)
| FieldsRequired        (* 400 *)
| NotAlphanumeric       (* 400 *)
| ParentNotFound        (* 400 *)
| OnlyAdmin             (* 403 *)
| OrgNotFound           (* 404 *)
| OrgServerError.       (* 500 *)

Inductive OrgReply :=
| OrgSigned (o : OrgSummary) (token : string)   (* register, login *)
| OrgChild (id : Id) (name orgId : string) (level : nat)   (* create-child *)
| OrgUpdated (d : OrgDoc)
| OrgDeleted
| OrgFailed (e : OrgError).

(** ** The pre-save hook of the organization schema

    For a new document: a document without parent becomes the level-0 venue
    manager; otherwise the level is the parent's plus one, and a missing
    parent fails the save. *)
Definition preSave (orgs : list Organization) (o : Organization) : option Organization :=
  match org_parentOrganization o with
  | None =>
      Some {| org_id := org_id o; org_name := org_name o;
              org_parentOrganization := None;
              org_level := 0; org_isVenueManager := true |}
  | Some parentId =>
      match findOrg orgs parentId with
      | None => None
      | Some parent =>
          let level := (org_level parent + 1)%nat in
          Some {| org_id := org_id o; org_name := org_name o;
                  org_parentOrganization := Some parentId;
                  org_level := level;
                  org_isVenueManager :=
                    if Nat.ltb 0 level then false else org_isVenueManager o |}
      end
  end.

Definition hasOrgId (orgId : string) (d : OrgDoc) : bool :=
  String.eqb (doc_orgId d) orgId.

(** [organization.save()] for a new document: the [required] validators (an
    empty string does not pass them), the hook, then the insert, which the
    unique indexes on [_id], [name] and [orgId] reject for a duplicate.
    [None] is a rejected save. *)
Definition saveOrganization (newId : Id) (name orgId password : string)
    (parentOrganization : option Id) (docs : list OrgDoc)
    : option (OrgDoc * list OrgDoc) :=
  if String.eqb name "" || String.eqb orgId "" || String.eqb password "" then None else
  match preSave (orgsOf docs)
          {| org_id := newId; org_name := name;
             org_parentOrganization := parentOrganization;
             org_level := 0; org_isVenueManager := false |} with
  | None => None
  | Some o =>
      if existsb (fun d => Nat.eqb (org_id (doc_org d)) newId
                           || String.eqb (org_name (doc_org d)) name
                           || hasOrgId orgId d) docs
      then None
      else
        let d := {| doc_org := o; doc_orgId := orgId; doc_password := password |} in
        Some (d, docs ++ [d])
  end.

(** ** [POST /organizations/register] *)

(** A body whose paths have their schema types. *)
Record RegisterBody := {
  reg_name : string;
  reg_orgId : string;
  reg_password : string;
  reg_parentOrganization : option Id
}.

(** [now] is the clock when the token is signed, [salt] the salt [bcrypt]
    draws, [newId] the [_id] the driver draws. *)
Definition register `{Secrets} (now : Z) (salt : string) (newId : Id) (b : RegisterBody)
    (docs : list OrgDoc) : OrgReply * list OrgDoc :=
  match List.find (hasOrgId (reg_orgId b)) docs with
  | Some _ => (OrgFailed OrgAlreadyExists, docs)
  | None =>
      let hashedPassword := bcryptHash salt (reg_password b) in
      match saveOrganization newId (reg_name b) (reg_orgId b) hashedPassword
                             (reg_parentOrganization b) docs with
      | None => (OrgFailed OrgServerError, docs)
      | Some (d, docs') => (OrgSigned (summary d) (jwtSign now newId), docs')
      end
  end.

(** ** [POST /organizations/login] *)

Definition login `{Secrets} (now : Z) (orgId password : string) (docs : list OrgDoc)
    : OrgReply :=
  if String.eqb orgId "" || String.eqb password "" then OrgFailed CredentialsRequired else
  match List.find (hasOrgId orgId) docs with
  | None => OrgFailed InvalidCredentials
  | Some organization =>
      if bcryptCompare password (doc_password organization)
      then OrgSigned (summary organization) (jwtSign now (org_id (doc_org organization)))
      else OrgFailed InvalidCredentials
  end.

(** ** The [auth] middleware *)

(** [s.replace(pat, '')]: the first occurrence of [pat] is taken out. *)
Definition removeFirst (pat s : string) : string :=
  match String.index 0 pat s with
  | Some i =>
      String.substring 0 i s
      ++ String.substring (i + String.length pat)
                          (String.length s - (i + String.length pat)) s
  | None => s
  end.

Inductive AuthError :=   (* all 401 *)
| NoToken
| TokenInvalid
| OrganizationGone.

(** [authorization] is the [Authorization] header, [None] when the request
    has none; [now] is the clock when the token is verified.  The result is
    [req.organization]. *)
Definition auth `{Secrets} (now : Z) (authorization : option string) (docs : list OrgDoc)
    : AuthError + Organization :=
  match authorization with
  | None => inl NoToken
  | Some header =>
      let token := removeFirst "Bearer " header in
      if String.eqb token "" then inl NoToken else
      match jwtVerify now token with
      | None => inl TokenInvalid
      | Some id =>
          match findOrg (orgsOf docs) id with
          | None => inl OrganizationGone
          | Some organization => inr organization
          end
      end
  end.

(** ** [POST /organizations/create-child] *)

Definition isAlphanumericChar (c : Ascii.ascii) : bool :=
  let n := Ascii.nat_of_ascii c in
  (Nat.leb 48 n && Nat.leb n 57) || (Nat.leb 65 n && Nat.leb n 90)
  || (Nat.leb 97 n && Nat.leb n 122).

Fixpoint allChars (p : Ascii.ascii -> bool) (s : string) : bool :=
  match s with
  | EmptyString => true
  | String c s' => p c && allChars p s'
  end.

(** [/^[a-zA-Z0-9]+$/.test(orgId)]. *)
Definition isAlphanumeric (s : string) : bool :=
  negb (String.eqb s "") && allChars isAlphanumericChar s.

Definition createChild `{Secrets} (salt : string) (newId : Id) (reqOrg : Organization)
    (b : RegisterBody) (docs : list OrgDoc) : OrgReply * list OrgDoc :=
  if negb (Nat.eqb (org_level reqOrg) 0) then (OrgFailed OnlyAdmin, docs) else
  if String.eqb (reg_name b) "" || String.eqb (reg_orgId b) ""
     || String.eqb (reg_password b) ""
  then (OrgFailed FieldsRequired, docs) else
  if negb (isAlphanumeric (reg_orgId b)) then (OrgFailed NotAlphanumeric, docs) else
  match List.find (hasOrgId (reg_orgId b)) docs with
  | Some _ => (OrgFailed OrgAlreadyExists, docs)
  | None =>
      let parentMissing :=
        match reg_parentOrganization b with
        | Some parentId => negb (bool_decide (is_Some (findOrg (orgsOf docs) parentId)))
        | None => false
        end in
      if parentMissing then (OrgFailed ParentNotFound, docs) else
      let hashedPassword := bcryptHash salt (reg_password b) in
      let parentOrganization := default (org_id reqOrg) (reg_parentOrganization b) in
      match saveOrganization newId (reg_name b) (reg_orgId b) hashedPassword
                             (Some parentOrganization) docs with
      | None => (OrgFailed OrgServerError, docs)
      | Some (d, docs') =>
          (OrgChild (org_id (doc_org d)) (org_name (doc_org d)) (doc_orgId d)
                    (org_level (doc_org d)), docs')
      end
  end.

(** ** [PUT /organizations/:id] and [DELETE /organizations/:id] *)

(** [if (name) updates.name = name]: the empty string is falsy and leaves the
    path alone. *)
Definition orString (new : option string) (old : string) : string :=
  match new with
  | Some s => if String.eqb s "" then old else s
  | None => old
  end.

Record OrgPatch := {
  upd_name : option string;
  upd_parentOrganization : option Id
}.

(** The [updates] object applied by [findByIdAndUpdate]: no [save], so the
    hook does not run. *)
Definition applyOrgPatch (p : OrgPatch) (d : OrgDoc) : OrgDoc :=
  {| doc_org :=
       {| org_id := org_id (doc_org d);
          org_name := orString (upd_name p) (org_name (doc_org d));
          org_parentOrganization :=
            match upd_parentOrganization p with
            | Some parentId => Some parentId
            | None => org_parentOrganization (doc_org d)
            end;
          org_level := org_level (doc_org d);
          org_isVenueManager := org_isVenueManager (doc_org d) |};
     doc_orgId := doc_orgId d;
     doc_password := doc_password d |}.

Definition hasDocId (id : Id) (d : OrgDoc) : bool := Nat.eqb (org_id (doc_org d)) id.

Definition updateOrganization (reqOrg : Organization) (id : Id) (p : OrgPatch)
    (docs : list OrgDoc) : OrgReply * list OrgDoc :=
  if negb (Nat.eqb (org_level reqOrg) 0) then (OrgFailed OnlyAdmin, docs) else
  match List.find (hasDocId id) docs with
  | None => (OrgFailed OrgNotFound, docs)
  | Some old =>
      let new := applyOrgPatch p old in
      (* the unique index on [name] *)
      if existsb (fun d => negb (hasDocId id d)
                           && String.eqb (org_name (doc_org d)) (org_name (doc_org new))) docs
      then (OrgFailed OrgServerError, docs)
      else (OrgUpdated new, updateFirst (hasDocId id) (applyOrgPatch p) docs)
  end.

(** [findByIdAndDelete]: the first document with the [_id] goes. *)
Fixpoint deleteFirst {A} (p : A -> bool) (l : list A) : list A :=
  match l with
  | [] => []
  | x :: l' => if p x then l' else x :: deleteFirst p l'
  end.

Definition deleteOrganization (reqOrg : Organization) (id : Id) (docs : list OrgDoc)
    : OrgReply * list OrgDoc :=
  if negb (Nat.eqb (org_level reqOrg) 0) then (OrgFailed OnlyAdmin, docs) else
  match List.find (hasDocId id) docs with
  | None => (OrgFailed OrgNotFound, docs)
  | Some _ => (OrgDeleted, deleteFirst (hasDocId id) docs)
  end.

(** ** Venues: [DELETE /venues/:id] and [GET /venues/availability/:id] *)

Inductive VenueError :=
| ManagersOnly        (* 403, from the [isVenueManager] middleware *)
| VenueHasBookings    (* 400 *)
| DatesRequired       (* 400 *)
| VenueMissing        (* 404 *)
| VenueServerError.   (* 500 *)

Record BookingSummary := {
  bs_id : Id;
  bs_eventId : Id;
  bs_eventName : string;
  bs_startDateTime : Z;
  bs_endDateTime : Z;
  bs_status : BookingStatus
}.

Inductive VenueReply :=
| VenueDeleted
| VenueBookings (v : Venue) (bookings : list BookingSummary)
| VenueFailed (e : VenueError).

Definition activeOn (venueId : Id) (b : VenueBooking) : bool :=
  Nat.eqb (bk_venue b) venueId && isActive (bk_status b).

Definition deleteVenue (reqOrg : Organization) (venueId : Id) (db : Db) : VenueReply * Db :=
  if negb (org_isVenueManager reqOrg) then (VenueFailed ManagersOnly, db) else
  match List.filter (activeOn venueId) (venueBookings db) with
  | _ :: _ => (VenueFailed VenueHasBookings, db)
  | [] =>
      match venues db !! venueId with
      | None => (VenueFailed VenueMissing, db)
      | Some _ =>
          (VenueDeleted,
           {| organizations := organizations db; venues := delete venueId (venues db);
              events := events db; venueBookings := venueBookings db |})
      end
  end.

(** The filter of the availability listing: the stored booking starts at or
    before the end of the range and ends at or after its start. *)
Definition rangeQuery (venueId : Id) (startDate endDate : Z) (b : VenueBooking) : bool :=
  activeOn venueId b
  && (bk_startDateTime b <=? endDate) && (startDate <=? bk_endDateTime b).

Definition venueAvailability `{Casting} (venueId : Id) (startDate endDate : JsVal)
    (db : Db) : VenueReply :=
  if negb (truthy startDate) || negb (truthy endDate) then VenueFailed DatesRequired else
  match venues db !! venueId with
  | None => VenueFailed VenueMissing
  | Some venue =>
      match newDate startDate, newDate endDate with
      | Some s, Some e =>
          match mapM (fun b =>
                        event ← events db !! bk_event b;
                        Some {| bs_id := bk_id b; bs_eventId := bk_event b;
                                bs_eventName := ev_name event;
                                bs_startDateTime := bk_startDateTime b;
                                bs_endDateTime := bk_endDateTime b;
                                bs_status := bk_status b |})
                     (List.filter (rangeQuery venueId s e) (venueBookings db)) with
          | Some bookings => VenueBookings venue bookings
          | None => VenueFailed VenueServerError
          end
      | _, _ => VenueFailed VenueServerError
      end
  end.

(** ** [GET /venue-bookings/check-availability/:venueId], both modes *)

(** [d.setHours(0, 0, 0, 0)] and [d.setHours(23, 59, 59, 999)] in the time
    zone of the server, on time stamps. *)
Class LocalTime := {
  startOfDay : Z -> Z;
  endOfDay : Z -> Z
}.

(** A server on universal time. *)
Definition utc : LocalTime := {|
  startOfDay t := t - t mod 86400000;
  endOfDay t := t - t mod 86400000 + 86399999
|}.

Definition dayQuery (venueId : Id) (startOfDay endOfDay : Z) (b : VenueBooking) : bool :=
  activeOn venueId b
  && (bk_startDateTime b <? endOfDay) && (startOfDay <? bk_endDateTime b).

Inductive AvailabilityReply :=
| DayBookings (bookings : list VenueBooking)
| IntervalReply (r : Reply)
| ModeRequired      (* 400 *)
| AvailabilityError.   (* 500 *)

Definition checkAvailabilityRoute `{Casting} `{LocalTime} (venueId : Id)
    (date startDateTime endDateTime : JsVal) (excludeEventId : option Id) (db : Db)
    : AvailabilityReply :=
  if truthy date then
    match newDate date with
    | Some selectedDate =>
        DayBookings (List.filter (dayQuery venueId (startOfDay selectedDate)
                                           (endOfDay selectedDate))
                                 (venueBookings db))
    | None => AvailabilityError
    end
  else if truthy startDateTime && truthy endDateTime then
    match newDate startDateTime, newDate endDateTime with
    | Some startDate, Some endDate =>
        IntervalReply (checkAvailability venueId startDate endDate excludeEventId db)
    | _, _ =>
        match venues db !! venueId with
        | None => IntervalReply (RespError NotFound)
        | Some _ => AvailabilityError
        end
    end
  else ModeRequired.

(** ** [GET /events/pending] and [GET /events/my-events] *)

Definition isPending (s : ApprovalStatus) : bool :=
  match s with ApPending => true | _ => false end.

Definition isClosed (s : EventStatus) : bool :=
  match s with EvCancelled | EvRejected => true | _ => false end.

(** The filter of the listing.  The two conditions on [approvalChain] are
    conditions on the array: each asks for some entry, not both for the same
    one. *)
Definition pendingQuery (orgId : Id) (e : Event) : bool :=
  existsb (fun a => Nat.eqb (ap_organization a) orgId) (ev_approvalChain e)
  && existsb (fun a => isPending (ap_status a)) (ev_approvalChain e)
  && negb (isClosed (ev_status e)).

Definition pendingEvents (reqOrg : Organization) (db : Db) : gmap Id Event :=
  filter (fun kv => pendingQuery (org_id reqOrg) kv.2 = true) (events db).

Definition myEvents (reqOrg : Organization) (db : Db) : gmap Id Event :=
  filter (fun kv => ev_createdBy kv.2 = org_id reqOrg) (events db).

(** The test of the [findIndex] of the review: the entry is the reviewer's. *)
Definition holdsSlot (reqOrg : Organization) (a : Approval) : bool :=
  Nat.eqb (ap_organization a) (org_id reqOrg).

(** ** States of the whole database *)

(** The levels are the ones the hook derives: a parent is stored and is one
    level up; an organization without parent is at level 0. *)
Definition HierarchyOk (orgs : list Organization) : Prop :=
  forall o, o ∈ orgs ->
    match org_parentOrganization o with
    | None => org_level o = 0%nat
    | Some parentId =>
        exists parent, findOrg orgs parentId = Some parent
                       /\ org_level o = S (org_level parent)
    end.

(** The [k]-th ancestor of an organization in the collection: the
    organization itself for [0], the parent of the [k]-th ancestor for
    [k + 1]. *)
Fixpoint ancestor (orgs : list Organization) (o : Organization) (k : nat)
    : option Organization :=
  match k with
  | O => Some o
  | S k' =>
      below ← ancestor orgs o k';
      parentId ← org_parentOrganization below;
      findOrg orgs parentId
  end.

(** No two active bookings of one venue overlap. *)
Definition NoDoubleBooking (bs : list VenueBooking) : Prop :=
  forall i j b1 b2, i <> j -> bs !! i = Some b1 -> bs !! j = Some b2 ->
    bk_venue b1 = bk_venue b2 ->
    isActive (bk_status b1) = true -> isActive (bk_status b2) = true ->
    overlaps (bk_startDateTime b1) (bk_endDateTime b1)
             (bk_startDateTime b2) (bk_endDateTime b2) = false.

Definition PositiveBookings (bs : list VenueBooking) : Prop :=
  forall b, b ∈ bs -> bk_startDateTime b < bk_endDateTime b.

(** Every booking repeats the venue and the interval of its event. *)
Definition Mirrors (db : Db) : Prop :=
  forall b ev, b ∈ venueBookings db -> events db !! bk_event b = Some ev ->
    bk_venue b = ev_venue ev
    /\ bk_startDateTime b = ev_startDateTime ev
    /\ bk_endDateTime b = ev_endDateTime ev.

(** The venue and the interval of the event are those of [old]. *)
Definition SameSlot (old new : Event) : Prop :=
  ev_venue new = ev_venue old
  /\ ev_startDateTime new = ev_startDateTime old
  /\ ev_endDateTime new = ev_endDateTime old.

(** Two kinds of edit write one of the two documents without the other: an
    edit without the reset whose values can all be cast saves the event and
    leaves the booking alone, and an edit with the reset one of whose values
    cannot be cast has moved the booking when the save of the event is
    refused.  They keep the booking a copy when the assignments do not change
    the venue and the interval.  [CreateEvent] needs its new [_id] to be
    new. *)
Definition KeepsMirror `{Casting} (r : Request) (db : Db) : Prop :=
  match r with
  | CreateEvent _ _ eventId _ _ _ => eventId ∉ (bk_event <$> venueBookings db)
  | UpdateEvent _ _ eventId p =>
      forall ev, events db !! eventId = Some ev ->
        let reset := truthy (patch_resetStatus p) && isNeedsModification (ev_status ev) in
        (reset = false /\ validPatch p = true) \/ (reset = true /\ validPatch p = false) ->
        SameSlot ev (applyPatch p ev)
  | _ => True
  end.

(** What a stored event keeps when the routes rewrite it: its creator, its
    modification history as a prefix of the new one, and the organizations of
    its chain slots as a prefix of the new ones. *)
Definition Extends (old new : Event) : Prop :=
  ev_createdBy new = ev_createdBy old
  /\ ev_modificationHistory old `prefix_of` ev_modificationHistory new
  /\ (ap_organization <$> ev_approvalChain old)
     `prefix_of` (ap_organization <$> ev_approvalChain new).

(** Every active booking is in a venue that exists. *)
Definition Housed (db : Db) : Prop :=
  forall b, b ∈ venueBookings db -> isActive (bk_status b) = true ->
    is_Some (venues db !! bk_venue b).

(** ** A registry to run the organization routes on *)

Module Registry.

Definition admin : OrgDoc :=
  {| doc_org := Campus.root; doc_orgId := "admin"; doc_password := "s0#admin123" |}.

Definition college : OrgDoc :=
  {| doc_org := Campus.college; doc_orgId := "coe"; doc_password := "s1#secret" |}.

Definition docs : list OrgDoc := [admin; college].

(** A student branch asks to be registered under the college. *)
Definition ieee : RegisterBody :=
  {| reg_name := "IEEE"; reg_orgId := "ieee01"; reg_password := "pw";
     reg_parentOrganization := Some 1%nat |}.

End Registry.

(** * Properties *)

(** ** Collection primitives *)

Section Collections.
Context {A : Type}.
Implicit Types (p : A -> bool) (f : A -> A) (l : list A).

Lemma findIndex_Some p l i :
  findIndex p l = Some i -> exists x, l !! i = Some x /\ p x = true.
Proof.
  revert i. induction l as [|y l IH]; intros i; simpl; [done|].
  destruct (p y) eqn:Hy.
  - intros [= <-]. by exists y.
  - destruct (findIndex p l) as [j|]; simpl; [|done].
    intros [= <-]. by apply IH.
Qed.

Lemma findIndex_first p l i j x :
  findIndex p l = Some i -> (j < i)%nat -> l !! j = Some x -> p x = false.
Proof.
  revert i j. induction l as [|y l IH]; intros i j; simpl; [done|].
  destruct (p y) eqn:Hy.
  - intros [= <-]. lia.
  - destruct (findIndex p l) as [k|] eqn:Hk; simpl; [|done].
    intros [= <-] Hlt. destruct j as [|j]; simpl.
    + by intros [= <-].
    + apply (IH k); [done | lia].
Qed.

Lemma updateFirst_none p f l :
  List.find p l = None -> updateFirst p f l = l.
Proof.
  induction l as [|y l IH]; simpl; [done|].
  destruct (p y); [done|]. intros H. by rewrite IH.
Qed.

Lemma updateFirst_split p f l x :
  List.find p l = Some x ->
  exists l1 l2, l = l1 ++ x :: l2 /\ updateFirst p f l = l1 ++ f x :: l2 /\ p x = true.
Proof.
  induction l as [|y l IH]; simpl; [done|].
  destruct (p y) eqn:Hy.
  - intros [= <-]. by exists [], l.
  - intros H. destruct (IH H) as (l1 & l2 & -> & -> & Hp).
    by exists (y :: l1), l2.
Qed.

End Collections.

Lemma bookings_updateFirst_events p f (bs : list VenueBooking) :
  (forall b, bk_event (f b) = bk_event b) ->
  bk_event <$> updateFirst p f bs = bk_event <$> bs.
Proof.
  intros Hf. induction bs as [|b bs IH]; cbn [updateFirst]; [done|].
  destruct (p b); rewrite !fmap_cons; [by rewrite Hf | by rewrite IH].
Qed.

(** With one booking per event, an update of the booking of [eventId] reaches
    every booking of [eventId] and no other. *)
Lemma elem_of_updateFirst_forEvent eventId f bs b :
  NoDup (bk_event <$> bs) ->
  (forall b, bk_event (f b) = bk_event b) ->
  b ∈ updateFirst (forEvent eventId) f bs ->
  (b ∈ bs /\ bk_event b <> eventId) \/ (exists b0, b0 ∈ bs /\ b = f b0 /\ bk_event b = eventId).
Proof.
  intros Hnd Hf. induction bs as [|x bs IH]; simpl; [by intros ?%elem_of_nil|].
  apply NoDup_cons in Hnd as [Hx Hnd]. unfold forEvent at 1.
  destruct (Nat.eqb_spec (bk_event x) eventId) as [He|He].
  - intros [->|Hb]%elem_of_cons.
    + right. exists x. split_and!; [left | done | by rewrite Hf].
    + left. split; [by right|]. intros Hb'. apply Hx.
      rewrite He, <- Hb'. by apply list_elem_of_fmap_2.
  - intros [->|Hb]%elem_of_cons.
    + left. split; [left | done].
    + destruct (IH Hnd Hb) as [[? ?]|(b0 & ? & ? & ?)].
      * left. split; [by right | done].
      * right. exists b0. split_and!; [by right | done | done].
Qed.

(** ** Venue conflict detector *)

(** C2. For a new interval [s1, e1) and a stored booking over [s2, e2), both
    of positive length, the three cases of the availability query (the stored
    booking starts at or before the new start and ends after it; it starts
    before the new end and ends at or after it; it lies within the new
    interval) hold exactly when [s1 < e2] and [s2 < e1], the half-open overlap
    test; intervals that only touch at an end point do not clash. *)
Theorem timeClash_iff_overlaps (s1 e1 s2 e2 : Z) (b : VenueBooking) :
  s1 < e1 -> s2 < e2 ->
  bk_startDateTime b = s2 -> bk_endDateTime b = e2 ->
  timeClash s1 e1 b = overlaps s1 e1 s2 e2
  /\ (timeClash s1 e1 b = true <-> s1 < e2 /\ s2 < e1)
  /\ (e2 = s1 \/ e1 = s2 -> timeClash s1 e1 b = false).
Proof.
  intros Hn Hb <- <-.
  assert (Hiff : timeClash s1 e1 b = true
                 <-> s1 < bk_endDateTime b /\ bk_startDateTime b < e1).
  { unfold timeClash.
    rewrite !orb_true_iff, !andb_true_iff, !Z.leb_le, !Z.ltb_lt. lia. }
  split_and!.
  - apply eq_true_iff_eq. rewrite Hiff. unfold overlaps.
    by rewrite andb_true_iff, !Z.ltb_lt.
  - done.
  - intros Htouch. apply not_true_is_false. rewrite Hiff. lia.
Qed.

Lemma timeClash_iff_overlaps_witness :
  timeClash 1000 2000 (Campus.booking 200 100 1500 2500 BkConfirmed) = true
  /\ timeClash 1000 2000 (Campus.booking 200 100 2000 2500 BkConfirmed) = false.
Proof.
  split.
  - apply (timeClash_iff_overlaps 1000 2000 1500 2500); [lia | lia | reflexivity | reflexivity | lia].
  - apply (timeClash_iff_overlaps 1000 2000 2000 2500); [lia | lia | reflexivity | reflexivity | lia].
Defined.

Lemma conflictQuery_active venue s e b :
  conflictQuery venue s e b = true -> isActive (bk_status b) = true.
Proof. unfold conflictQuery. rewrite !andb_true_iff. tauto. Qed.

Lemma conflictingBookings_drop_cancelled venue s e bs1 c bs2 :
  bk_status c = BkCancelled ->
  conflictingBookings venue s e (bs1 ++ c :: bs2)
  = conflictingBookings venue s e (bs1 ++ bs2).
Proof.
  intros Hc. unfold conflictingBookings.
  rewrite !List.filter_app. cbn [List.filter].
  unfold conflictQuery at 2. rewrite Hc. cbn [isActive].
  by rewrite andb_false_r, andb_false_l.
Qed.

Lemma conflictingBookings_all_cancelled venue s e bs :
  (forall b, In b bs -> bk_status b = BkCancelled) ->
  conflictingBookings venue s e bs = [].
Proof.
  intros Hall. unfold conflictingBookings.
  induction bs as [|b bs IH]; cbn [List.filter]; [done|].
  unfold conflictQuery at 1. rewrite (Hall b) by (by left). cbn [isActive].
  rewrite andb_false_r, andb_false_l. apply IH. intros b' Hb'. apply Hall. by right.
Qed.

(** The reply of [createEvent] depends on the stored bookings only through
    the bookings the conflict query selects. *)
Lemma createEvent_reply_bookings `{Casting} fuel now eventId bookingId reqOrg body db bs :
  (forall venue s e,
     conflictingBookings venue s e (venueBookings db) = conflictingBookings venue s e bs) ->
  fst (createEvent fuel now eventId bookingId reqOrg body db)
  = fst (createEvent fuel now eventId bookingId reqOrg body (withBookings db bs)).
Proof.
  intros Hq. unfold createEvent. cbn [withBookings venues events organizations venueBookings].
  destruct (missingRequired body); [done|].
  destruct (castObjectId (body_venue body)) as [venue|]; [|done].
  destruct (venues db !! venue); [|done].
  destruct (newDate (body_startDateTime body)) as [s|]; [|done].
  destruct (newDate (body_endDateTime body)) as [e|]; [|done].
  destruct (e <=? s); [done|].
  rewrite <- Hq.
  destruct (conflictingBookings venue s e (venueBookings db)) as [|c cs].
  - destruct (buildApprovalChain fuel (organizations db) now reqOrg); [|done..].
    by destruct (newEvent reqOrg body approvalChain).
  - by destruct (conflictingEvents (events db) (c :: cs)).
Qed.

(** C9. The conflict query selects only bookings whose status is temporary or
    confirmed: a cancelled booking, whatever its venue and interval, can be
    taken out of the collection without changing the bookings selected or the
    reply of [createEvent]; and when every other stored booking is cancelled
    too, [createEvent] does not reply with a venue conflict. *)
Theorem cancelled_bookings_never_conflict `{Casting} (fuel : nat) (now : Z)
    (eventId bookingId : Id) (reqOrg : Organization) (body : EventBody) (db : Db)
    (venue : Id) (s e : Z) (bs1 bs2 : list VenueBooking) (c : VenueBooking) :
  venueBookings db = bs1 ++ c :: bs2 ->
  bk_status c = BkCancelled ->
  (forall b, In b (conflictingBookings venue s e (venueBookings db)) ->
     bk_status b = BkTemporary \/ bk_status b = BkConfirmed)
  /\ conflictingBookings venue s e (venueBookings db)
     = conflictingBookings venue s e (bs1 ++ bs2)
  /\ fst (createEvent fuel now eventId bookingId reqOrg body db)
     = fst (createEvent fuel now eventId bookingId reqOrg body (withBookings db (bs1 ++ bs2)))
  /\ ((forall b, In b (bs1 ++ bs2) -> bk_status b = BkCancelled) ->
      forall cs, fst (createEvent fuel now eventId bookingId reqOrg body db)
                 <> RespError (VenueConflict cs)).
Proof.
  intros Hbs Hc. split_and!.
  - intros b [_ Hq]%List.filter_In. apply conflictQuery_active in Hq.
    destruct (bk_status b); [by left | by right | done].
  - rewrite Hbs. by apply conflictingBookings_drop_cancelled.
  - apply createEvent_reply_bookings. intros. rewrite Hbs.
    by apply conflictingBookings_drop_cancelled.
  - intros Hall cs. unfold createEvent.
    destruct (missingRequired body); [done|].
    destruct (castObjectId (body_venue body)) as [v|]; [|done].
    destruct (venues db !! v); [|done].
    destruct (newDate (body_startDateTime body)) as [s'|]; [|done].
    destruct (newDate (body_endDateTime body)) as [e'|]; [|done].
    destruct (e' <=? s'); [done|].
    rewrite Hbs, conflictingBookings_drop_cancelled by done.
    rewrite conflictingBookings_all_cancelled by done.
    destruct (buildApprovalChain fuel (organizations db) now reqOrg); [|done..].
    by destruct (newEvent reqOrg body approvalChain).
Qed.

(** The hall was booked from 5000 to 6000 by an event since cancelled; the
    same slot is requested again. *)
Lemma cancelled_bookings_never_conflict_witness :
  conflictingBookings Campus.hall 5000 6000
    [Campus.booking 200 100 5000 6000 BkCancelled] = []
  /\ forall cs,
       fst (createEvent (H := jsonCasting) 5 7 101 201 Campus.club
              (Campus.body (JNum 5000) (JNum 200))
              (Campus.db {[ 100%nat := Campus.event EvCancelled ApApproved ApPending 5000 6000 ]}
                         [Campus.booking 200 100 5000 6000 BkCancelled]))
       <> RespError (VenueConflict cs).
Proof.
  pose proof (cancelled_bookings_never_conflict (H := jsonCasting) 5 7 101 201 Campus.club
                (Campus.body (JNum 5000) (JNum 200))
                (Campus.db {[ 100%nat := Campus.event EvCancelled ApApproved ApPending 5000 6000 ]}
                           [Campus.booking 200 100 5000 6000 BkCancelled])
                Campus.hall 5000 6000 [] [] (Campus.booking 200 100 5000 6000 BkCancelled)
                eq_refl eq_refl) as (_ & Hsel & _ & Hnone).
  split.
  - exact Hsel.
  - apply Hnone. intros b [].
Defined.

(** ** Required fields *)

(** C10. [createEvent] replies with the missing-fields error, and writes
    nothing, whenever one of name, startDateTime, endDateTime, venue, budget,
    description and expectedParticipants is falsy; a body that carries
    [budget = 0] or [expectedParticipants = 0] is such a body. *)
Theorem createEvent_missing_fields `{Casting} (fuel : nat) (now : Z)
    (eventId bookingId : Id) (reqOrg : Organization) (b : EventBody) (db : Db) :
  truthy (body_name b) = false \/ truthy (body_startDateTime b) = false
  \/ truthy (body_endDateTime b) = false \/ truthy (body_venue b) = false
  \/ truthy (body_budget b) = false \/ truthy (body_description b) = false
  \/ truthy (body_expectedParticipants b) = false
  \/ body_budget b = JNum 0 \/ body_expectedParticipants b = JNum 0 ->
  createEvent fuel now eventId bookingId reqOrg b db = (RespError MissingFields, db).
Proof.
  intros Hfalsy. unfold createEvent.
  assert (missingRequired b = true) as ->; [|done].
  unfold missingRequired. rewrite !orb_true_iff, !negb_true_iff.
  destruct Hfalsy as [?|[?|[?|[?|[?|[?|[?|[Hb|Hp]]]]]]]]; try tauto.
  - rewrite Hb. cbn. tauto.
  - rewrite Hp. cbn. tauto.
Qed.

Lemma createEvent_missing_fields_witness :
  createEvent (H := jsonCasting) 5 7 101 201 Campus.club
    (Campus.body (JNum 0) (JNum 200)) Campus.awaitingCollege
  = (RespError MissingFields, Campus.awaitingCollege).
Proof.
  apply (createEvent_missing_fields (H := jsonCasting)).
  do 7 right. left. reflexivity.
Defined.

(** ** Approval chain of a new event *)

(** C7. For a creator whose parent is at level 2, whose grandparent is at
    level 1 and whose great-grandparent is at level 0, the walk ends, as soon
    as it may run its body twice, with exactly two entries: the first names
    the parent, the second the grandparent, both have status pending and no
    comments.  The creator is not in the chain and the level-0 ancestor is
    never visited.  An event that [createEvent] stores for such a creator
    carries that chain. *)
Theorem buildApprovalChain_level3 `{Casting} (fuel : nat) (now : Z) (db : Db)
    (reqOrg creator parent grandparent root : Organization)
    (eventId bookingId : Id) (body : EventBody) :
  findOrg (organizations db) (org_id reqOrg) = Some creator ->
  org_parentOrganization creator = Some (org_id parent) ->
  findOrg (organizations db) (org_id parent) = Some parent ->
  org_level parent = 2%nat ->
  org_parentOrganization parent = Some (org_id grandparent) ->
  findOrg (organizations db) (org_id grandparent) = Some grandparent ->
  org_level grandparent = 1%nat ->
  org_parentOrganization grandparent = Some (org_id root) ->
  findOrg (organizations db) (org_id root) = Some root ->
  org_level root = 0%nat ->
  (2 <= fuel)%nat ->
  let chain :=
    [ {| ap_organization := org_id parent; ap_status := ApPending;
         ap_comments := None; ap_timestamp := now |};
      {| ap_organization := org_id grandparent; ap_status := ApPending;
         ap_comments := None; ap_timestamp := now |} ] in
  buildApprovalChain fuel (organizations db) now reqOrg = WalkChain chain
  /\ forall event db',
       createEvent fuel now eventId bookingId reqOrg body db = (RespEvent event, db') ->
       ev_approvalChain event = chain /\ events db' !! eventId = Some event.
Proof.
  intros Hc Hcp Hp Hpl Hpp Hg Hgl _ _ _ Hfuel chain.
  assert (Hwalk : buildApprovalChain fuel (organizations db) now reqOrg = WalkChain chain).
  { unfold buildApprovalChain. rewrite Hc.
    destruct fuel as [|[|fuel]]; [lia | lia |].
    cbn [walkParents]. rewrite Hcp, Hp, Hpl. cbn [Nat.eqb].
    rewrite Hpp, Hg, Hgl. by cbn. }
  split; [done|].
  intros event db'. unfold createEvent. rewrite Hwalk.
  destruct (missingRequired body); [done|].
  destruct (castObjectId (body_venue body)) as [venue|] eqn:Hv; [|done].
  destruct (venues db !! venue); [|done].
  destruct (newDate (body_startDateTime body)) as [s|] eqn:Hs; [|done].
  destruct (newDate (body_endDateTime body)) as [e|] eqn:He; [|done].
  destruct (e <=? s); [done|].
  destruct (conflictingBookings venue s e (venueBookings db)) as [|c cs].
  - destruct (newEvent reqOrg body chain) as [ev|] eqn:Hev; [|done].
    intros [= <- <-]. cbn [events]. rewrite lookup_insert_eq. split; [|done].
    unfold newEvent in Hev. simplify_option_eq. done.
  - by destruct (conflictingEvents (events db) (c :: cs)).
Qed.

(** The club of the campus: its chain names the department (2), then the
    college (1). *)
Lemma buildApprovalChain_level3_witness :
  buildApprovalChain 2 (organizations Campus.awaitingCollege) 7 Campus.club
  = WalkChain [ {| ap_organization := 2; ap_status := ApPending;
                   ap_comments := None; ap_timestamp := 7 |};
                {| ap_organization := 1; ap_status := ApPending;
                   ap_comments := None; ap_timestamp := 7 |} ].
Proof.
  apply (buildApprovalChain_level3 (H := jsonCasting) 2 7 Campus.awaitingCollege
           Campus.club Campus.club Campus.department Campus.college Campus.root
           101 201 (Campus.body (JNum 5000) (JNum 200)));
    solve [reflexivity | lia].
Defined.

(** ** Reviews *)

Lemma events_saveEvent eventId event db :
  events (saveEvent eventId event db) !! eventId = Some event.
Proof. apply lookup_insert_eq. Qed.

Lemma forallb_false_lookup {A} (p : A -> bool) (l : list A) :
  forallb p l = false <-> exists i x, l !! i = Some x /\ p x = false.
Proof.
  induction l as [|y l IH]; cbn [forallb].
  - split; [done | by intros (i & x & ? & _)].
  - rewrite andb_false_iff, IH. split.
    + intros [Hy|(i & x & Hi & Hx)]; [by exists 0%nat, y | by exists (S i), x].
    + intros ([|i] & x & Hi & Hx); simplify_eq/=; [by left | right; by exists i, x].
Qed.

Lemma isApproved_false s : isApproved s = false <-> s <> ApApproved.
Proof. destruct s; cbn; split; congruence. Qed.

(** The entry of the reviewer is approved once the decision is recorded, so
    an entry that is not approved up to the reviewer's position is one of its
    predecessors. *)
Lemma allApproved_false_iff (comments : option string) (now : Z)
    (approvalIndex : nat) (chain : list Approval) :
  forallb (fun a => isApproved (ap_status a))
          (take (approvalIndex + 1)
                (alter (recordDecision DApproved comments now) approvalIndex chain)) = false
  <-> exists i a, (i < approvalIndex)%nat /\ chain !! i = Some a /\ ap_status a <> ApApproved.
Proof.
  rewrite forallb_false_lookup. split.
  - intros (i & a & [Hi Hlt]%lookup_take_Some & Ha).
    destruct (decide (i = approvalIndex)) as [->|Hne].
    + rewrite list_lookup_alter_eq in Hi.
      destruct (chain !! approvalIndex); simplify_eq/=.
    + rewrite list_lookup_alter_ne in Hi by done.
      exists i, a. split_and!; [lia | done | by apply isApproved_false].
  - intros (i & a & Hlt & Hi & Ha). exists i, a. split; [|by apply isApproved_false].
    apply lookup_take_Some. split; [|lia]. by rewrite list_lookup_alter_ne by lia.
Qed.

Lemma updateFirst_first {A} (p : A -> bool) (f : A -> A) (l1 l2 : list A) (x : A) :
  (forall y, y ∈ l1 -> p y = false) -> p x = true ->
  updateFirst p f (l1 ++ x :: l2) = l1 ++ f x :: l2.
Proof.
  intros Hl1 Hx. induction l1 as [|y l1 IH]; cbn [updateFirst app].
  - by rewrite Hx.
  - rewrite (Hl1 y) by left. f_equal. apply IH. intros z Hz. apply Hl1. by right.
Qed.

Lemma find_None_forall {A} (p : A -> bool) (l : list A) :
  List.find p l = None -> forall x, x ∈ l -> p x = false.
Proof.
  intros Hnone x Hx%list_elem_of_In. by apply (List.find_none p l Hnone).
Qed.

Lemma find_first {A} (p : A -> bool) (l : list A) (x : A) :
  List.find p l = Some x ->
  exists l1 l2, l = l1 ++ x :: l2 /\ (forall y, y ∈ l1 -> p y = false) /\ p x = true.
Proof.
  induction l as [|y l IH]; cbn [List.find]; [done|].
  destruct (p y) eqn:Hy.
  - intros [= <-]. exists [], l. split_and!; [done | by intros ? ?%elem_of_nil | done].
  - intros Hfind. destruct (IH Hfind) as (l1 & l2 & -> & Hl1 & Hx).
    exists (y :: l1), l2. split_and!; [done | | done].
    intros z [->|Hz]%elem_of_cons; [done | by apply Hl1].
Qed.

(** What [findOneAndUpdate({ event }, { status })] leaves in the collection. *)
Lemma updateBookingStatus_BookingSet eventId s db :
  BookingSet eventId s (venueBookings db) (venueBookings (updateBookingStatus eventId s db)).
Proof.
  unfold updateBookingStatus. cbn [venueBookings withBookings].
  destruct (List.find (forEvent eventId) (venueBookings db)) as [b|] eqn:Hfind.
  - right. destruct (find_first _ _ _ Hfind) as (l1 & l2 & Hbs & Hl1 & Hb).
    exists l1, b, l2. apply Nat.eqb_eq in Hb.
    split_and!; [done | | done |].
    + intros x Hx. specialize (Hl1 x Hx). by apply Nat.eqb_neq in Hl1.
    + rewrite Hbs, updateFirst_first; [|done|by apply Nat.eqb_eq].
      unfold setBookingStatus. by rewrite Hb.
  - left. split.
    + intros b Hb. apply (find_None_forall _ _ Hfind) in Hb. by apply Nat.eqb_neq in Hb.
    + by apply updateFirst_none.
Qed.

Lemma BookingSet_saved eventId s event db :
  BookingSet eventId s (venueBookings db)
    (venueBookings (saveEvent eventId event (updateBookingStatus eventId s db))).
Proof. apply updateBookingStatus_BookingSet. Qed.

(** The claim of C6 at the event of the campus that awaits the college: the
    college approves with comments sent as an object.  The booking is
    confirmed, the save of the event is refused, and the event is still
    pending. *)
Lemma level1_approval_counterexample :
  ~ (let r := reviewEvent (H := jsonCasting) 50 (fun _ => true) Campus.college 100
                (JStr "approved") Campus.notText Campus.awaitingCollege in
     ev_status <$> events (snd r) !! 100%nat = Some EvApproved
     /\ bk_status <$> venueBookings (snd r) !! 0%nat = Some BkConfirmed).
Proof. intros [Hstatus _]. discriminate Hstatus. Qed.

(** C6, amended. An approval by an organization of level 1 whose comments
    are absent or can be cast sets the event's status to approved and the
    status of the event's booking to confirmed, whether the organization held
    a slot of the chain or gained one by authority; nothing is asked of the
    other entries of the chain.  The booking is the first stored booking that
    refers to the event; no other booking changes, and with no such booking
    none changes. *)
Theorem level1_approval_is_final `{Casting} (now : Z) (answered : nat -> bool)
    (reqOrg : Organization) (eventId : Id) (comments : JsVal) (c : option string)
    (db : Db) (event : Event) :
  events db !! eventId = Some event ->
  findOrg (organizations db) (org_id reqOrg) = Some reqOrg ->
  org_level reqOrg = 1%nat ->
  castComments comments = Some c ->
  let r := reviewEvent now answered reqOrg eventId (JStr "approved") comments db in
  (exists event',
     fst r = RespEvent event'
     /\ events (snd r) !! eventId = Some event'
     /\ ev_status event' = EvApproved)
  /\ ((forall b, b ∈ venueBookings db -> bk_event b <> eventId) ->
      venueBookings (snd r) = venueBookings db)
  /\ (forall l1 b l2,
        venueBookings db = l1 ++ b :: l2 ->
        (forall x, x ∈ l1 -> bk_event x <> eventId) ->
        bk_event b = eventId ->
        venueBookings (snd r)
        = l1 ++ {| bk_id := bk_id b; bk_venue := bk_venue b; bk_event := eventId;
                   bk_startDateTime := bk_startDateTime b;
                   bk_endDateTime := bk_endDateTime b; bk_status := BkConfirmed |} :: l2).
Proof.
  intros Hev Horg Hlevel Hcast r.
  assert (Hnone : forall ev',
            (forall b, b ∈ venueBookings db -> bk_event b <> eventId) ->
            venueBookings (saveEvent eventId ev' (updateBookingStatus eventId BkConfirmed db))
            = venueBookings db).
  { intros ev' Hno. cbn. apply updateFirst_none.
    destruct (List.find (forEvent eventId) (venueBookings db)) as [b|] eqn:Hfind; [|done].
    apply List.find_some in Hfind as [Hin Hb]. apply Nat.eqb_eq in Hb.
    by destruct (Hno b (proj2 (list_elem_of_In _ _) Hin)). }
  assert (Hfirst : forall ev' l1 b l2,
            venueBookings db = l1 ++ b :: l2 ->
            (forall x, x ∈ l1 -> bk_event x <> eventId) ->
            bk_event b = eventId ->
            venueBookings (saveEvent eventId ev' (updateBookingStatus eventId BkConfirmed db))
            = l1 ++ {| bk_id := bk_id b; bk_venue := bk_venue b; bk_event := eventId;
                       bk_startDateTime := bk_startDateTime b;
                       bk_endDateTime := bk_endDateTime b; bk_status := BkConfirmed |} :: l2).
  { intros ev' l1 b l2 Hbs Hl1 Hb. cbn. rewrite Hbs, updateFirst_first.
    - unfold setBookingStatus. by rewrite Hb.
    - intros y Hy. apply Nat.eqb_neq. by apply Hl1.
    - by apply Nat.eqb_eq. }
  subst r. unfold reviewEvent. cbn [decisionOf String.eqb]. cbn. rewrite Hev, Hcast.
  cbn [accepted saveAndReply].
  destruct (findIndex _ (ev_approvalChain event)) as [approvalIndex|].
  - rewrite Horg, Hlevel. cbn [Nat.eqb fst snd].
    split_and!; [eexists; split_and!; [done | apply events_saveEvent | done] | apply Hnone | apply Hfirst].
  - rewrite Hlevel. cbn [Nat.leb Nat.eqb fst snd].
    split_and!; [eexists; split_and!; [done | apply events_saveEvent | done] | apply Hnone | apply Hfirst].
Qed.

(** The college, last in the chain, approves: the fest is approved and its
    booking, the only one stored, is confirmed. *)
Lemma level1_approval_is_final_witness :
  let r := reviewEvent (H := jsonCasting) 50 (fun _ => true) Campus.college 100
             (JStr "approved") JUndefined Campus.awaitingCollege in
  (exists event', fst r = RespEvent event' /\ ev_status event' = EvApproved)
  /\ venueBookings (snd r) = [Campus.booking 200 100 1000 2000 BkConfirmed].
Proof.
  intros r.
  destruct (level1_approval_is_final (H := jsonCasting) 50 (fun _ => true) Campus.college
              100 JUndefined None Campus.awaitingCollege
              (Campus.event EvPending ApApproved ApPending 1000 2000)
              eq_refl eq_refl eq_refl eq_refl) as ((event' & Hr & _ & Hs) & _ & Hbooking).
  split.
  - exists event'. split; [exact Hr | exact Hs].
  - apply (Hbooking [] (Campus.booking 200 100 1000 2000 BkTemporary) []);
      [reflexivity | intros x Hx; by apply elem_of_nil in Hx | reflexivity].
Defined.



(** *** Cascade reset *)

(** Once its lookup has been answered, an entry other than the reviewer's is
    reset exactly when its organization's level is above the reviewer's. *)
Lemma cascadeReset_lookup answered orgs reviewingOrg approvalIndex chain i :
  cascadeReset answered orgs reviewingOrg approvalIndex chain !! i
  = (fun a => if negb (Nat.eqb i approvalIndex) && answered i
              then resetCallback orgs reviewingOrg a else a) <$> chain !! i.
Proof. unfold cascadeReset. apply list_lookup_imap. Qed.

Lemma cascadeReset_answered orgs reviewingOrg approvalIndex chain i a org :
  chain !! i = Some a -> i <> approvalIndex ->
  findOrg orgs (ap_organization a) = Some org ->
  cascadeReset (fun _ => true) orgs reviewingOrg approvalIndex chain !! i
  = Some (if Nat.ltb (org_level reviewingOrg) (org_level org)
          then resetApproval reviewingOrg a else a).
Proof.
  intros Hi Hne Horg. rewrite cascadeReset_lookup, Hi. cbn [fmap option_fmap option_map].
  apply Nat.eqb_neq in Hne. rewrite Hne. cbn [negb andb].
  unfold resetCallback. by rewrite Horg.
Qed.

(** What a slot holder's needs_modification review writes when its comments
    can be cast: the chain with the decision recorded at the holder's slot,
    and nothing else changed in it, whatever the levels of the other entries
    and whichever lookups are answered later. *)
Lemma reviewEvent_needs_modification_saved `{Casting} now answered reqOrg eventId
    comments c db event approvalIndex :
  events db !! eventId = Some event ->
  findIndex (fun a => Nat.eqb (ap_organization a) (org_id reqOrg))
            (ev_approvalChain event) = Some approvalIndex ->
  castComments comments = Some c ->
  exists event',
    events (snd (reviewEvent now answered reqOrg eventId (JStr "needs_modification")
                   comments db)) !! eventId = Some event'
    /\ ev_status event' = EvNeedsModification
    /\ ev_approvalChain event'
       = alter (recordDecision DNeedsModification c now) approvalIndex
               (ev_approvalChain event).
Proof.
  intros Hev Hidx Hcast. unfold reviewEvent. cbn [decisionOf String.eqb]. cbn.
  rewrite Hev, Hidx, Hcast. cbn [accepted saveAndReply default].
  eexists. cbn [snd]. split; [apply events_saveEvent | done].
Qed.

(** C1. The event has the chain [department (level 2), approved; college
    (level 1), pending] and the college, a slot holder, asks for
    modifications.  The event the call writes still has the department's
    entry approved and without comment, whichever lookups of the cascade are
    answered afterwards; and when none is answered before the reply is
    serialised, the event of the reply is the one written. *)
Theorem cascade_reset_not_persisted (answered : nat -> bool) :
  let r := reviewEvent (H := jsonCasting) 50 answered Campus.college 100
             (JStr "needs_modification") (JStr "Move it to May")
             Campus.awaitingCollege in
  let r0 := reviewEvent (H := jsonCasting) 50 (fun _ => false) Campus.college 100
              (JStr "needs_modification") (JStr "Move it to May")
              Campus.awaitingCollege in
  ev_approvalChain <$> events (snd r) !! 100%nat
  = Some [ {| ap_organization := 2; ap_status := ApApproved;
              ap_comments := None; ap_timestamp := 1 |};
           {| ap_organization := 1; ap_status := ApNeedsModification;
              ap_comments := Some "Move it to May"; ap_timestamp := 50 |} ]
  /\ Some (fst r0) = RespEvent <$> events (snd r0) !! 100%nat.
Proof. split; reflexivity. Qed.

(** With every lookup answered before the reply is serialised, the event of
    the reply shows the department reset to pending; the event written by the
    same call does not. *)
Lemma cascade_reset_reply_only :
  let r := reviewEvent (H := jsonCasting) 50 (fun _ => true) Campus.college 100
             (JStr "needs_modification") (JStr "Move it to May")
             Campus.awaitingCollege in
  (exists replied,
     fst r = RespEvent replied
     /\ ev_approvalChain replied !! 0%nat
        = Some {| ap_organization := 2; ap_status := ApPending;
                  ap_comments := Some "Reset due to modification request from College";
                  ap_timestamp := 1 |})
  /\ ap_status <$> (events (snd r) !! 100%nat ≫= fun e => ev_approvalChain e !! 0%nat)
     = Some ApApproved.
Proof. split; [eexists; split; reflexivity | reflexivity]. Qed.

(** *** Reviews of an event whatever its status *)

Lemma cancelEvent_cases reqOrg eventId db event :
  events db !! eventId = Some event ->
  (ev_createdBy event <> org_id reqOrg ->
     cancelEvent reqOrg eventId db = (RespError NotAuthorized, db))
  /\ (ev_createdBy event = org_id reqOrg ->
        cancelEvent reqOrg eventId db
        = (RespEvent (setEventStatus event EvCancelled),
           saveEvent eventId (setEventStatus event EvCancelled)
             (updateBookingStatus eventId BkCancelled db))).
Proof.
  intros Hev. unfold cancelEvent. rewrite Hev. split.
  - intros Hne%Nat.eqb_neq. by rewrite Hne.
  - intros Heq%Nat.eqb_eq. by rewrite Heq.
Qed.

(** The claim of C3 at the rejected event of the campus: the college, which
    had rejected it, approves it, and the status and the booking change. *)
Lemma terminal_status_counterexample :
  ~ (forall event,
       events Campus.rejectedByCollege !! 100%nat = Some event ->
       ev_status event = EvRejected \/ ev_status event = EvCancelled ->
       let r := reviewEvent (H := jsonCasting) 50 (fun _ => true) Campus.college 100
                  (JStr "approved") JUndefined Campus.rejectedByCollege in
       ev_status <$> events (snd r) !! 100%nat = Some (ev_status event)
       /\ bk_status <$> venueBookings (snd r) !! 0%nat
          = bk_status <$> venueBookings Campus.rejectedByCollege !! 0%nat).
Proof.
  intros Hclaim.
  destruct (Hclaim (Campus.event EvRejected ApApproved ApRejected 1000 2000)
              eq_refl (or_introl eq_refl)) as [Hs _].
  discriminate Hs.
Qed.

(** C3, amended. [reviewEvent] does not read the status of the event, so no
    status is final for it.  For every stored event, whatever its status, and
    a reviewer as the [auth] middleware loaded it:
    - a refused review (no valid decision, or a reviewer without a slot whose
      level is above 1) writes nothing;
    - a review whose comments cannot be cast changes no event;
    - otherwise [rejected] sets the status to rejected and cancels the
      booking of the event, and [needs_modification] sets it to
      needs_modification and writes no booking;
    - [approved] from level 1 sets it to approved and confirms the booking of
      the event; from another level it writes no booking, and then a holder
      of a slot sets the status to pending when an entry before its slot is
      not approved and leaves the status alone when all of them are, and a
      reviewer without a slot (from level 0) leaves the status alone.
    [cancelEvent] writes nothing unless the requester is the creator, and then
    sets the status to cancelled and cancels the booking of the event. *)
Theorem review_ignores_current_status `{Casting} (now : Z) (answered : nat -> bool)
    (reqOrg : Organization) (eventId : Id) (status comments : JsVal)
    (db : Db) (event : Event) :
  events db !! eventId = Some event ->
  findOrg (organizations db) (org_id reqOrg) = Some reqOrg ->
  let slot := findIndex (fun a => Nat.eqb (ap_organization a) (org_id reqOrg))
                        (ev_approvalChain event) in
  let r := reviewEvent now answered reqOrg eventId status comments db in
  let after := ev_status <$> events (snd r) !! eventId in
  (decisionOf status = None \/ (slot = None /\ (1 < org_level reqOrg)%nat) -> snd r = db)
  /\ (castComments comments = None -> events (snd r) = events db)
  /\ (is_Some (castComments comments) ->
      is_Some slot \/ (org_level reqOrg <= 1)%nat ->
      (decisionOf status = Some DRejected ->
         after = Some EvRejected
         /\ BookingSet eventId BkCancelled (venueBookings db) (venueBookings (snd r)))
      /\ (decisionOf status = Some DNeedsModification ->
         after = Some EvNeedsModification
         /\ venueBookings (snd r) = venueBookings db)
      /\ (decisionOf status = Some DApproved ->
         (org_level reqOrg = 1%nat ->
            after = Some EvApproved
            /\ BookingSet eventId BkConfirmed (venueBookings db) (venueBookings (snd r)))
         /\ (org_level reqOrg <> 1%nat ->
            venueBookings (snd r) = venueBookings db
            /\ (forall i, slot = Some i ->
                  ((exists j a, (j < i)%nat /\ ev_approvalChain event !! j = Some a
                                /\ ap_status a <> ApApproved) ->
                   after = Some EvPending)
                  /\ ((forall j a, (j < i)%nat -> ev_approvalChain event !! j = Some a ->
                                   ap_status a = ApApproved) ->
                      after = Some (ev_status event)))
            /\ (slot = None -> after = Some (ev_status event)))))
  /\ (forall requester,
        let c := cancelEvent requester eventId db in
        (ev_createdBy event <> org_id requester -> snd c = db)
        /\ (ev_createdBy event = org_id requester ->
              ev_status <$> events (snd c) !! eventId = Some EvCancelled
              /\ BookingSet eventId BkCancelled (venueBookings db) (venueBookings (snd c)))).
Proof.
  intros Hev Horg slot r after.
  assert (Hsaved : forall ev' db', ev_status <$> events (saveEvent eventId ev' db') !! eventId
                                   = Some (ev_status ev')).
  { intros. by rewrite events_saveEvent. }
  split_and!.
  - subst r. unfold reviewEvent. intros [Hd|[Hslot Hlevel]].
    + by rewrite Hd.
    + destruct (decisionOf status); [|done]. rewrite Hev. cbn zeta. fold slot. rewrite Hslot.
      apply Nat.leb_gt in Hlevel. by rewrite Hlevel.
  - intros Hcast. subst r. unfold reviewEvent.
    destruct (decisionOf status); [|done]. rewrite Hev, Hcast.
    cbn [accepted saveAndReply]. repeat case_match; done.
  - intros [c Hcast] Hauth.
    assert (Hlevel : slot = None -> Nat.leb (org_level reqOrg) 1 = true).
    { intros Hn. destruct Hauth as [[? Hs]|?]; [congruence | by apply Nat.leb_le]. }
    subst r after. unfold reviewEvent. rewrite Hev, Hcast.
    cbn [accepted saveAndReply default]. fold slot.
    split_and!; intros ->.
    + destruct slot as [approvalIndex|]; [|rewrite Hlevel by done]; cbn [snd];
        (split; [by rewrite Hsaved | apply BookingSet_saved]).
    + destruct slot as [approvalIndex|]; [|rewrite Hlevel by done]; cbn [snd];
        by rewrite Hsaved.
    + split.
      * intros Hone. destruct slot as [approvalIndex|]; [rewrite Horg|rewrite Hlevel by done];
          rewrite Hone; cbn [Nat.eqb snd]; (split; [by rewrite Hsaved | apply BookingSet_saved]).
      * intros Hne. pose proof Hne as Hneb%Nat.eqb_neq.
        destruct slot as [approvalIndex|] eqn:Hslot.
        -- rewrite Horg, Hneb.
           match goal with |- context [forallb ?p ?l] => destruct (forallb p l) eqn:Hall end;
             cbn [snd]; rewrite Hsaved; (split_and!; [done | | done]);
             intros i [= <-]; cbn [ev_approvalChain setApprovalChain] in Hall.
           ++ split; [|done]. intros Hbefore. exfalso.
              eapply eq_true_false_abs; [exact Hall|].
              exact (proj2 (allApproved_false_iff c now approvalIndex _) Hbefore).
           ++ split; [done|]. intros Hbefore.
              destruct (proj1 (allApproved_false_iff c now approvalIndex _) Hall)
                as (j & a & Hlt & Hj & Ha).
              by destruct (Ha (Hbefore j a Hlt Hj)).
        -- rewrite Hlevel, Hneb by done. cbn [snd]. rewrite Hsaved. split_and!; done.
  - intros requester c. subst c.
    destruct (cancelEvent_cases requester eventId db event Hev) as [Hother Hcreator].
    split.
    + intros Hne. by rewrite Hother.
    + intros Heq. rewrite Hcreator by done. cbn [snd].
      split; [by rewrite Hsaved | apply BookingSet_saved].
Qed.

(** The rejected event of the campus, approved by the college: it is
    approved, and its booking, which was cancelled, is confirmed. *)
Lemma review_ignores_current_status_witness :
  let r := reviewEvent (H := jsonCasting) 50 (fun _ => true) Campus.college 100
             (JStr "approved") JUndefined Campus.rejectedByCollege in
  ev_status <$> events Campus.rejectedByCollege !! 100%nat = Some EvRejected
  /\ ev_status <$> events (snd r) !! 100%nat = Some EvApproved
  /\ BookingSet 100 BkConfirmed [Campus.booking 200 100 1000 2000 BkCancelled]
                (venueBookings (snd r)).
Proof.
  intros r. split; [reflexivity|].
  destruct (review_ignores_current_status (H := jsonCasting) 50 (fun _ => true)
              Campus.college 100 (JStr "approved") JUndefined Campus.rejectedByCollege
              (Campus.event EvRejected ApApproved ApRejected 1000 2000)
              eq_refl eq_refl) as (_ & _ & Haccepted & _).
  destruct Haccepted as (_ & _ & Happroved).
  - by exists None.
  - left. by exists 1%nat.
  - destruct (Happroved eq_refl) as [Hone _].
    exact (Hone eq_refl).
Defined.

(** ** Edits after a request for modification *)



(** X29. The handlers write the booking before they save the event, and the
    save is where the values of the body are checked.  A rejection, or an
    approval from level 1, whose comments cannot be cast, and an edit with the
    reset one of whose values cannot be cast, are answered with the server
    error; no event has changed, and the first stored booking of the event
    has been cancelled, confirmed, or moved and made temporary all the
    same. *)
Theorem failed_save_leaves_the_booking_written `{Casting} (now : Z)
    (answered : nat -> bool) (reqOrg : Organization) (eventId : Id) (db : Db)
    (event : Event) (l1 l2 : list VenueBooking) (b : VenueBooking) :
  events db !! eventId = Some event ->
  venueBookings db = l1 ++ b :: l2 ->
  (forall x, x ∈ l1 -> bk_event x <> eventId) ->
  bk_event b = eventId ->
  let written venue startDateTime endDateTime s :=
    l1 ++ {| bk_id := bk_id b; bk_venue := venue; bk_event := eventId;
             bk_startDateTime := startDateTime; bk_endDateTime := endDateTime;
             bk_status := s |} :: l2 in
  (forall comments,
     castComments comments = None ->
     (is_Some (findIndex (holdsSlot reqOrg) (ev_approvalChain event))
      \/ (org_level reqOrg <= 1)%nat) ->
     reviewEvent now answered reqOrg eventId (JStr "rejected") comments db
     = (RespError ServerError,
        withBookings db (written (bk_venue b) (bk_startDateTime b) (bk_endDateTime b)
                                 BkCancelled)))
  /\ (forall comments,
        castComments comments = None ->
        findOrg (organizations db) (org_id reqOrg) = Some reqOrg ->
        org_level reqOrg = 1%nat ->
        reviewEvent now answered reqOrg eventId (JStr "approved") comments db
        = (RespError ServerError,
           withBookings db (written (bk_venue b) (bk_startDateTime b) (bk_endDateTime b)
                                    BkConfirmed)))
  /\ (forall p,
        validPatch p = false ->
        ev_createdBy event = org_id reqOrg ->
        truthy (patch_resetStatus p) = true ->
        ev_status event = EvNeedsModification ->
        updateEvent now reqOrg eventId p db
        = (RespError ServerError,
           withBookings db (written (ev_venue (applyPatch p event))
                                    (ev_startDateTime (applyPatch p event))
                                    (ev_endDateTime (applyPatch p event))
                                    BkTemporary))).
Proof.
  intros Hev Hbs Hl1 Hb written.
  assert (Hfirst : forall f, updateFirst (forEvent eventId) f (venueBookings db)
                             = l1 ++ f b :: l2).
  { intros f. rewrite Hbs. apply updateFirst_first.
    - intros y Hy. apply Nat.eqb_neq. by apply Hl1.
    - by apply Nat.eqb_eq. }
  assert (Hset : forall s, updateBookingStatus eventId s db
                           = withBookings db (written (bk_venue b) (bk_startDateTime b)
                                                      (bk_endDateTime b) s)).
  { intros s. unfold updateBookingStatus. rewrite Hfirst.
    unfold written, setBookingStatus. by rewrite Hb. }
  split_and!.
  - intros comments Hcast Hauth. unfold reviewEvent, saveAndReply.
    change (decisionOf (JStr "rejected")) with (Some DRejected).
    fold (holdsSlot reqOrg). rewrite Hev, Hcast. cbn [accepted].
    destruct (findIndex (holdsSlot reqOrg) (ev_approvalChain event)) as [i|] eqn:Hi.
    + by rewrite Hset.
    + destruct Hauth as [[? ?]|Hle]; [done|]. apply Nat.leb_le in Hle. by rewrite Hle, Hset.
  - intros comments Hcast Horg Hlevel. unfold reviewEvent, saveAndReply.
    change (decisionOf (JStr "approved")) with (Some DApproved).
    rewrite Hev, Hcast. cbn [accepted].
    destruct (findIndex _ (ev_approvalChain event)) as [i|].
    + by rewrite Horg, Hlevel, Hset.
    + by rewrite Hlevel, Hset.
  - intros p Hvalid Hcreator Hreset Hstatus. unfold updateEvent, saveAndReply.
    rewrite Hev. apply Nat.eqb_eq in Hcreator. rewrite Hcreator, Hreset, Hvalid.
    cbn [negb andb applyPatch ev_status]. rewrite Hstatus. cbn [isNeedsModification].
    rewrite Hfirst. unfold written, retarget. cbn. by rewrite Hb.
Qed.

(** The college rejects the fest with comments sent as an object. *)
Lemma failed_save_leaves_the_booking_written_witness :
  reviewEvent (H := jsonCasting) 50 (fun _ => true) Campus.college 100 (JStr "rejected")
    Campus.notText Campus.awaitingCollege
  = (RespError ServerError,
     Campus.db {[ 100%nat := Campus.event EvPending ApApproved ApPending 1000 2000 ]}
               [Campus.booking 200 100 1000 2000 BkCancelled]).
Proof.
  apply (proj1 (failed_save_leaves_the_booking_written (H := jsonCasting) 50 (fun _ => true)
                  Campus.college 100 Campus.awaitingCollege
                  (Campus.event EvPending ApApproved ApPending 1000 2000)
                  [] [] (Campus.booking 200 100 1000 2000 BkTemporary)
                  eq_refl eq_refl
                  (fun x Hx => False_ind _ (proj1 (elem_of_nil x) Hx)) eq_refl)
               Campus.notText eq_refl).
  left. by exists 1%nat.
Defined.

(** C5. The campus holds two events in the hall: the fest, approved, with a
    confirmed booking from 1000 to 2000, and a second event, sent back for
    modification, with a temporary booking from 3000 to 4000.  The creator of
    the second event edits it, with the reset flag, onto the hours of the
    fest.  The availability check with the edited event left out reports the
    fest as a clash for that slot; the edit is accepted all the same, the
    event is pending on the new hours, and the hall is left with two active
    bookings from 1000 to 2000. *)
Theorem reset_edit_double_books :
  let r := updateEvent (H := jsonCasting) 60 Campus.club 101 Campus.moveOntoFirst
             Campus.twoEvents in
  checkAvailability Campus.hall 1000 2000 (Some 101%nat) Campus.twoEvents
  = RespUnavailable [ {| cf_eventName := "Fest"; cf_startTime := 1000; cf_endTime := 2000 |} ]
  /\ (exists event',
        fst r = RespEvent event'
        /\ events (snd r) !! 101%nat = Some event'
        /\ ev_status event' = EvPending
        /\ ev_venue event' = Campus.hall
        /\ ev_startDateTime event' = 1000 /\ ev_endDateTime event' = 2000)
  /\ venueBookings (snd r)
     = [ {| bk_id := 200; bk_venue := Campus.hall; bk_event := 100;
            bk_startDateTime := 1000; bk_endDateTime := 2000; bk_status := BkConfirmed |};
         {| bk_id := 201; bk_venue := Campus.hall; bk_event := 101;
            bk_startDateTime := 1000; bk_endDateTime := 2000; bk_status := BkTemporary |} ]
  /\ ~ NoDoubleBooking (venueBookings (snd r)).
Proof.
  intros r.
  assert (Hbookings : venueBookings (snd r)
            = [ Campus.booking 200 100 1000 2000 BkConfirmed;
                Campus.booking 201 101 1000 2000 BkTemporary ]) by reflexivity.
  split_and!.
  - reflexivity.
  - eexists. split_and!; reflexivity.
  - exact Hbookings.
  - rewrite Hbookings. intros Hno.
    specialize (Hno 0%nat 1%nat _ _ ltac:(done) eq_refl eq_refl eq_refl eq_refl eq_refl).
    discriminate Hno.
Qed.

(** ** Booking status and event status in step *)

Lemma Synced_save_with_booking eventId event' f db :
  OneBookingPerEvent db -> Synced db ->
  (forall b, bk_event (f b) = bk_event b) ->
  (forall b, bk_status (f b) = bookingStatusFor (ev_status event')) ->
  let db' := saveEvent eventId event'
               (withBookings db (updateFirst (forEvent eventId) f (venueBookings db))) in
  Synced db' /\ OneBookingPerEvent db'.
Proof.
  intros Hone Hsync Hf Hs db'. split.
  - intros b ev Hb Hev. cbn in Hb, Hev.
    destruct (elem_of_updateFirst_forEvent _ _ _ _ Hone Hf Hb)
      as [[Hb' Hne]|(b0 & Hb0 & -> & He)].
    + rewrite lookup_insert_ne in Hev by done. by apply Hsync.
    + rewrite He, lookup_insert_eq in Hev. simplify_eq. apply Hs.
  - unfold OneBookingPerEvent, db'. cbn. by rewrite bookings_updateFirst_events.
Qed.

Lemma Synced_save_only eventId event event' db :
  OneBookingPerEvent db -> Synced db ->
  events db !! eventId = Some event ->
  bookingStatusFor (ev_status event') = bookingStatusFor (ev_status event) ->
  let db' := saveEvent eventId event' db in
  Synced db' /\ OneBookingPerEvent db'.
Proof.
  intros Hone Hsync Hold Hs db'. split; [|done].
  intros b ev Hb Hev. cbn in Hb, Hev.
  destruct (decide (bk_event b = eventId)) as [He|Hne].
  - rewrite He, lookup_insert_eq in Hev. injection Hev as <-. rewrite Hs.
    apply Hsync; [done | by rewrite He].
  - rewrite lookup_insert_ne in Hev by done. by apply Hsync.
Qed.

Lemma UnderReview_temporary eventId event db :
  UnderReview eventId db -> events db !! eventId = Some event ->
  bookingStatusFor (ev_status event) = BkTemporary.
Proof. intros Hu Hev. by destruct (Hu event Hev) as [-> | ->]. Qed.

(** A write to the booking of the event that is not followed by a write to
    the event keeps the two in step when the status written reflects the
    status the event has. *)
Lemma Synced_booking_only eventId f s db :
  OneBookingPerEvent db -> Synced db ->
  (forall b, bk_event (f b) = bk_event b) ->
  (forall b, bk_status (f b) = s) ->
  Settled eventId s db ->
  let db' := withBookings db (updateFirst (forEvent eventId) f (venueBookings db)) in
  Synced db' /\ OneBookingPerEvent db'.
Proof.
  intros Hone Hsync Hf Hs Hsettled db'. split.
  - intros b ev Hb Hev. cbn in Hb, Hev.
    destruct (elem_of_updateFirst_forEvent _ _ _ _ Hone Hf Hb)
      as [[Hb' Hne]|(b0 & Hb0 & -> & He)].
    + by apply Hsync.
    + rewrite He in Hev. rewrite Hs. symmetry. by apply Hsettled.
  - unfold OneBookingPerEvent, db'. cbn. by rewrite bookings_updateFirst_events.
Qed.

Lemma reviewEvent_keeps_sync `{Casting} now answered reqOrg eventId status comments db :
  OneBookingPerEvent db -> Synced db ->
  KeepsInStep (ReviewEvent now answered reqOrg eventId status comments) db ->
  let db' := snd (reviewEvent now answered reqOrg eventId status comments db) in
  Synced db' /\ OneBookingPerEvent db'.
Proof.
  intros Hone Hsync Hstep db'. subst db'. cbn [KeepsInStep] in Hstep.
  unfold reviewEvent.
  destruct (decisionOf status) as [d|]; [|done].
  destruct (events db !! eventId) as [event|] eqn:Hev; [|done].
  destruct (castComments comments) as [c|] eqn:Hcast;
    cbn [accepted saveAndReply default].
  - destruct (findIndex _ (ev_approvalChain event)) as [approvalIndex|] eqn:Hidx.
    + destruct d.
      * destruct (findOrg (organizations db) (org_id reqOrg)) as [reviewingOrg|] eqn:Horg; [|done].
        destruct (Nat.eqb_spec (org_level reviewingOrg) 1) as [Hl|Hl].
        -- by apply Synced_save_with_booking.
        -- match goal with |- context [forallb ?p ?l] => destruct (forallb p l) eqn:Hall end;
             cbn [snd]; eapply Synced_save_only; try done.
           cbn. symmetry. eapply UnderReview_temporary; [|done].
           apply Hstep. by exists event, approvalIndex, reviewingOrg.
      * by apply Synced_save_with_booking.
      * cbn [snd]. eapply Synced_save_only; try done.
        cbn. symmetry. by eapply UnderReview_temporary.
    + destruct (Nat.leb (org_level reqOrg) 1); [|done].
      destruct d.
      * destruct (Nat.eqb (org_level reqOrg) 1).
        -- by apply Synced_save_with_booking.
        -- cbn [snd]. by eapply Synced_save_only.
      * by apply Synced_save_with_booking.
      * cbn [snd]. eapply Synced_save_only; try done.
        cbn. symmetry. by eapply UnderReview_temporary.
  - destruct d; repeat case_match; try done; cbn [snd];
      unfold updateBookingStatus;
      first [ by apply (Synced_booking_only eventId _ BkConfirmed)
            | by apply (Synced_booking_only eventId _ BkCancelled) ].
Qed.

Lemma cancelEvent_keeps_sync reqOrg eventId db :
  OneBookingPerEvent db -> Synced db ->
  let db' := snd (cancelEvent reqOrg eventId db) in
  Synced db' /\ OneBookingPerEvent db'.
Proof.
  intros Hone Hsync db'. subst db'. unfold cancelEvent.
  destruct (events db !! eventId) as [event|]; [|done].
  destruct (negb _); [done|]. by apply Synced_save_with_booking.
Qed.

Lemma updateEvent_keeps_sync `{Casting} now reqOrg eventId p db :
  OneBookingPerEvent db -> Synced db ->
  let db' := snd (updateEvent now reqOrg eventId p db) in
  Synced db' /\ OneBookingPerEvent db'.
Proof.
  intros Hone Hsync db'. subst db'. unfold updateEvent.
  destruct (events db !! eventId) as [event|] eqn:Hev; [|done].
  destruct (negb _); [done|].
  cbn [applyPatch ev_status].
  destruct (truthy (patch_resetStatus p) && _) eqn:Hreset;
    destruct (validPatch p); cbn [saveAndReply snd].
  - by apply Synced_save_with_booking.
  - apply (Synced_booking_only eventId _ BkTemporary); try done.
    intros ev Hev'. apply andb_true_iff in Hreset as [_ Hstatus].
    rewrite Hev in Hev'. injection Hev' as <-. by destruct (ev_status event).
  - by eapply Synced_save_only.
  - done.
Qed.

Lemma newEvent_pending `{Casting} reqOrg body approvalChain event :
  newEvent reqOrg body approvalChain = Some event -> ev_status event = EvPending.
Proof. unfold newEvent. intros Hev. by simplify_option_eq. Qed.

Lemma createEvent_keeps_sync `{Casting} fuel now eventId bookingId reqOrg body db :
  OneBookingPerEvent db -> Synced db ->
  eventId ∉ (bk_event <$> venueBookings db) ->
  let db' := snd (createEvent fuel now eventId bookingId reqOrg body db) in
  Synced db' /\ OneBookingPerEvent db'.
Proof.
  intros Hone Hsync Hfresh db'. subst db'. unfold createEvent.
  destruct (missingRequired body); [done|].
  destruct (castObjectId (body_venue body)) as [venue|]; [|done].
  destruct (venues db !! venue); [|done].
  destruct (newDate (body_startDateTime body)) as [s|]; [|done].
  destruct (newDate (body_endDateTime body)) as [e|]; [|done].
  destruct (e <=? s); [done|].
  destruct (conflictingBookings venue s e (venueBookings db)) as [|c cs];
    [|by destruct (conflictingEvents (events db) (c :: cs))].
  destruct (buildApprovalChain fuel (organizations db) now reqOrg); [|done..].
  destruct (newEvent reqOrg body approvalChain) as [event|] eqn:Hnew; [|done].
  apply newEvent_pending in Hnew. cbn [snd]. split.
  - intros b ev Hb Hev. cbn in Hb, Hev.
    apply elem_of_app in Hb as [Hb|Hb%list_elem_of_singleton].
    + assert (bk_event b <> eventId) as Hne.
      { intros He. apply Hfresh. rewrite <- He. by apply list_elem_of_fmap_2. }
      rewrite lookup_insert_ne in Hev by done. by apply Hsync.
    + subst b. cbn in Hev. rewrite lookup_insert_eq in Hev.
      injection Hev as <-. by rewrite Hnew.
  - unfold OneBookingPerEvent. cbn. rewrite fmap_app. apply NoDup_app.
    split_and!; [done | | apply NoDup_singleton].
    intros x Hx [= ->]%list_elem_of_singleton. done.
Qed.

Lemma updateBooking_keeps_sync `{Casting} reqOrg bookingId status db :
  OneBookingPerEvent db -> Synced db ->
  KeepsInStep (UpdateBooking reqOrg bookingId status) db ->
  let db' := snd (updateBooking reqOrg bookingId status db) in
  Synced db' /\ OneBookingPerEvent db'.
Proof.
  intros Hone Hsync Hstep db'. subst db'. cbn [KeepsInStep] in Hstep.
  unfold updateBooking.
  destruct (negb (org_isVenueManager reqOrg)); [done|].
  destruct (bookingStatusOf status) as [s|]; [|done].
  destruct (List.find _ (venueBookings db)) as [old|] eqn:Hfind; [|done].
  destruct (updateFirst_split _ (setBookingStatus s) _ _ Hfind) as (l1 & l2 & Hbs & Hupd & _).
  assert (Hothers : forall b, b ∈ l1 ++ setBookingStatus s old :: l2 ->
            b = setBookingStatus s old \/ (b ∈ venueBookings db /\ bk_event b <> bk_event old)).
  { intros b Hb. unfold OneBookingPerEvent in Hone. rewrite Hbs in Hone |- *.
    rewrite fmap_app, fmap_cons in Hone.
    apply NoDup_app in Hone as (_ & Hl1 & [Hl2 _]%NoDup_cons).
    apply elem_of_app in Hb as [Hb|[->|Hb]%elem_of_cons]; [right | by left | right].
    - split; [apply elem_of_app; by left|]. intros He.
      apply (Hl1 (bk_event b)); [by apply list_elem_of_fmap_2 | rewrite He; left].
    - split; [apply elem_of_app; right; by right|]. intros He.
      apply Hl2. rewrite <- He. by apply list_elem_of_fmap_2. }
  assert (Hold : old ∈ venueBookings db).
  { rewrite Hbs. apply elem_of_app. right. left. }
  assert (Hsaved : forall st event,
            events db !! bk_event old = Some event ->
            bookingStatusFor st = s ->
            let db' := saveEvent (bk_event old) (setEventStatus event st)
                         (withBookings db (updateFirst (fun b => Nat.eqb (bk_id b) bookingId)
                                             (setBookingStatus s) (venueBookings db))) in
            Synced db' /\ OneBookingPerEvent db').
  { intros st event Hev Hst. cbn zeta. split.
    - intros b ev Hb Hev'. cbn in Hb, Hev'. rewrite Hupd in Hb.
      destruct (Hothers b Hb) as [->|[Hb' Hne]].
      + cbn in Hev'. rewrite lookup_insert_eq in Hev'. injection Hev' as <-. by cbn.
      + rewrite lookup_insert_ne in Hev' by done. by apply Hsync.
    - unfold OneBookingPerEvent. cbn. by rewrite bookings_updateFirst_events. }
  destruct s.
  - cbn [snd]. split.
    + intros b ev Hb Hev. cbn in Hb, Hev. rewrite Hupd in Hb.
      destruct (Hothers b Hb) as [->|[Hb' _]]; [|by apply Hsync].
      cbn in Hev |- *. symmetry. eapply UnderReview_temporary; [|done].
      by apply Hstep.
    + unfold OneBookingPerEvent. cbn. by rewrite bookings_updateFirst_events.
  - cbn [setBookingStatus bk_event events withBookings].
    destruct (events db !! bk_event old) as [event|] eqn:Hev; cbn [snd].
    + by apply Hsaved.
    + split.
      * intros b ev Hb Hev'. cbn in Hb, Hev'. rewrite Hupd in Hb.
        destruct (Hothers b Hb) as [->|[Hb' _]]; [|by apply Hsync].
        cbn in Hev'. congruence.
      * unfold OneBookingPerEvent. cbn. by rewrite bookings_updateFirst_events.
  - cbn [setBookingStatus bk_event events withBookings].
    destruct (events db !! bk_event old) as [event|] eqn:Hev; cbn [snd].
    + by apply Hsaved.
    + split.
      * intros b ev Hb Hev'. cbn in Hb, Hev'. rewrite Hupd in Hb.
        destruct (Hothers b Hb) as [->|[Hb' _]]; [|by apply Hsync].
        cbn in Hev'. congruence.
      * unfold OneBookingPerEvent. cbn. by rewrite bookings_updateFirst_events.
Qed.

Lemma Synced_one_event orgs vs eventId event b :
  bk_event b = eventId ->
  bk_status b = bookingStatusFor (ev_status event) ->
  Synced {| organizations := orgs; venues := vs;
            events := {[ eventId := event ]}; venueBookings := [b] |}.
Proof.
  intros He Hs b' ev Hb Hev. cbn in Hb, Hev.
  apply list_elem_of_singleton in Hb as ->.
  rewrite He, lookup_singleton_eq in Hev. by injection Hev as <-.
Qed.

(** The claim of C4 on the campus: the event is approved and its booking
    confirmed; the college then asks for modifications, and the booking is
    still confirmed while the event needs modification. *)
Lemma in_step_counterexample :
  ~ (Synced Campus.approvedByAll ->
     Synced (snd (handle (H := jsonCasting)
                    (ReviewEvent 50 (fun _ => true) Campus.college 100
                       (JStr "needs_modification") (JStr "Move it to May"))
                    Campus.approvedByAll))).
Proof.
  intros Hclaim.
  assert (Hbefore : Synced Campus.approvedByAll) by by apply Synced_one_event.
  specialize (Hclaim Hbefore (Campus.booking 200 100 1000 2000 BkConfirmed)).
  cbn [handle] in Hclaim.
  match type of Hclaim with
  | forall ev, _ -> ?l !! ?k = _ -> _ =>
      destruct (l !! k) as [ev|] eqn:Hev; [|discriminate Hev]
  end.
  specialize (Hclaim ev ltac:(left) eq_refl).
  injection Hev as <-. discriminate Hclaim.
Qed.

(** C4, amended. With one booking per event, every request keeps every
    booking's status the one that reflects its event's status (temporary for
    pending and needs_modification, confirmed for approved, cancelled for
    rejected and cancelled), on these conditions:
    - a needs_modification review, an out-of-order approval and a venue
      manager's update of a booking to temporary write one of the two statuses
      without the other, and keep them in step when the event is pending or
      needs_modification at the call;
    - a rejection or an approval whose comments cannot be cast may have
      written the booking when the save of the event is refused, and keeps
      them in step when the event is already rejected or cancelled, or already
      approved;
    - [createEvent] is given an [_id] no booking refers to.
    Rejections and level-1 approvals whose comments can be cast, other
    in-order approvals, cancellations, edits (also those whose save is
    refused) and a venue manager's update to confirmed or cancelled keep them
    in step always. *)
Theorem handle_keeps_in_step `{Casting} (r : Request) (db : Db) :
  OneBookingPerEvent db -> Synced db -> KeepsInStep r db ->
  Synced (snd (handle r db)) /\ OneBookingPerEvent (snd (handle r db)).
Proof.
  intros Hone Hsync Hstep. destruct r; cbn [handle].
  - by apply createEvent_keeps_sync.
  - by apply reviewEvent_keeps_sync.
  - by apply cancelEvent_keeps_sync.
  - by apply updateEvent_keeps_sync.
  - by apply updateBooking_keeps_sync.
Qed.

(** The college asks for modifications of the event it has not reviewed yet. *)
Lemma handle_keeps_in_step_witness :
  Synced (snd (handle (H := jsonCasting)
                 (ReviewEvent 50 (fun _ => true) Campus.college 100
                    (JStr "needs_modification") (JStr "Move it to May"))
                 Campus.awaitingCollege)).
Proof.
  apply (handle_keeps_in_step (H := jsonCasting)
           (ReviewEvent 50 (fun _ => true) Campus.college 100
              (JStr "needs_modification") (JStr "Move it to May"))
           Campus.awaitingCollege).
  - apply NoDup_singleton.
  - by apply Synced_one_event.
  - intros ev Hev. left. cbn in Hev. rewrite lookup_singleton_eq in Hev.
    by injection Hev as <-.
Defined.

(** From a database in step, a sequence of requests that meets the conditions
    along the way ends in a database in step. *)
Lemma run_keeps_in_step `{Casting} (rs : list Request) (db : Db) :
  OneBookingPerEvent db -> Synced db -> KeepsInStepAlong rs db ->
  Synced (run rs db) /\ OneBookingPerEvent (run rs db).
Proof.
  revert db. induction rs as [|r rs IH]; intros db Hone Hsync Hsteps; cbn [run].
  - done.
  - destruct Hsteps as [Hstep Hsteps].
    assert (Synced (snd (handle r db)) /\ OneBookingPerEvent (snd (handle r db)))
      as [Hsync' Hone'].
    { destruct r; cbn [handle].
      - by apply createEvent_keeps_sync.
      - by apply reviewEvent_keeps_sync.
      - by apply cancelEvent_keeps_sync.
      - by apply updateEvent_keeps_sync.
      - by apply updateBooking_keeps_sync. }
    by apply IH.
Qed.

(** * Further properties of the routes *)

(** ** Refused requests *)

Lemma find_updateFirst {A} (p : A -> bool) (f : A -> A) (l : list A) :
  (forall x, p (f x) = p x) ->
  List.find p (updateFirst p f l) = f <$> List.find p l.
Proof.
  intros Hp. induction l as [|x l IH]; cbn [updateFirst List.find]; [done|].
  destruct (p x) eqn:Hx; cbn [List.find].
  - by rewrite Hp, Hx.
  - by rewrite Hx.
Qed.

(** X1. A request that is answered with an error, or not answered at all,
    has written no event, no organization and no venue.  It has written
    nothing at all unless the error is the server error of a review, of an
    edit or of a venue manager's booking update: those three write a booking
    before the step that fails. *)
Theorem refused_request_writes_at_most_a_booking `{Casting} (r : Request) (db : Db) :
  (fst (handle r db) = NoReply -> snd (handle r db) = db)
  /\ (forall e, fst (handle r db) = RespError e ->
        events (snd (handle r db)) = events db
        /\ organizations (snd (handle r db)) = organizations db
        /\ venues (snd (handle r db)) = venues db
        /\ (match r with
            | CreateEvent _ _ _ _ _ _ | CancelEvent _ _ => True
            | _ => e <> ServerError
            end -> snd (handle r db) = db)).
Proof.
  destruct r; cbn [handle].
  - unfold createEvent. split; [|intros e]; repeat case_match; cbn [fst snd]; done.
  - unfold reviewEvent, saveAndReply.
    split; [|intros e]; repeat case_match; cbn [fst snd]; try done.
    all: intros [= <-]; split_and!; try done; intros Hne; by destruct Hne.
  - unfold cancelEvent. split; [|intros e]; repeat case_match; cbn [fst snd]; done.
  - unfold updateEvent, saveAndReply.
    split; [|intros e]; repeat case_match; cbn [fst snd]; try done.
    all: intros [= <-]; split_and!; try done; intros Hne; by destruct Hne.
  - unfold updateBooking. split; [|intros e]; repeat case_match; cbn [fst snd]; try done.
    all: intros [= <-]; split_and!; try done; intros Hne; by destruct Hne.
Qed.

(** The college rejects the fest with comments sent as an object: the reply
    is the server error, the events are as they were, and the booking of the
    fest is cancelled. *)
Lemma refused_request_writes_at_most_a_booking_witness :
  let r := handle (H := jsonCasting)
             (ReviewEvent 50 (fun _ => true) Campus.college 100 (JStr "rejected")
                Campus.notText)
             Campus.awaitingCollege in
  fst r = RespError ServerError
  /\ events (snd r) = events Campus.awaitingCollege
  /\ venueBookings (snd r) = [Campus.booking 200 100 1000 2000 BkCancelled].
Proof.
  intros r. split_and!; [reflexivity | | reflexivity].
  apply (proj2 (refused_request_writes_at_most_a_booking (H := jsonCasting)
                  (ReviewEvent 50 (fun _ => true) Campus.college 100 (JStr "rejected")
                     Campus.notText)
                  Campus.awaitingCollege) ServerError).
  reflexivity.
Defined.

(** X2. The venue manager's update of a booking to cancelled or confirmed,
    for a booking whose event is not stored, is answered with the server
    error after the booking has been written: the stored booking carries the
    new status. *)
Theorem updateBooking_orphan_is_written (reqOrg : Organization) (bookingId : Id)
    (status : JsVal) (db : Db) (s : BookingStatus) (old : VenueBooking) :
  org_isVenueManager reqOrg = true ->
  bookingStatusOf status = Some s ->
  s <> BkTemporary ->
  List.find (fun b => Nat.eqb (bk_id b) bookingId) (venueBookings db) = Some old ->
  events db !! bk_event old = None ->
  let r := updateBooking reqOrg bookingId status db in
  fst r = RespError ServerError
  /\ List.find (fun b => Nat.eqb (bk_id b) bookingId) (venueBookings (snd r))
     = Some (setBookingStatus s old)
  /\ events (snd r) = events db.
Proof.
  intros Hmgr Hs Hne Hfind Hev r. subst r. unfold updateBooking.
  rewrite Hmgr, Hs, Hfind. cbn [negb].
  destruct s; [done| |];
    cbn [setBookingStatus bk_event events withBookings]; rewrite Hev; cbn [fst snd];
    (split_and!; [done | | done]);
    cbn [venueBookings withBookings]; rewrite find_updateFirst by done; by rewrite Hfind.
Qed.

Lemma updateBooking_orphan_is_written_witness :
  let db := Campus.db ∅ [Campus.booking 200 100 1000 2000 BkTemporary] in
  let r := updateBooking Campus.root 200 (JStr "confirmed") db in
  fst r = RespError ServerError
  /\ bk_status <$> List.find (fun b => Nat.eqb (bk_id b) 200) (venueBookings (snd r))
     = Some BkConfirmed.
Proof.
  intros db r.
  destruct (updateBooking_orphan_is_written Campus.root 200 (JStr "confirmed") db
              BkConfirmed (Campus.booking 200 100 1000 2000 BkTemporary))
    as (Hr & Hb & _); try reflexivity; try discriminate.
  split; [exact Hr|]. subst r. by rewrite Hb.
Defined.

(** ** Who may review, and what a review records *)

Lemma findIndex_alter {A} (p : A -> bool) (f : A -> A) (i : nat) (l : list A) :
  (forall x, p (f x) = p x) ->
  findIndex p (alter f i l) = findIndex p l.
Proof.
  intros Hp. revert i. induction l as [|x l IH]; intros [|i]; cbn; try done.
  - by rewrite Hp.
  - by rewrite IH.
Qed.

Lemma findIndex_app_None {A} (p : A -> bool) (l : list A) (x : A) :
  findIndex p l = None -> p x = true -> findIndex p (l ++ [x]) = Some (length l).
Proof.
  intros Hl Hx. induction l as [|y l IH]; cbn in *.
  - by rewrite Hx.
  - destruct (p y); [done|].
    destruct (findIndex p l); [done|]. by rewrite IH.
Qed.

Lemma recorded_in_slot reqOrg d comments now chain i :
  findIndex (holdsSlot reqOrg) chain = Some i ->
  let chain' := alter (recordDecision d comments now) i chain in
  findIndex (holdsSlot reqOrg) chain' = Some i
  /\ chain' !! i = Some {| ap_organization := org_id reqOrg; ap_status := approvalOf d;
                          ap_comments := comments; ap_timestamp := now |}
  /\ (forall j a, j <> i -> chain !! j = Some a -> chain' !! j = Some a)
  /\ length chain' = length chain.
Proof.
  intros Hi chain'. subst chain'. split_and!.
  - by rewrite findIndex_alter.
  - destruct (findIndex_Some _ _ _ Hi) as (a & Ha & Hp).
    rewrite list_lookup_alter_eq, Ha. cbn. unfold recordDecision.
    apply Nat.eqb_eq in Hp. by rewrite Hp.
  - intros j a Hne Hj. by rewrite list_lookup_alter_ne.
  - apply length_alter.
Qed.

Lemma recorded_in_new_slot reqOrg d comments now chain :
  findIndex (holdsSlot reqOrg) chain = None ->
  let pushed := chain ++ [pendingApproval now (org_id reqOrg)] in
  let chain' := alter (recordDecision d comments now) (length pushed - 1)%nat pushed in
  findIndex (holdsSlot reqOrg) chain' = Some (length chain)
  /\ chain' !! length chain
     = Some {| ap_organization := org_id reqOrg; ap_status := approvalOf d;
               ap_comments := comments; ap_timestamp := now |}
  /\ (forall j a, j <> length chain -> chain !! j = Some a -> chain' !! j = Some a)
  /\ length chain' = S (length chain).
Proof.
  intros Hnone pushed chain'. subst chain' pushed.
  rewrite length_app. cbn [length].
  replace (length chain + 1 - 1)%nat with (length chain) by lia.
  split_and!.
  - rewrite findIndex_alter by done. apply findIndex_app_None; [done|].
    unfold holdsSlot. cbn. apply Nat.eqb_refl.
  - rewrite list_lookup_alter_eq, lookup_app_r by lia.
    by replace (length chain - length chain)%nat with 0%nat by lia.
  - intros j a Hne Hj. rewrite list_lookup_alter_ne by done.
    by apply lookup_app_l_Some.
  - rewrite length_alter, length_app. cbn. lia.
Qed.

(** X3. A review is answered with the event exactly when the decision is one
    of the three, the event is stored, the reviewer holds a slot of the chain
    or is at level 1 or 0, the comments are absent or can be cast, and, for
    an approval by a slot holder, the reviewer is still in the collection. *)
Theorem reviewEvent_accepted_iff `{Casting} (now : Z) (answered : nat -> bool)
    (reqOrg : Organization) (eventId : Id) (status comments : JsVal) (db : Db) :
  (exists replied,
     fst (reviewEvent now answered reqOrg eventId status comments db) = RespEvent replied)
  <-> exists d event,
        decisionOf status = Some d
        /\ events db !! eventId = Some event
        /\ (is_Some (findIndex (holdsSlot reqOrg) (ev_approvalChain event))
            \/ (org_level reqOrg <= 1)%nat)
        /\ is_Some (castComments comments)
        /\ (d = DApproved ->
            is_Some (findIndex (holdsSlot reqOrg) (ev_approvalChain event)) ->
            is_Some (findOrg (organizations db) (org_id reqOrg))).
Proof.
  unfold reviewEvent. fold (holdsSlot reqOrg).
  destruct (decisionOf status) as [d|]; [|split; [by intros [? ?] | by intros (? & ? & ? & _)]].
  destruct (events db !! eventId) as [event|];
    [|split; [by intros [? ?] | by intros (? & ? & _ & ? & _)]].
  destruct (castComments comments) as [c|] eqn:Hcast; cbn [accepted saveAndReply default].
  2: { split.
       - intros [replied Hr]. revert Hr. repeat case_match; done.
       - intros (? & ? & _ & _ & _ & [? ?] & _). done. }
  destruct (findIndex (holdsSlot reqOrg) (ev_approvalChain event)) as [i|] eqn:Hi.
  - destruct d.
    + destruct (findOrg (organizations db) (org_id reqOrg)) as [reviewingOrg|] eqn:Horg.
      * split; [intros _; exists DApproved, event; split_and!; eauto|].
        intros _. repeat case_match; cbn [fst]; eauto.
      * split; [by intros [? ?]|].
        intros (d & ev & Hd & Hev & _ & _ & Hgone). simplify_eq.
        destruct Hgone as [? ?]; [done | by eexists | done].
    + split; [intros _; exists DRejected, event; split_and!; eauto; done | cbn [fst]; eauto].
    + split; [intros _; exists DNeedsModification, event; split_and!; eauto; done
             | cbn [fst]; eauto].
  - destruct (Nat.leb_spec (org_level reqOrg) 1) as [Hle|Hgt].
    + split.
      * intros _. exists d, event. split_and!; eauto. intros _ [? Hs]. by rewrite Hi in Hs.
      * intros _. repeat case_match; cbn [fst]; eauto.
    + split; [by intros [? ?]|].
      intros (d' & ev & _ & Hev & [[? ?]|Hle] & _); simplify_eq. lia.
Qed.

(** The root, which holds no slot, may review by its level; with comments
    sent as an object it is not answered with the event. *)
Lemma reviewEvent_accepted_iff_witness :
  (exists replied,
     fst (reviewEvent (H := jsonCasting) 50 (fun _ => true) Campus.root 100
            (JStr "rejected") (JStr "No") Campus.awaitingCollege) = RespEvent replied)
  /\ ~ (exists replied,
          fst (reviewEvent (H := jsonCasting) 50 (fun _ => true) Campus.root 100
                 (JStr "rejected") Campus.notText Campus.awaitingCollege)
          = RespEvent replied).
Proof.
  split.
  - apply (proj2 (reviewEvent_accepted_iff (H := jsonCasting) 50 (fun _ => true)
                    Campus.root 100 (JStr "rejected") (JStr "No") Campus.awaitingCollege)).
    exists DRejected, (Campus.event EvPending ApApproved ApPending 1000 2000).
    split_and!; [reflexivity | reflexivity | right; cbn; lia | by eexists | discriminate].
  - intros Hreplied.
    apply (proj1 (reviewEvent_accepted_iff (H := jsonCasting) 50 (fun _ => true)
                    Campus.root 100 (JStr "rejected") Campus.notText
                    Campus.awaitingCollege)) in Hreplied
      as (_ & _ & _ & _ & _ & [c Hcast] & _).
    discriminate Hcast.
Defined.

(** X4. An accepted review stores the decision, the comments as cast and the
    time in the slot of the reviewer: the first slot it holds or, when it
    holds none, a new last one.  No other slot of the stored chain changes. *)
Theorem reviewEvent_records_decision `{Casting} (now : Z) (answered : nat -> bool)
    (reqOrg : Organization) (eventId : Id) (status comments : JsVal)
    (db : Db) (replied event : Event) (d : Decision) :
  fst (reviewEvent now answered reqOrg eventId status comments db) = RespEvent replied ->
  decisionOf status = Some d ->
  events db !! eventId = Some event ->
  exists c stored i,
    castComments comments = Some c
    /\ events (snd (reviewEvent now answered reqOrg eventId status comments db)) !! eventId
       = Some stored
    /\ findIndex (holdsSlot reqOrg) (ev_approvalChain stored) = Some i
    /\ i = default (length (ev_approvalChain event))
                   (findIndex (holdsSlot reqOrg) (ev_approvalChain event))
    /\ ev_approvalChain stored !! i
       = Some {| ap_organization := org_id reqOrg; ap_status := approvalOf d;
                 ap_comments := c; ap_timestamp := now |}
    /\ (forall j a, j <> i -> ev_approvalChain event !! j = Some a ->
                    ev_approvalChain stored !! j = Some a)
    /\ (length (ev_approvalChain stored) <= S (length (ev_approvalChain event)))%nat.
Proof.
  intros Hreply Hd Hev. revert Hreply.
  unfold reviewEvent. fold (holdsSlot reqOrg). rewrite Hd, Hev.
  destruct (castComments comments) as [c|] eqn:Hcast; cbn [accepted saveAndReply default].
  2: { repeat case_match; done. }
  intros Hreply. exists c. revert Hreply.
  destruct (findIndex (holdsSlot reqOrg) (ev_approvalChain event)) as [i|] eqn:Hi.
  - destruct (recorded_in_slot reqOrg d c now _ _ Hi) as (H1 & H2 & H3 & H4).
    assert (forall stored db',
              ev_approvalChain stored
              = alter (recordDecision d c now) i (ev_approvalChain event) ->
              exists stored0 i0,
                Some c = Some c
                /\ events (saveEvent eventId stored db') !! eventId = Some stored0
                /\ findIndex (holdsSlot reqOrg) (ev_approvalChain stored0) = Some i0
                /\ i0 = default (length (ev_approvalChain event)) (Some i)
                /\ ev_approvalChain stored0 !! i0
                   = Some {| ap_organization := org_id reqOrg; ap_status := approvalOf d;
                             ap_comments := c; ap_timestamp := now |}
                /\ (forall j a, j <> i0 -> ev_approvalChain event !! j = Some a ->
                                ev_approvalChain stored0 !! j = Some a)
                /\ (length (ev_approvalChain stored0) <= S (length (ev_approvalChain event)))%nat)
      as Hleaf.
    { intros stored db' Hchain. exists stored, i.
      rewrite events_saveEvent, Hchain. split_and!; try done. lia. }
    destruct d.
    + destruct (findOrg (organizations db) (org_id reqOrg)); [|done].
      repeat case_match; intros _; cbn [snd]; by apply Hleaf.
    + intros _. cbn [snd]. by apply Hleaf.
    + intros _. cbn [snd]. by apply Hleaf.
  - destruct (recorded_in_new_slot reqOrg d c now _ Hi) as (H1 & H2 & H3 & H4).
    destruct (Nat.leb (org_level reqOrg) 1); [|done].
    assert (forall stored db',
              ev_approvalChain stored
              = alter (recordDecision d c now)
                      (length (ev_approvalChain event ++ [pendingApproval now (org_id reqOrg)]) - 1)%nat
                      (ev_approvalChain event ++ [pendingApproval now (org_id reqOrg)]) ->
              exists stored0 i0,
                Some c = Some c
                /\ events (saveEvent eventId stored db') !! eventId = Some stored0
                /\ findIndex (holdsSlot reqOrg) (ev_approvalChain stored0) = Some i0
                /\ i0 = default (length (ev_approvalChain event)) None
                /\ ev_approvalChain stored0 !! i0
                   = Some {| ap_organization := org_id reqOrg; ap_status := approvalOf d;
                             ap_comments := c; ap_timestamp := now |}
                /\ (forall j a, j <> i0 -> ev_approvalChain event !! j = Some a ->
                                ev_approvalChain stored0 !! j = Some a)
                /\ (length (ev_approvalChain stored0) <= S (length (ev_approvalChain event)))%nat)
      as Hleaf.
    { intros stored db' Hchain. exists stored, (length (ev_approvalChain event)).
      rewrite events_saveEvent, Hchain. split_and!; try done. lia. }
    destruct d; repeat case_match; intros _; cbn [snd]; by apply Hleaf.
Qed.

(** The college records its request for modification in its own slot. *)
Lemma reviewEvent_records_decision_witness :
  exists stored,
    events (snd (reviewEvent (H := jsonCasting) 50 (fun _ => true) Campus.college 100
                   (JStr "needs_modification") (JStr "Move it to May")
                   Campus.awaitingCollege)) !! 100%nat = Some stored
    /\ ev_approvalChain stored !! 1%nat
       = Some {| ap_organization := 1; ap_status := ApNeedsModification;
                 ap_comments := Some "Move it to May"; ap_timestamp := 50 |}.
Proof.
  destruct (reviewEvent_records_decision (H := jsonCasting) 50 (fun _ => true)
              Campus.college 100
              (JStr "needs_modification") (JStr "Move it to May")
              Campus.awaitingCollege _
              (Campus.event EvPending ApApproved ApPending 1000 2000)
              DNeedsModification eq_refl eq_refl eq_refl)
    as (c & stored & i & Hcast & Hstored & _ & Hi & Hslot & _).
  exists stored. split; [exact Hstored|]. subst i. injection Hcast as <-. exact Hslot.
Defined.

(** ** Repeated rejection and cancellation *)

Lemma updateFirst_idemp {A} (p : A -> bool) (f : A -> A) (l : list A) :
  (forall x, p (f x) = p x) -> (forall x, f (f x) = f x) ->
  updateFirst p f (updateFirst p f l) = updateFirst p f l.
Proof.
  intros Hp Hf. induction l as [|x l IH]; cbn [updateFirst]; [done|].
  destruct (p x) eqn:Hx; cbn [updateFirst].
  - by rewrite Hp, Hx, Hf.
  - by rewrite Hx, IH.
Qed.

Lemma alter_recordDecision_idemp d comments now i (chain : list Approval) :
  alter (recordDecision d comments now) i (alter (recordDecision d comments now) i chain)
  = alter (recordDecision d comments now) i chain.
Proof.
  rewrite list_alter_alter_eq. by apply list_alter_ext.
Qed.

Lemma updateBookingStatus_idemp eventId s db :
  updateBookingStatus eventId s (updateBookingStatus eventId s db)
  = updateBookingStatus eventId s db.
Proof.
  unfold updateBookingStatus, withBookings. cbn.
  by rewrite updateFirst_idemp.
Qed.

(** X5. Rejecting twice is rejecting once: a second [rejected] review by the
    same reviewer, with the same comments and at the same time stamp, is
    answered as the first and leaves the database of the first, whether the
    reviewer held a slot or gained one with the first review, and also when
    both are refused, with or without a booking written. *)
Theorem rejection_is_idempotent `{Casting} (now : Z) (answered answered' : nat -> bool)
    (reqOrg : Organization) (eventId : Id) (comments : JsVal) (db : Db) :
  let once := reviewEvent now answered reqOrg eventId (JStr "rejected") comments db in
  reviewEvent now answered' reqOrg eventId (JStr "rejected") comments (snd once) = once.
Proof.
  intros once.
  destruct (castComments comments) as [c|] eqn:Hcast.
  - assert (Hsecond : forall chain' event,
              events db !! eventId = Some event ->
              (exists i, findIndex (holdsSlot reqOrg) chain' = Some i
                         /\ alter (recordDecision DRejected c now) i chain' = chain') ->
              let event1 := setEventStatus (setApprovalChain event chain') EvRejected in
              let db1 := saveEvent eventId event1 (updateBookingStatus eventId BkCancelled db) in
              reviewEvent now answered' reqOrg eventId (JStr "rejected") comments db1
              = (RespEvent event1, db1)).
    { intros chain' event Hev (i & Hi & Halter) event1 db1.
      unfold reviewEvent. change (decisionOf (JStr "rejected")) with (Some DRejected).
      fold (holdsSlot reqOrg). subst db1. rewrite events_saveEvent, Hcast.
      subst event1. cbn [ev_approvalChain setEventStatus setApprovalChain].
      rewrite Hi. cbn [accepted saveAndReply default].
      change (fun a => recordDecision DRejected (id c) now a)
        with (recordDecision DRejected c now).
      rewrite Halter. f_equal.
      unfold saveEvent, updateBookingStatus, withEvents, withBookings.
      cbn [events venueBookings organizations venues].
      by rewrite insert_insert_eq, updateFirst_idemp. }
    subst once. unfold reviewEvent at 2 3.
    change (decisionOf (JStr "rejected")) with (Some DRejected).
    fold (holdsSlot reqOrg). rewrite Hcast. cbn [accepted saveAndReply default].
    change (fun a => recordDecision DRejected (id c) now a)
      with (recordDecision DRejected c now).
    destruct (events db !! eventId) as [event|] eqn:Hev.
    2: { cbn [snd]. unfold reviewEvent.
         change (decisionOf (JStr "rejected")) with (Some DRejected). by rewrite Hev. }
    destruct (findIndex (holdsSlot reqOrg) (ev_approvalChain event)) as [i|] eqn:Hi.
    + cbn [snd]. apply (Hsecond _ event eq_refl). exists i. split.
      * by rewrite findIndex_alter.
      * apply alter_recordDecision_idemp.
    + destruct (Nat.leb (org_level reqOrg) 1) eqn:Hle.
      2: { cbn [snd]. unfold reviewEvent.
           change (decisionOf (JStr "rejected")) with (Some DRejected).
           fold (holdsSlot reqOrg). by rewrite Hev, Hi, Hle. }
      cbn [snd]. apply (Hsecond _ event eq_refl).
      destruct (recorded_in_new_slot reqOrg DRejected c now _ Hi) as (Hslot & _).
      exists (length (ev_approvalChain event)). split; [exact Hslot|].
      rewrite length_app. cbn [length].
      replace (length (ev_approvalChain event) + 1 - 1)%nat
        with (length (ev_approvalChain event)) by lia.
      apply alter_recordDecision_idemp.
  - assert (Hsecond : forall event,
              events db !! eventId = Some event ->
              (is_Some (findIndex (holdsSlot reqOrg) (ev_approvalChain event))
               \/ Nat.leb (org_level reqOrg) 1 = true) ->
              let db1 := updateBookingStatus eventId BkCancelled db in
              reviewEvent now answered' reqOrg eventId (JStr "rejected") comments db1
              = (RespError ServerError, db1)).
    { intros event Hev Hauth db1.
      unfold reviewEvent. change (decisionOf (JStr "rejected")) with (Some DRejected).
      fold (holdsSlot reqOrg). subst db1.
      cbn [updateBookingStatus withBookings events]. rewrite Hev, Hcast.
      cbn [accepted saveAndReply].
      destruct Hauth as [[i ->]| Hle].
      - f_equal. apply updateBookingStatus_idemp.
      - rewrite Hle. destruct (findIndex _ _); f_equal; apply updateBookingStatus_idemp. }
    subst once. unfold reviewEvent at 2 3.
    change (decisionOf (JStr "rejected")) with (Some DRejected).
    fold (holdsSlot reqOrg). rewrite Hcast. cbn [accepted saveAndReply].
    destruct (events db !! eventId) as [event|] eqn:Hev.
    2: { cbn [snd]. unfold reviewEvent.
         change (decisionOf (JStr "rejected")) with (Some DRejected). by rewrite Hev. }
    destruct (findIndex (holdsSlot reqOrg) (ev_approvalChain event)) as [i|] eqn:Hi.
    + cbn [snd]. apply (Hsecond event eq_refl). left. rewrite Hi. by eexists.
    + destruct (Nat.leb (org_level reqOrg) 1) eqn:Hle.
      2: { cbn [snd]. unfold reviewEvent.
           change (decisionOf (JStr "rejected")) with (Some DRejected).
           fold (holdsSlot reqOrg). by rewrite Hev, Hi, Hle. }
      cbn [snd]. apply (Hsecond event eq_refl). by right.
Qed.

(** X6. Cancelling twice is cancelling once, for the creator and for anybody
    else. *)
Theorem cancellation_is_idempotent (reqOrg : Organization) (eventId : Id) (db : Db) :
  cancelEvent reqOrg eventId (snd (cancelEvent reqOrg eventId db))
  = cancelEvent reqOrg eventId db.
Proof.
  unfold cancelEvent at 2 3.
  destruct (events db !! eventId) as [event|] eqn:Hev.
  2: { cbn [snd]. unfold cancelEvent. by rewrite Hev. }
  destruct (negb (Nat.eqb (ev_createdBy event) (org_id reqOrg))) eqn:Hc.
  { cbn [snd]. unfold cancelEvent. by rewrite Hev, Hc. }
  cbn [snd]. unfold cancelEvent. rewrite events_saveEvent. cbn [ev_createdBy setEventStatus].
  rewrite Hc. f_equal.
  unfold saveEvent, updateBookingStatus, withEvents, withBookings.
  cbn [events venueBookings organizations venues].
  by rewrite insert_insert_eq, updateFirst_idemp.
Qed.

(** ** What the event routes never do *)

Lemma fmap_updateFirst {A B} (g : A -> B) (p : A -> bool) (f : A -> A) (l : list A) :
  (forall x, g (f x) = g x) -> g <$> updateFirst p f l = g <$> l.
Proof.
  intros Hg. induction l as [|x l IH]; cbn [updateFirst]; [done|].
  destruct (p x); rewrite !fmap_cons; [by rewrite Hg | by rewrite IH].
Qed.

Lemma fmap_alter_recordDecision d comments now i (chain : list Approval) :
  ap_organization <$> alter (recordDecision d comments now) i chain
  = ap_organization <$> chain.
Proof.
  revert i. induction chain as [|a chain IH]; intros [|i]; cbn; [done..|].
  f_equal. apply IH.
Qed.

Lemma Extends_refl event : Extends event event.
Proof. by split_and!. Qed.

Lemma prefix_recorded d comments now i (chain : list Approval) :
  (ap_organization <$> chain)
  `prefix_of` (ap_organization <$> alter (recordDecision d comments now) i chain).
Proof. by rewrite fmap_alter_recordDecision. Qed.

Lemma prefix_pushed d comments now i (chain : list Approval) (a : Approval) :
  (ap_organization <$> chain)
  `prefix_of` (ap_organization <$> alter (recordDecision d comments now) i (chain ++ [a])).
Proof. rewrite fmap_alter_recordDecision, fmap_app. by apply prefix_app_r. Qed.

Lemma frame_saved target old new db db' :
  events db !! target = Some old -> events db' = events db -> Extends old new ->
  forall eventId event, events db !! eventId = Some event ->
    exists event', events (saveEvent target new db') !! eventId = Some event'
                   /\ Extends event event'.
Proof.
  intros Hold Hsame Hext eventId event Hev. unfold saveEvent, withEvents. cbn [events].
  rewrite Hsame. destruct (decide (target = eventId)) as [->|Hne].
  - rewrite lookup_insert_eq. simplify_eq. by exists new.
  - rewrite lookup_insert_ne by done. exists event. split; [done | apply Extends_refl].
Qed.

Lemma frame_same db :
  forall eventId event, events db !! eventId = Some event ->
    exists event', events db !! eventId = Some event' /\ Extends event event'.
Proof. intros eventId event Hev. exists event. split; [done | apply Extends_refl]. Qed.

Lemma reviewEvent_frame `{Casting} now answered reqOrg target status comments db :
  forall eventId event, events db !! eventId = Some event ->
    exists event',
      events (snd (reviewEvent now answered reqOrg target status comments db)) !! eventId
      = Some event' /\ Extends event event'.
Proof.
  unfold reviewEvent, saveAndReply.
  destruct (decisionOf status) as [d|]; [|apply frame_same].
  destruct (events db !! target) as [old|] eqn:Hold; [|apply frame_same].
  destruct (castComments comments) as [c|]; cbn [accepted default].
  2: { repeat case_match; cbn [snd updateBookingStatus withBookings events];
         apply frame_same. }
  assert (Hleaf : forall new db', events db' = events db -> Extends old new ->
            forall eventId event, events db !! eventId = Some event ->
              exists event', events (snd (RespEvent new, saveEvent target new db')) !! eventId
                             = Some event' /\ Extends event event').
  { intros new db' Hsame Hext. cbn [snd]. by eapply frame_saved. }
  assert (Hleaf' : forall new replied db', events db' = events db -> Extends old new ->
            forall eventId event, events db !! eventId = Some event ->
              exists event', events (snd (RespEvent replied, saveEvent target new db')) !! eventId
                             = Some event' /\ Extends event event').
  { intros new replied db' Hsame Hext. cbn [snd]. by eapply frame_saved. }
  repeat case_match; try apply frame_same;
    first [ apply Hleaf | apply Hleaf' ]; try done;
    unfold Extends;
    cbn [ev_createdBy ev_modificationHistory ev_approvalChain
         setEventStatus setApprovalChain pushModification];
    (split_and!;
     [ done
     | first [ done | by apply prefix_app_r ]
     | first [ apply prefix_recorded | apply prefix_pushed ] ]).
Qed.

(** X7. No request of the event routes writes the organizations or the
    venues, deletes a booking or moves it to another event, or deletes an
    event.  A stored event keeps its creator for ever; its modification
    history and the organizations of its chain slots only grow at the end.
    (A [createEvent] under the [_id] of a stored event would replace it; the
    [_id]s it is given are new.) *)
Theorem handle_never_forgets `{Casting} (r : Request) (db : Db) :
  organizations (snd (handle r db)) = organizations db
  /\ venues (snd (handle r db)) = venues db
  /\ ((fun b => (bk_id b, bk_event b)) <$> venueBookings db)
     `prefix_of` ((fun b => (bk_id b, bk_event b)) <$> venueBookings (snd (handle r db)))
  /\ forall eventId event,
       events db !! eventId = Some event ->
       match r with
       | CreateEvent _ _ newId _ _ _ => newId <> eventId
       | _ => True
       end ->
       exists event',
         events (snd (handle r db)) !! eventId = Some event' /\ Extends event event'.
Proof.
  assert (Hkeys : forall p f,
            (forall b, bk_id (f b) = bk_id b /\ bk_event (f b) = bk_event b) ->
            ((fun b => (bk_id b, bk_event b)) <$> venueBookings db)
            `prefix_of` ((fun b => (bk_id b, bk_event b))
                           <$> updateFirst p f (venueBookings db))).
  { intros p f Hf. rewrite fmap_updateFirst; [done|].
    intros b. by destruct (Hf b) as [-> ->]. }
  destruct r; cbn [handle]; split_and!.
  - unfold createEvent. repeat case_match; done.
  - unfold createEvent. repeat case_match; done.
  - unfold createEvent. repeat case_match; try done.
    cbn [snd venueBookings]. rewrite fmap_app. by apply prefix_app_r.
  - intros eid event Hev Hne. unfold createEvent.
    repeat case_match; try by apply frame_same.
    cbn [snd events]. rewrite lookup_insert_ne by done. by apply frame_same.
  - unfold reviewEvent, saveAndReply. repeat case_match; done.
  - unfold reviewEvent, saveAndReply. repeat case_match; done.
  - unfold reviewEvent, saveAndReply. repeat case_match; try done; cbn [snd]; by apply Hkeys.
  - intros eid event Hev _. by apply reviewEvent_frame.
  - unfold cancelEvent. repeat case_match; done.
  - unfold cancelEvent. repeat case_match; done.
  - unfold cancelEvent. repeat case_match; try done; cbn [snd]; by apply Hkeys.
  - intros eid event Hev _. unfold cancelEvent.
    destruct (events db !! eventId) as [old|] eqn:Hold; [|by apply frame_same].
    case_match; [by apply frame_same|]. cbn [snd].
    eapply frame_saved; [done | done | by split_and! | done].
  - unfold updateEvent, saveAndReply. repeat case_match; done.
  - unfold updateEvent, saveAndReply. repeat case_match; done.
  - unfold updateEvent, saveAndReply. repeat case_match; try done; cbn [snd]; by apply Hkeys.
  - intros eid event Hev _. unfold updateEvent, saveAndReply.
    destruct (events db !! eventId) as [old|] eqn:Hold; [|by apply frame_same].
    repeat case_match; try (by apply frame_same); cbn [snd];
      (eapply frame_saved; [done | done | | done]);
      unfold Extends;
      cbn [ev_createdBy ev_modificationHistory ev_approvalChain
           setEventStatus pushModification applyPatch];
      (split_and!; [done | first [done | by apply prefix_app_r] | done]).
  - unfold updateBooking. repeat case_match; done.
  - unfold updateBooking. repeat case_match; done.
  - unfold updateBooking. repeat case_match; try done; cbn [snd]; by apply Hkeys.
  - intros eid event Hev _. unfold updateBooking.
    repeat case_match; try (by apply frame_same); cbn [snd];
      (eapply frame_saved; [done | done | by split_and! | done]).
Qed.

Lemma handle_never_forgets_witness :
  exists event',
    events (snd (handle (H := jsonCasting)
                   (CancelEvent Campus.club 100) Campus.approvedByAll)) !! 100%nat
    = Some event'
    /\ ev_createdBy event' = 3%nat.
Proof.
  destruct (handle_never_forgets (H := jsonCasting) (CancelEvent Campus.club 100)
              Campus.approvedByAll) as (_ & _ & _ & Hevents).
  destruct (Hevents 100%nat (Campus.event EvApproved ApApproved ApApproved 1000 2000)
              eq_refl I) as (event' & Hev & Hcreator & _).
  exists event'. split; [exact Hev | exact Hcreator].
Defined.

(** ** Double booking *)

Lemma timeClash_overlaps s e b :
  s < e -> bk_startDateTime b < bk_endDateTime b ->
  timeClash s e b = overlaps s e (bk_startDateTime b) (bk_endDateTime b).
Proof.
  intros Hn Hb. unfold timeClash, overlaps. apply eq_true_iff_eq.
  rewrite !orb_true_iff, !andb_true_iff, !Z.leb_le, !Z.ltb_lt. lia.
Qed.

Lemma overlaps_sym s1 e1 s2 e2 : overlaps s1 e1 s2 e2 = overlaps s2 e2 s1 e1.
Proof. unfold overlaps. apply andb_comm. Qed.

Lemma filter_nil_iff {A} (p : A -> bool) (l : list A) :
  List.filter p l = [] <-> forall x, x ∈ l -> p x = false.
Proof.
  induction l as [|y l IH]; cbn [List.filter].
  - split; [by intros _ x ?%elem_of_nil | done].
  - destruct (p y) eqn:Hy.
    + split; [done|]. intros Hall. rewrite (Hall y) in Hy; [done | left].
    + rewrite IH. split.
      * intros Hall x [->|Hx]%elem_of_cons; [done | by apply Hall].
      * intros Hall x Hx. apply Hall. by right.
Qed.

(** X8. [createEvent] never books a venue twice: when the stored bookings
    have positive length and no two active ones of one venue overlap, the
    same holds of the bookings [createEvent] leaves, whatever it replies. *)
Theorem createEvent_no_double_booking `{Casting} (fuel : nat) (now : Z)
    (eventId bookingId : Id) (reqOrg : Organization) (body : EventBody) (db : Db) :
  PositiveBookings (venueBookings db) ->
  NoDoubleBooking (venueBookings db) ->
  let db' := snd (createEvent fuel now eventId bookingId reqOrg body db) in
  PositiveBookings (venueBookings db') /\ NoDoubleBooking (venueBookings db').
Proof.
  intros Hpos Hno db'. subst db'. unfold createEvent.
  destruct (missingRequired body); [done|].
  destruct (castObjectId (body_venue body)) as [venue|]; [|done].
  destruct (venues db !! venue); [|done].
  destruct (newDate (body_startDateTime body)) as [s|]; [|done].
  destruct (newDate (body_endDateTime body)) as [e|]; [|done].
  destruct (Z.leb_spec e s) as [|Hse]; [done|].
  destruct (conflictingBookings venue s e (venueBookings db)) as [|c cs] eqn:Hfree;
    [|by destruct (conflictingEvents (events db) (c :: cs))].
  destruct (buildApprovalChain fuel (organizations db) now reqOrg); [|done..].
  destruct (newEvent reqOrg body approvalChain) as [event|]; [|done].
  cbn [snd venueBookings].
  set (nb := {| bk_id := bookingId; bk_venue := venue; bk_event := eventId;
                bk_startDateTime := s; bk_endDateTime := e; bk_status := BkTemporary |}).
  assert (Hclear : forall b, b ∈ venueBookings db -> bk_venue b = venue ->
            isActive (bk_status b) = true ->
            overlaps s e (bk_startDateTime b) (bk_endDateTime b) = false).
  { intros b Hb Hv Ha. unfold conflictingBookings in Hfree.
    rewrite filter_nil_iff in Hfree. specialize (Hfree b Hb).
    unfold conflictQuery in Hfree. rewrite Hv, Nat.eqb_refl, Ha in Hfree.
    cbn [andb] in Hfree. rewrite <- timeClash_overlaps; [done | done | by apply Hpos]. }
  split.
  - intros b [Hb|Hb%list_elem_of_singleton]%elem_of_app; [by apply Hpos | by subst b].
  - intros i j b1 b2 Hij H1 H2 Hv Ha1 Ha2.
    apply lookup_app_Some in H1 as [H1|[Hi H1]];
      apply lookup_app_Some in H2 as [H2|[Hj H2]].
    + by apply (Hno i j).
    + apply list_lookup_singleton_Some in H2 as [_ <-]. rewrite overlaps_sym.
      apply Hclear; [by eapply list_elem_of_lookup_2 | done | done].
    + apply list_lookup_singleton_Some in H1 as [_ <-].
      apply Hclear; [by eapply list_elem_of_lookup_2 | done | done].
    + apply list_lookup_singleton_Some in H1 as [Hi' _].
      apply list_lookup_singleton_Some in H2 as [Hj' _]. lia.
Qed.

(** The workshop is booked into the hall after the fest. *)
Lemma createEvent_no_double_booking_witness :
  NoDoubleBooking
    (venueBookings (snd (createEvent (H := jsonCasting) 5 7 101 201 Campus.club
                           (Campus.body (JNum 5000) (JNum 200))
                           Campus.awaitingCollege))).
Proof.
  apply (createEvent_no_double_booking (H := jsonCasting) 5 7 101 201 Campus.club
           (Campus.body (JNum 5000) (JNum 200)) Campus.awaitingCollege).
  - intros b Hb. apply list_elem_of_singleton in Hb as ->. reflexivity.
  - intros [|i] [|j] b1 b2 Hij H1 H2; try done.
Defined.

(** ** The availability check and the routes that change availability *)

Lemma availabilityQuery_None venueId s e bs :
  List.filter (availabilityQuery venueId s e None) bs = conflictingBookings venueId s e bs.
Proof.
  unfold conflictingBookings. apply List.filter_ext. intros b.
  unfold availabilityQuery. apply andb_true_r.
Qed.

(** X9. The availability check without an excluded event and [createEvent]
    agree: for the venue and the interval of a complete body, [createEvent]
    replies with a venue conflict exactly when the check replies unavailable,
    and the two list the same clashing events. *)
Theorem checkAvailability_agrees_with_createEvent `{Casting} (fuel : nat) (now : Z)
    (eventId bookingId : Id) (reqOrg : Organization) (body : EventBody) (db : Db)
    (venue : Id) (s e : Z) :
  missingRequired body = false ->
  castObjectId (body_venue body) = Some venue ->
  newDate (body_startDateTime body) = Some s ->
  newDate (body_endDateTime body) = Some e ->
  forall cs,
    fst (createEvent fuel now eventId bookingId reqOrg body db) = RespError (VenueConflict cs)
    <-> checkAvailability venue s e None db = RespUnavailable cs.
Proof.
  intros Hbody Hv Hs He cs. unfold createEvent, checkAvailability.
  rewrite Hbody, Hv, Hs, He, availabilityQuery_None.
  destruct (venues db !! venue); [|by destruct (e <=? s)].
  destruct (e <=? s); [done|].
  destruct (conflictingBookings venue s e (venueBookings db)) as [|c l].
  - destruct (buildApprovalChain fuel (organizations db) now reqOrg); [|done..].
    by destruct (newEvent reqOrg body approvalChain).
  - destruct (conflictingEvents (events db) (c :: l)); cbn [fst]; [|done].
    split; by intros [= ->].
Qed.

(** The hall is asked for while the fest holds it. *)
Lemma checkAvailability_agrees_with_createEvent_witness :
  checkAvailability Campus.hall 1500 2500 None Campus.awaitingCollege
  = RespUnavailable [ {| cf_eventName := "Fest"; cf_startTime := 1000; cf_endTime := 2000 |} ].
Proof.
  apply (checkAvailability_agrees_with_createEvent (H := jsonCasting) 5 7 101 201
           Campus.club
           {| body_name := JStr "Workshop"; body_startDateTime := JNum 1500;
              body_endDateTime := JNum 2500; body_venue := JNum 10;
              body_budget := JNum 10; body_description := JStr "Hands-on";
              body_expectedParticipants := JNum 20;
              body_requiredResources := JUndefined |}
           Campus.awaitingCollege Campus.hall 1500 2500
           eq_refl eq_refl eq_refl eq_refl).
  reflexivity.
Defined.

Lemma cancelled_booking_frees venueId s e eventId db :
  OneBookingPerEvent db ->
  List.filter (availabilityQuery venueId s e (Some eventId)) (venueBookings db) = [] ->
  List.filter (availabilityQuery venueId s e None)
              (venueBookings (updateBookingStatus eventId BkCancelled db)) = [].
Proof.
  intros Hone Hfree. rewrite filter_nil_iff in Hfree |- *.
  intros b Hb. cbn in Hb.
  destruct (elem_of_updateFirst_forEvent eventId (setBookingStatus BkCancelled) _ _
              Hone (fun _ => eq_refl) Hb)
    as [[Hb' Hne]|(b0 & _ & -> & _)].
  - specialize (Hfree b Hb'). unfold availabilityQuery in *.
    apply Nat.eqb_neq in Hne. rewrite Hne in Hfree. cbn [negb] in Hfree.
    by rewrite andb_true_r in *.
  - unfold availabilityQuery, conflictQuery. cbn.
    by rewrite andb_false_r.
Qed.

(** X10. Cancelling or rejecting an event frees its slot: with one booking per
    event, if the availability check that leaves the event out finds a venue
    and an interval free, then after the creator has cancelled the event, or
    an authorised reviewer has rejected it, the plain availability check
    finds them free. *)
Theorem cancelled_event_frees_slot `{Casting} (now : Z) (answered : nat -> bool)
    (reqOrg : Organization) (eventId : Id) (comments : JsVal)
    (db : Db) (event : Event) (venueId : Id) (s e : Z) :
  OneBookingPerEvent db ->
  events db !! eventId = Some event ->
  checkAvailability venueId s e (Some eventId) db = RespAvailable ->
  (ev_createdBy event = org_id reqOrg ->
   checkAvailability venueId s e None (snd (cancelEvent reqOrg eventId db)) = RespAvailable)
  /\ (forall replied,
        fst (reviewEvent now answered reqOrg eventId (JStr "rejected") comments db)
        = RespEvent replied ->
        checkAvailability venueId s e None
          (snd (reviewEvent now answered reqOrg eventId (JStr "rejected") comments db))
        = RespAvailable).
Proof.
  intros Hone Hev Hfree.
  assert (Hafter : forall event',
            checkAvailability venueId s e None
              (saveEvent eventId event' (updateBookingStatus eventId BkCancelled db))
            = RespAvailable).
  { intros event'. unfold checkAvailability in *.
    destruct (e <=? s); [done|].
    cbn [venues venueBookings saveEvent withEvents updateBookingStatus withBookings].
    destruct (venues db !! venueId); [|done].
    pose proof (cancelled_booking_frees venueId s e eventId db Hone) as Hnil.
    cbn [venueBookings updateBookingStatus withBookings] in Hnil |- *.
    rewrite Hnil; [done|].
    destruct (List.filter (availabilityQuery venueId s e (Some eventId)) (venueBookings db))
      as [|c l]; [done|].
    by destruct (conflictingEvents (events db) (c :: l)). }
  split.
  - intros Hcreator. destruct (cancelEvent_cases reqOrg eventId db event Hev) as [_ Hc].
    rewrite Hc by done. apply Hafter.
  - intros replied. unfold reviewEvent, saveAndReply.
    change (decisionOf (JStr "rejected")) with (Some DRejected). rewrite Hev.
    destruct (castComments comments); cbn [accepted default].
    + destruct (findIndex _ (ev_approvalChain event)); [intros _; apply Hafter|].
      destruct (Nat.leb (org_level reqOrg) 1); [intros _; apply Hafter | done].
    + repeat case_match; done.
Qed.

(** The fest is cancelled and the hall is free at its hours. *)
Lemma cancelled_event_frees_slot_witness :
  checkAvailability Campus.hall 1000 2000 None
    (snd (cancelEvent Campus.club 100 Campus.approvedByAll)) = RespAvailable.
Proof.
  apply (cancelled_event_frees_slot (H := jsonCasting) 50 (fun _ => true) Campus.club 100
           JUndefined Campus.approvedByAll
           (Campus.event EvApproved ApApproved ApApproved 1000 2000)
           Campus.hall 1000 2000).
  - apply NoDup_singleton.
  - reflexivity.
  - reflexivity.
  - reflexivity.
Defined.

(** ** The booking as a copy of the venue and interval of its event *)

Lemma elem_of_updateFirst {A} (p : A -> bool) (f : A -> A) (l : list A) (y : A) :
  y ∈ updateFirst p f l -> y ∈ l \/ exists x, x ∈ l /\ y = f x.
Proof.
  induction l as [|x l IH]; cbn [updateFirst]; [by intros ?%elem_of_nil|].
  destruct (p x).
  - intros [->|Hy]%elem_of_cons; [right; exists x; split; [left | done] | left; by right].
  - intros [->|Hy]%elem_of_cons; [left; left|].
    destruct (IH Hy) as [?|(x0 & ? & ?)]; [left; by right | right; exists x0; split; [by right | done]].
Qed.

Lemma Mirrors_rewrite target old new bs' db :
  Mirrors db ->
  events db !! target = Some old ->
  ev_venue new = ev_venue old ->
  ev_startDateTime new = ev_startDateTime old ->
  ev_endDateTime new = ev_endDateTime old ->
  (forall b', b' ∈ bs' -> exists b, b ∈ venueBookings db /\ bk_event b' = bk_event b
      /\ bk_venue b' = bk_venue b /\ bk_startDateTime b' = bk_startDateTime b
      /\ bk_endDateTime b' = bk_endDateTime b) ->
  Mirrors (saveEvent target new (withBookings db bs')).
Proof.
  intros Hm Hold Hv Hs He Hbs b' ev Hb' Hev. cbn in Hb', Hev.
  destruct (Hbs b' Hb') as (b & Hb & Hbe & Hbv & Hbs' & Hbe').
  rewrite Hbv, Hbs', Hbe'. rewrite Hbe in Hev.
  destruct (decide (target = bk_event b)) as [Heq|Hne].
  - rewrite Heq, lookup_insert_eq in Hev. injection Hev as <-.
    rewrite Hv, Hs, He. apply Hm; [done | by rewrite <- Heq].
  - rewrite lookup_insert_ne in Hev by done. by apply Hm.
Qed.

Lemma same_slots_refl (bs : list VenueBooking) :
  forall b', b' ∈ bs -> exists b, b ∈ bs /\ bk_event b' = bk_event b
      /\ bk_venue b' = bk_venue b /\ bk_startDateTime b' = bk_startDateTime b
      /\ bk_endDateTime b' = bk_endDateTime b.
Proof. intros b' Hb'. by exists b'. Qed.

Lemma same_slots_status p s (bs : list VenueBooking) :
  forall b', b' ∈ updateFirst p (setBookingStatus s) bs ->
    exists b, b ∈ bs /\ bk_event b' = bk_event b
      /\ bk_venue b' = bk_venue b /\ bk_startDateTime b' = bk_startDateTime b
      /\ bk_endDateTime b' = bk_endDateTime b.
Proof.
  intros b' [Hb'|(b & Hb & ->)]%elem_of_updateFirst; [by exists b' | by exists b].
Qed.

Lemma Mirrors_bookings db bs' :
  Mirrors db ->
  (forall b', b' ∈ bs' -> exists b, b ∈ venueBookings db /\ bk_event b' = bk_event b
      /\ bk_venue b' = bk_venue b /\ bk_startDateTime b' = bk_startDateTime b
      /\ bk_endDateTime b' = bk_endDateTime b) ->
  Mirrors (withBookings db bs').
Proof.
  intros Hm Hbs b' ev Hb' Hev. cbn in Hb', Hev.
  destruct (Hbs b' Hb') as (b & Hb & Hbe & -> & -> & ->).
  rewrite Hbe in Hev. by apply Hm.
Qed.

Lemma reviewEvent_keeps_mirror `{Casting} now answered reqOrg eventId status comments db :
  Mirrors db -> Mirrors (snd (reviewEvent now answered reqOrg eventId status comments db)).
Proof.
  intros Hm. unfold reviewEvent, saveAndReply.
  destruct (decisionOf status) as [d|]; [|done].
  destruct (events db !! eventId) as [old|] eqn:Hold; [|done].
  destruct (castComments comments) as [c|]; cbn [accepted default].
  2: { repeat case_match; cbn [snd]; try done; unfold updateBookingStatus;
         (apply Mirrors_bookings; [done | apply same_slots_status]). }
  assert (Hkeep : forall new replied, ev_venue new = ev_venue old ->
            ev_startDateTime new = ev_startDateTime old ->
            ev_endDateTime new = ev_endDateTime old ->
            Mirrors (snd (RespEvent replied, saveEvent eventId new db))).
  { intros new replied Hv Hs He. cbn [snd].
    apply (Mirrors_rewrite eventId old new (venueBookings db) db Hm Hold Hv Hs He).
    apply same_slots_refl. }
  assert (Hset : forall new s, ev_venue new = ev_venue old ->
            ev_startDateTime new = ev_startDateTime old ->
            ev_endDateTime new = ev_endDateTime old ->
            Mirrors (snd (RespEvent new,
                          saveEvent eventId new (updateBookingStatus eventId s db)))).
  { intros new s Hv Hs He. cbn [snd].
    apply (Mirrors_rewrite eventId old new _ db Hm Hold Hv Hs He).
    apply same_slots_status. }
  repeat case_match; try done; first [by apply Hset | by apply Hkeep].
Qed.

(** X11. The venue and the interval of a booking stay those of its event
    under every request, with one booking per event, except under two kinds
    of edit that change the venue or the interval of an event: an edit
    without the reset (no flag, or a status other than needs_modification)
    saves the event and leaves every booking as it was, and an edit with the
    reset one of whose values cannot be cast moves the booking and does not
    save the event.  After either, a booking of the event no longer has the
    venue or the interval of its event. *)
Theorem handle_keeps_mirror `{Casting} (r : Request) (db : Db) :
  OneBookingPerEvent db -> Mirrors db ->
  (KeepsMirror r db -> Mirrors (snd (handle r db)))
  /\ forall now reqOrg eventId p event b,
       r = UpdateEvent now reqOrg eventId p ->
       events db !! eventId = Some event ->
       ev_createdBy event = org_id reqOrg ->
       b ∈ venueBookings db -> bk_event b = eventId ->
       ~ SameSlot event (applyPatch p event) ->
       let reset := truthy (patch_resetStatus p) && isNeedsModification (ev_status event) in
       (reset = false -> validPatch p = true ->
          events (snd (handle r db)) !! eventId = Some (applyPatch p event)
          /\ venueBookings (snd (handle r db)) = venueBookings db
          /\ ~ Mirrors (snd (handle r db)))
       /\ (reset = true -> validPatch p = false ->
             events (snd (handle r db)) = events db
             /\ (exists b', b' ∈ venueBookings (snd (handle r db))
                   /\ bk_event b' = eventId
                   /\ bk_venue b' = ev_venue (applyPatch p event)
                   /\ bk_startDateTime b' = ev_startDateTime (applyPatch p event)
                   /\ bk_endDateTime b' = ev_endDateTime (applyPatch p event))
             /\ ~ Mirrors (snd (handle r db))).
Proof.
  intros Hone Hm. split.
  - intros Hkeep. destruct r; cbn [handle KeepsMirror] in *.
    + unfold createEvent.
      destruct (missingRequired body); [done|].
      destruct (castObjectId (body_venue body)) as [venue|] eqn:Hvenue; [|done].
      destruct (venues db !! venue); [|done].
      destruct (newDate (body_startDateTime body)) as [s|] eqn:Hs; [|done].
      destruct (newDate (body_endDateTime body)) as [e|] eqn:He; [|done].
      destruct (e <=? s); [done|].
      destruct (conflictingBookings venue s e (venueBookings db)) as [|c cs];
        [|by destruct (conflictingEvents (events db) (c :: cs))].
      destruct (buildApprovalChain fuel (organizations db) now reqOrg); [|done..].
      destruct (newEvent reqOrg body approvalChain) as [event|] eqn:Hnew; [|done].
      cbn [snd]. intros b ev Hb Hev. cbn in Hb, Hev.
      apply elem_of_app in Hb as [Hb|Hb%list_elem_of_singleton].
      * assert (bk_event b <> eventId) as Hne.
        { intros Heq. apply Hkeep. rewrite <- Heq. by apply list_elem_of_fmap_2. }
        rewrite lookup_insert_ne in Hev by done. by apply Hm.
      * subst b. cbn in Hev |- *. rewrite lookup_insert_eq in Hev. injection Hev as <-.
        unfold newEvent in Hnew. rewrite Hvenue, Hs, He in Hnew.
        by simplify_option_eq.
    + by apply reviewEvent_keeps_mirror.
    + unfold cancelEvent.
      destruct (events db !! eventId) as [old|] eqn:Hold; [|done].
      case_match; [done|]. cbn [snd].
      apply (Mirrors_rewrite eventId old _ _ db Hm Hold); [done..|].
      apply same_slots_status.
    + unfold updateEvent, saveAndReply.
      destruct (events db !! eventId) as [old|] eqn:Hold; [|done].
      case_match; [done|].
      specialize (Hkeep old eq_refl). cbn zeta in Hkeep.
      cbn [applyPatch ev_status] in *.
      destruct (truthy (patch_resetStatus patch) && isNeedsModification (ev_status old))
        eqn:Hreset; destruct (validPatch patch) eqn:Hvalid; cbn [snd].
      * intros b ev Hb Hev. cbn in Hb, Hev.
        apply elem_of_updateFirst_forEvent in Hb; [|done|done].
        destruct Hb as [[Hb' Hne]|(b0 & _ & -> & Hbe)].
        -- rewrite lookup_insert_ne in Hev by done. by apply Hm.
        -- cbn in Hbe, Hev |- *. rewrite Hbe, lookup_insert_eq in Hev. by injection Hev as <-.
      * destruct Hkeep as (Hv & Hs & He); [by right|].
        intros b ev Hb Hev. cbn in Hb, Hev.
        apply elem_of_updateFirst_forEvent in Hb; [|done|done].
        destruct Hb as [[Hb' Hne]|(b0 & _ & -> & Hbe)]; [by apply Hm|].
        cbn in Hbe, Hev |- *. rewrite Hbe, Hold in Hev. injection Hev as <-.
        cbn in Hv, Hs, He. by rewrite Hv, Hs, He.
      * destruct Hkeep as (Hv & Hs & He); [by left|].
        apply (Mirrors_rewrite eventId old _ _ db Hm Hold Hv Hs He).
        apply same_slots_refl.
      * done.
    + unfold updateBooking.
      case_match; [done|]. case_match; [|done]. case_match; [|done].
      assert (Hbs : Mirrors (withBookings db
                      (updateFirst (fun b => Nat.eqb (bk_id b) bookingId)
                                   (setBookingStatus b) (venueBookings db)))).
      { apply Mirrors_bookings; [done | apply same_slots_status]. }
      destruct b; [done| |];
        cbn [setBookingStatus bk_event events withBookings];
        (destruct (events db !! bk_event v) as [old|] eqn:Hold; [|done]);
        cbn [snd];
        (apply (Mirrors_rewrite (bk_event v) old _ _ db Hm Hold); [done..|]);
        apply same_slots_status.
  - intros now reqOrg eventId p event b -> Hev Hcreator Hb Hbe Hmoved reset.
    cbn [handle]. unfold updateEvent, saveAndReply. rewrite Hev.
    apply Nat.eqb_eq in Hcreator. rewrite Hcreator. cbn [negb applyPatch ev_status].
    fold reset.
    assert (Hold : bk_venue b = ev_venue event
                   /\ bk_startDateTime b = ev_startDateTime event
                   /\ bk_endDateTime b = ev_endDateTime event).
    { apply Hm; [done | by rewrite Hbe]. }
    split.
    + intros -> ->. cbn [snd]. split_and!; [apply events_saveEvent | done |].
      intros Hmirror. apply Hmoved.
      destruct (Hmirror b (applyPatch p event)) as (Hv & Hs & He).
      * done.
      * rewrite Hbe. apply events_saveEvent.
      * destruct Hold as (Hv' & Hs' & He'). unfold SameSlot. by rewrite <- Hv, <- Hs, <- He.
    + intros -> ->. cbn [snd events withBookings venueBookings].
      assert (Hnew : exists b', b' ∈ updateFirst (forEvent eventId)
                                      (retarget (pushModification
                                         (setEventStatus (applyPatch p event) EvPending)
                                         {| mod_requestedBy := org_id reqOrg;
                                            mod_comments := Some "Event modified as requested";
                                            mod_modifiedAt := now |}))
                                      (venueBookings db)
                /\ bk_event b' = eventId
                /\ bk_venue b' = ev_venue (applyPatch p event)
                /\ bk_startDateTime b' = ev_startDateTime (applyPatch p event)
                /\ bk_endDateTime b' = ev_endDateTime (applyPatch p event)).
      { destruct (List.find (forEvent eventId) (venueBookings db)) as [b0|] eqn:Hfind.
        - destruct (find_first _ _ _ Hfind) as (l1 & l2 & Hbs & Hl1 & Hb0).
          eexists. split; [|split_and!].
          + rewrite Hbs, updateFirst_first by done. apply elem_of_app. right. left.
          + cbn. by apply Nat.eqb_eq in Hb0.
          + done.
          + done.
          + done.
        - apply (find_None_forall _ _ Hfind) in Hb. apply Nat.eqb_neq in Hb. done. }
      split_and!; [done | exact Hnew |].
      destruct Hnew as (b' & Hb' & Hbe' & Hv & Hs & He).
      intros Hmirror. apply Hmoved.
      destruct (Hmirror b' event) as (Hv' & Hs' & He').
      * done.
      * cbn. by rewrite Hbe'.
      * unfold SameSlot. by rewrite <- Hv, <- Hs, <- He.
Qed.

(** The creator moves the second event of the campus onto the hours of the
    first without the reset flag: the event is saved on the new hours, its
    booking stays on the old ones. *)
Lemma handle_keeps_mirror_witness :
  let p := {| patch_name := JUndefined; patch_startDateTime := JNum 1000;
              patch_endDateTime := JNum 2000; patch_venue := JUndefined;
              patch_budget := JUndefined; patch_description := JUndefined;
              patch_expectedParticipants := JUndefined;
              patch_requiredResources := JUndefined; patch_resetStatus := JUndefined |} in
  let db' := snd (handle (H := jsonCasting) (UpdateEvent 60 Campus.club 101 p)
                    Campus.twoEvents) in
  Mirrors (snd (handle (H := jsonCasting)
                  (UpdateEvent 60 Campus.club 101 Campus.moveOntoFirst) Campus.twoEvents))
  /\ ev_startDateTime <$> events db' !! 101%nat = Some 1000
  /\ venueBookings db' = venueBookings Campus.twoEvents
  /\ ~ Mirrors db'.
Proof.
  intros p db'.
  assert (Hone : OneBookingPerEvent Campus.twoEvents).
  { unfold OneBookingPerEvent. cbn. apply NoDup_cons. split; [|apply NoDup_singleton].
    intros Hin. apply list_elem_of_singleton in Hin. discriminate Hin. }
  assert (Hm : Mirrors Campus.twoEvents).
  { intros b ev Hb Hev. cbn in Hb.
    apply elem_of_cons in Hb as [->|Hb]; [|apply list_elem_of_singleton in Hb as ->];
      cbn in Hev; vm_compute in Hev; injection Hev as <-; done. }
  split.
  - apply (proj1 (handle_keeps_mirror (H := jsonCasting)
                    (UpdateEvent 60 Campus.club 101 Campus.moveOntoFirst)
                    Campus.twoEvents Hone Hm)).
    intros ev Hev reset [[Hreset _]|[_ Hvalid]].
    + vm_compute in Hev. injection Hev as <-. discriminate Hreset.
    + discriminate Hvalid.
  - destruct (proj2 (handle_keeps_mirror (H := jsonCasting)
                       (UpdateEvent 60 Campus.club 101 p) Campus.twoEvents Hone Hm)
                60 Campus.club 101%nat p
                (Campus.event EvNeedsModification ApApproved ApNeedsModification 3000 4000)
                (Campus.booking 201 101 3000 4000 BkTemporary) eq_refl eq_refl eq_refl)
      as [Hplain _].
    + right. left.
    + reflexivity.
    + intros (_ & Hs & _). discriminate Hs.
    + destruct (Hplain eq_refl eq_refl) as (Hstored & Hbs & Hbroken).
      split_and!; [|exact Hbs|exact Hbroken].
      exact (f_equal (fmap ev_startDateTime) Hstored).
Defined.

(** ** The hierarchy walk on a well-formed hierarchy *)

Lemma findOrg_Some orgs id o :
  findOrg orgs id = Some o -> o ∈ orgs /\ org_id o = id.
Proof.
  unfold findOrg. intros [Hin Hid]%List.find_some.
  split; [by apply list_elem_of_In | by apply Nat.eqb_eq].
Qed.

(** From the [k]-th ancestor of the creator, at level [n >= 2], the loop
    appends the ancestors [k + 1], [k + 2], ... at levels [n - 1] down to [1]
    and stops, within [n - 1] runs of its body. *)
Lemma walkParents_climbs orgs now creator :
  HierarchyOk orgs ->
  forall fuel k currentOrg acc,
    ancestor orgs creator k = Some currentOrg ->
    currentOrg ∈ orgs ->
    (2 <= org_level currentOrg)%nat ->
    (org_level currentOrg - 1 <= fuel)%nat ->
    exists chain,
      walkParents fuel orgs now currentOrg acc = WalkChain (acc ++ chain)
      /\ length chain = (org_level currentOrg - 1)%nat
      /\ forall i a, chain !! i = Some a ->
           ap_status a = ApPending /\ ap_comments a = None
           /\ exists o, ancestor orgs creator (S (k + i)) = Some o
                        /\ ap_organization a = org_id o
                        /\ org_level o = (org_level currentOrg - 1 - i)%nat.
Proof.
  intros Hok. induction fuel as [|fuel IH]; intros k currentOrg acc Hk Hin Hlevel Hfuel; [lia|].
  pose proof (Hok currentOrg Hin) as Hcur.
  destruct (org_parentOrganization currentOrg) as [parentId|] eqn:Hparent; [|lia].
  destruct Hcur as (parent & Hfind & Hl).
  destruct (findOrg_Some _ _ _ Hfind) as [Hpin Hpid].
  assert (Hnext : ancestor orgs creator (S k) = Some parent).
  { cbn [ancestor]. rewrite Hk. cbn. rewrite Hparent. cbn. exact Hfind. }
  cbn [walkParents]. rewrite Hparent, Hfind.
  destruct (Nat.eqb_spec (org_level parent) 1) as [Hone|Hmore].
  - exists [pendingApproval now (org_id parent)]. split_and!; [done | cbn; lia |].
    intros [|i] a Ha; [|done]. injection Ha as <-. split_and!; [done..|].
    exists parent. rewrite Nat.add_0_r. split_and!; [done | done | lia].
  - destruct (IH (S k) parent (acc ++ [pendingApproval now (org_id parent)]) Hnext Hpin)
      as (chain & Hwalk & Hlen & Hentries); [lia | lia |].
    exists (pendingApproval now (org_id parent) :: chain). split_and!.
    + rewrite Hwalk. by rewrite <- app_assoc.
    + cbn. lia.
    + intros [|i] a Ha.
      * injection Ha as <-. split_and!; [done..|].
        exists parent. rewrite Nat.add_0_r. split_and!; [done | done | lia].
      * destruct (Hentries i a Ha) as (Hpend & Hnone & o & Ho & Hid & Hol).
        split_and!; [done..|]. exists o. rewrite Nat.add_succ_r.
        split_and!; [done | done | lia].
Qed.

(** X12. On a hierarchy with the levels the hook derives, the approval chain
    of a creator at level [n >= 2] is built within [n - 1] runs of the loop:
    it has [n - 1] entries, all pending and without comments; entry [0] names
    the parent of the creator and entry [i + 1] the parent of the
    organization of entry [i], so entry [i] names the creator's ancestor
    number [i + 1], which is at level [n - 1 - i], and the last entry names
    the creator's ancestor at level 1. *)
Theorem approval_chain_climbs_to_level1 (fuel : nat) (orgs : list Organization)
    (now : Z) (reqOrg creator : Organization) :
  HierarchyOk orgs ->
  findOrg orgs (org_id reqOrg) = Some creator ->
  (2 <= org_level creator)%nat ->
  (org_level creator - 1 <= fuel)%nat ->
  exists chain,
    buildApprovalChain fuel orgs now reqOrg = WalkChain chain
    /\ length chain = (org_level creator - 1)%nat
    /\ forall i a, chain !! i = Some a ->
         ap_status a = ApPending /\ ap_comments a = None
         /\ exists o, ancestor orgs creator (S i) = Some o
                      /\ ap_organization a = org_id o
                      /\ org_level o = (org_level creator - 1 - i)%nat.
Proof.
  intros Hok Hcreator Hlevel Hfuel.
  destruct (findOrg_Some _ _ _ Hcreator) as [Hin _].
  destruct (walkParents_climbs orgs now creator Hok fuel 0 creator [] eq_refl Hin Hlevel Hfuel)
    as (chain & Hwalk & Hlen & Hentries).
  exists chain. split_and!; [|done..].
  unfold buildApprovalChain. rewrite Hcreator, Hwalk. cbn [app].
  destruct chain; [cbn in Hlen; lia | done].
Qed.

Lemma HierarchyOk_campus : HierarchyOk (organizations Campus.teamEvent).
Proof.
  intros o Ho. cbn in Ho.
  repeat (apply elem_of_cons in Ho as [->|Ho]); [..|by apply elem_of_nil in Ho]; cbn.
  - done.
  - by exists Campus.root.
  - by exists Campus.college.
  - by exists Campus.department.
  - by exists Campus.club.
Qed.

(** The team, at level 4, gets three entries, and the second of them names
    the department, the parent of its parent. *)
Lemma approval_chain_climbs_to_level1_witness :
  exists chain a,
    buildApprovalChain 3 (organizations Campus.teamEvent) 7 Campus.team = WalkChain chain
    /\ length chain = 3%nat
    /\ chain !! 1%nat = Some a
    /\ ap_organization a = org_id Campus.department.
Proof.
  destruct (approval_chain_climbs_to_level1 3 (organizations Campus.teamEvent) 7
              Campus.team Campus.team HierarchyOk_campus eq_refl)
    as (chain & Hwalk & Hlen & Hentries); [cbn; lia | cbn; lia |].
  destruct (lookup_lt_is_Some_2 chain 1%nat) as [a Ha]; [rewrite Hlen; cbn; lia|].
  exists chain, a. split_and!; [exact Hwalk | exact Hlen | exact Ha |].
  destruct (Hentries 1%nat a Ha) as (_ & _ & o & Ho & Hid & _).
  injection Ho as <-. exact Hid.
Defined.

(** X13. At the top of a well-formed hierarchy the chain is not a climb: a
    creator at level 1 gets exactly one entry, pending and without comments,
    that names its parent, the level-0 organization; a creator at level 0
    gets one entry, pending and without comments, for every level-1
    organization of the collection, in collection order. *)
Theorem approval_chain_of_top_levels (fuel : nat) (orgs : list Organization)
    (now : Z) (reqOrg : Organization) :
  HierarchyOk orgs ->
  findOrg orgs (org_id reqOrg) = Some reqOrg ->
  (org_level reqOrg = 1%nat -> (1 <= fuel)%nat ->
   exists parent,
     org_parentOrganization reqOrg = Some (org_id parent)
     /\ findOrg orgs (org_id parent) = Some parent
     /\ org_level parent = 0%nat
     /\ buildApprovalChain fuel orgs now reqOrg
        = WalkChain [ {| ap_organization := org_id parent; ap_status := ApPending;
                         ap_comments := None; ap_timestamp := now |} ])
  /\ (org_level reqOrg = 0%nat ->
      exists chain,
        buildApprovalChain fuel orgs now reqOrg = WalkChain chain
        /\ ap_organization <$> chain
           = org_id <$> List.filter (fun o => Nat.eqb (org_level o) 1) orgs
        /\ forall a, a ∈ chain -> ap_status a = ApPending /\ ap_comments a = None).
Proof.
  intros Hok Hself. destruct (findOrg_Some _ _ _ Hself) as [Hin _].
  pose proof (Hok reqOrg Hin) as Hcur. split.
  - intros Hone Hfuel.
    destruct (org_parentOrganization reqOrg) as [parentId|] eqn:Hparent; [|lia].
    destruct Hcur as (parent & Hfind & Hl).
    destruct (findOrg_Some _ _ _ Hfind) as [Hpin Hpid].
    assert (org_level parent = 0%nat) as Hzero by lia.
    pose proof (Hok parent Hpin) as Hp.
    destruct (org_parentOrganization parent) as [grandId|] eqn:Hgrand.
    { destruct Hp as (? & _ & ?). lia. }
    exists parent. rewrite Hpid. split_and!; [done..|].
    unfold buildApprovalChain. rewrite Hself.
    destruct fuel as [|fuel]; [lia|].
    cbn [walkParents]. rewrite Hparent, Hfind, Hzero. cbn [Nat.eqb].
    assert (walkParents fuel orgs now parent ([] ++ [pendingApproval now (org_id parent)])
            = WalkChain [pendingApproval now (org_id parent)]) as ->.
    { destruct fuel; cbn [walkParents]; by rewrite Hgrand. }
    cbn [length Nat.eqb andb]. by rewrite Hpid.
  - intros Hzero.
    destruct (org_parentOrganization reqOrg) as [parentId|] eqn:Hparent.
    { destruct Hcur as (? & _ & ?). lia. }
    unfold buildApprovalChain. rewrite Hself.
    assert (walkParents fuel orgs now reqOrg [] = WalkChain []) as ->.
    { destruct fuel; cbn [walkParents]; by rewrite Hparent. }
    rewrite Hzero. cbn [length Nat.eqb andb negb app].
    eexists. split; [done|].
    induction (List.filter (fun o => Nat.eqb (org_level o) 1) orgs) as [|o l [IH1 IH2]].
    + split; [done | by intros a ?%elem_of_nil].
    + cbn [List.map]. rewrite !fmap_cons. split; [by rewrite IH1|].
      intros a [->|Ha]%elem_of_cons; [done | by apply IH2].
Qed.

(** The root of the campus, at level 0, gets one entry, for the college. *)
Lemma approval_chain_of_top_levels_witness :
  exists chain,
    buildApprovalChain 1 (organizations Campus.teamEvent) 7 Campus.root = WalkChain chain
    /\ ap_organization <$> chain = [1%nat].
Proof.
  destruct (proj2 (approval_chain_of_top_levels 1 (organizations Campus.teamEvent) 7
                     Campus.root HierarchyOk_campus eq_refl) eq_refl)
    as (chain & Hwalk & Horgs & _).
  exists chain. split; [exact Hwalk | exact Horgs].
Defined.

(** X14. A parent reference that points to no stored organization does not
    end the walk quietly: the loop body throws, and [createEvent] answers
    with an error and stores neither event nor booking. *)
Theorem createEvent_dangling_parent `{Casting} (fuel : nat) (now : Z)
    (eventId bookingId : Id) (reqOrg creator : Organization) (body : EventBody)
    (db : Db) (parentId : Id) :
  findOrg (organizations db) (org_id reqOrg) = Some creator ->
  org_parentOrganization creator = Some parentId ->
  findOrg (organizations db) parentId = None ->
  (1 <= fuel)%nat ->
  buildApprovalChain fuel (organizations db) now reqOrg = WalkThrows
  /\ exists e, createEvent fuel now eventId bookingId reqOrg body db = (RespError e, db).
Proof.
  intros Hcreator Hparent Hgone Hfuel.
  assert (Hwalk : buildApprovalChain fuel (organizations db) now reqOrg = WalkThrows).
  { unfold buildApprovalChain. rewrite Hcreator.
    destruct fuel as [|fuel]; [lia|]. cbn [walkParents]. by rewrite Hparent, Hgone. }
  split; [done|]. unfold createEvent. rewrite Hwalk.
  repeat case_match; eauto.
Qed.

(** The club has lost the department. *)
Lemma createEvent_dangling_parent_witness :
  buildApprovalChain 5 [Campus.root; Campus.college; Campus.club] 7 Campus.club
  = WalkThrows.
Proof.
  apply (createEvent_dangling_parent (H := jsonCasting) 5 7 101 201
           Campus.club Campus.club (Campus.body (JNum 5000) (JNum 200))
           {| organizations := [Campus.root; Campus.college; Campus.club];
              venues := ∅; events := ∅; venueBookings := [] |} 2);
    solve [reflexivity | lia].
Defined.

(** ** Organizations: registration, login and the middleware *)

Lemma find_app_l {A} (p : A -> bool) (l1 l2 : list A) x :
  List.find p l1 = Some x -> List.find p (l1 ++ l2) = Some x.
Proof.
  induction l1 as [|y l1 IH]; cbn [List.find app]; [done|].
  destruct (p y); [done | apply IH].
Qed.

Lemma find_app_r {A} (p : A -> bool) (l1 l2 : list A) :
  List.find p l1 = None -> List.find p (l1 ++ l2) = List.find p l2.
Proof.
  induction l1 as [|y l1 IH]; cbn [List.find app]; [done|].
  destruct (p y); [done | apply IH].
Qed.

Lemma findOrg_orgsOf docs id :
  findOrg (orgsOf docs) id = doc_org <$> List.find (hasDocId id) docs.
Proof.
  unfold findOrg, orgsOf. induction docs as [|d docs IH]; [done|].
  rewrite fmap_cons. cbn [List.find]. unfold hasDocId at 1.
  destruct (Nat.eqb (org_id (doc_org d)) id); [done | apply IH].
Qed.

Lemma HierarchyOk_snoc orgs o :
  HierarchyOk orgs ->
  match org_parentOrganization o with
  | None => org_level o = 0%nat
  | Some parentId =>
      exists parent, findOrg orgs parentId = Some parent
                     /\ org_level o = S (org_level parent)
  end ->
  HierarchyOk (orgs ++ [o]).
Proof.
  intros Hok Ho o' [Hin|Hin%list_elem_of_singleton]%elem_of_app.
  - specialize (Hok o' Hin). destruct (org_parentOrganization o'); [|done].
    destruct Hok as (parent & Hfind & Hl). exists parent. split; [|done].
    by apply find_app_l.
  - subst o'. destruct (org_parentOrganization o); [|done].
    destruct Ho as (parent & Hfind & Hl). exists parent. split; [|done].
    by apply find_app_l.
Qed.

(** What an accepted save has stored. *)
Lemma saveOrganization_Some newId name orgId password parentOrganization docs d docs' :
  saveOrganization newId name orgId password parentOrganization docs = Some (d, docs') ->
  docs' = docs ++ [d]
  /\ org_id (doc_org d) = newId /\ org_name (doc_org d) = name
  /\ doc_orgId d = orgId /\ doc_password d = password
  /\ org_parentOrganization (doc_org d) = parentOrganization
  /\ name <> "" /\ orgId <> ""
  /\ match parentOrganization with
     | None => org_level (doc_org d) = 0%nat /\ org_isVenueManager (doc_org d) = true
     | Some parentId =>
         exists parent, findOrg (orgsOf docs) parentId = Some parent
                        /\ org_level (doc_org d) = S (org_level parent)
                        /\ org_isVenueManager (doc_org d) = false
     end.
Proof.
  unfold saveOrganization.
  destruct (String.eqb_spec name ""); [done|].
  destruct (String.eqb_spec orgId ""); [done|].
  destruct (String.eqb password ""); [done|]. cbn [orb].
  unfold preSave. cbn [org_parentOrganization org_id org_name org_isVenueManager].
  destruct parentOrganization as [parentId|].
  - destruct (findOrg (orgsOf docs) parentId) as [parent|]; [|done].
    destruct (existsb _ docs); [done|]. intros [= <- <-]. cbn.
    split_and!; try done. exists parent. split_and!; [done | lia |].
    by replace (org_level parent + 1)%nat with (S (org_level parent)) by lia.
  - destruct (existsb _ docs); [done|]. intros [= <- <-]. by cbn.
Qed.

(** X15. Registration derives the level and never takes it from the caller:
    a document [register] or [createChild] stores is appended to the
    collection with level 0 and the venue-manager flag when it has no parent,
    and otherwise with the level of its stored parent plus one and without
    the flag; the documents already stored are not touched, and a hierarchy
    with derived levels stays one.  [createChild] without a parent in the body
    makes the new organization a child of the admin who asks. *)
Theorem registration_derives_level `{Secrets} (now : Z) (salt : string) (newId : Id)
    (reqOrg : Organization) (b : RegisterBody) (docs : list OrgDoc)
    (reply : OrgReply) (docs' : list OrgDoc) :
  HierarchyOk (orgsOf docs) ->
  register now salt newId b docs = (reply, docs')
  \/ createChild salt newId reqOrg b docs = (reply, docs') ->
  HierarchyOk (orgsOf docs')
  /\ (docs' = docs
      \/ exists d, docs' = docs ++ [d]
           /\ org_id (doc_org d) = newId
           /\ doc_orgId d = reg_orgId b
           /\ match org_parentOrganization (doc_org d) with
              | None => org_level (doc_org d) = 0%nat
                        /\ org_isVenueManager (doc_org d) = true
              | Some parentId =>
                  exists parent, findOrg (orgsOf docs) parentId = Some parent
                                 /\ org_level (doc_org d) = S (org_level parent)
                                 /\ org_isVenueManager (doc_org d) = false
              end).
Proof.
  intros Hok Hcall.
  assert (Hsaved : forall hashed parentOrganization d,
            saveOrganization newId (reg_name b) (reg_orgId b) hashed parentOrganization docs
            = Some (d, docs') ->
            HierarchyOk (orgsOf docs')
            /\ (docs' = docs
                \/ exists d, docs' = docs ++ [d]
                     /\ org_id (doc_org d) = newId
                     /\ doc_orgId d = reg_orgId b
                     /\ match org_parentOrganization (doc_org d) with
                        | None => org_level (doc_org d) = 0%nat
                                  /\ org_isVenueManager (doc_org d) = true
                        | Some parentId =>
                            exists parent, findOrg (orgsOf docs) parentId = Some parent
                                           /\ org_level (doc_org d) = S (org_level parent)
                                           /\ org_isVenueManager (doc_org d) = false
                        end)).
  { intros hashed parentOrganization d Hsave.
    apply saveOrganization_Some in Hsave
      as (-> & Hid & _ & HorgId & _ & Hparent & _ & _ & Hlevel).
    split.
    - unfold orgsOf. rewrite fmap_app. apply HierarchyOk_snoc; [done|].
      rewrite Hparent. destruct parentOrganization; [|tauto].
      destruct Hlevel as (parent & ? & ? & _). by exists parent.
    - right. exists d. rewrite Hparent. by split_and!. }
  destruct Hcall as [Hreg|Hchild].
  - unfold register in Hreg.
    destruct (List.find _ docs); [injection Hreg as <- <-; by split; [|left]|].
    destruct (saveOrganization _ _ _ _ _ docs) as [[d docs1]|] eqn:Hsave;
      injection Hreg as <- <-; [by eapply Hsaved | by split; [|left]].
  - unfold createChild in Hchild.
    repeat (case_match; [injection Hchild as <- <-; by split; [|left]|]).
    destruct (saveOrganization _ _ _ _ _ docs) as [[d docs1]|] eqn:Hsave;
      injection Hchild as <- <-; [by eapply Hsaved | by split; [|left]].
Qed.

Lemma HierarchyOk_registry : HierarchyOk (orgsOf Registry.docs).
Proof.
  intros o Ho. cbn in Ho.
  repeat (apply elem_of_cons in Ho as [->|Ho]); [..|by apply elem_of_nil in Ho]; cbn.
  - done.
  - by exists Campus.root.
Qed.

Lemma registration_derives_level_witness :
  HierarchyOk (orgsOf (snd (register (H := plainSecrets) 180000000 "s2" 2 Registry.ieee
                              Registry.docs))).
Proof.
  apply (registration_derives_level (H := plainSecrets) 180000000 "s2" 2 Campus.root
           Registry.ieee Registry.docs
           (fst (register (H := plainSecrets) 180000000 "s2" 2 Registry.ieee Registry.docs))
           (snd (register (H := plainSecrets) 180000000 "s2" 2 Registry.ieee Registry.docs))
           HierarchyOk_registry).
  left. reflexivity.
Defined.

Lemma substring_all (s : string) : String.substring 0 (String.length s) s = s.
Proof. induction s as [|c s IH]; cbn; [done | by rewrite IH]. Qed.

Lemma removeFirst_Bearer (token : string) :
  removeFirst "Bearer " ("Bearer " +:+ token) = token.
Proof.
  change ("Bearer " +:+ token)
    with (String "B" (String "e" (String "a" (String "r" (String "e" (String "r"
            (String " " token))))))).
  unfold removeFirst.
  match goal with |- context [String.index 0 ?pat ?s] =>
    assert (String.index 0 pat s = Some 0%nat) as -> by (cbn; by destruct token) end.
  cbn. rewrite Nat.sub_0_r. apply substring_all.
Qed.

Lemma findOrg_NoDup orgs o :
  NoDup (org_id <$> orgs) -> o ∈ orgs -> findOrg orgs (org_id o) = Some o.
Proof.
  unfold findOrg. induction orgs as [|x orgs IH]; [by intros _ ?%elem_of_nil|].
  rewrite fmap_cons. intros [Hx Hnd]%NoDup_cons [->|Hin]%elem_of_cons; cbn [List.find].
  - by rewrite Nat.eqb_refl.
  - destruct (Nat.eqb_spec (org_id x) (org_id o)) as [Heq|_]; [|by apply IH].
    exfalso. apply Hx. rewrite Heq. by apply list_elem_of_fmap_2.
Qed.

(** X16. An organization that has registered can log in: after an accepted
    [register], [login] at any time with the same id and password is answered
    with the same summary, provided the password is not empty and the stored
    hash compares with it.  Each of the two tokens is signed for the [_id] of
    the new document, at the time of its own call.  (An empty password is
    accepted by [register] and refused by [login].) *)
Theorem register_then_login `{Secrets} (now later : Z) (salt : string) (newId : Id)
    (b : RegisterBody) (docs docs' : list OrgDoc) (o : OrgSummary) (token : string) :
  register now salt newId b docs = (OrgSigned o token, docs') ->
  bcryptCompare (reg_password b) (bcryptHash salt (reg_password b)) = true ->
  sum_id o = newId
  /\ token = jwtSign now newId
  /\ (reg_password b <> "" ->
      login later (reg_orgId b) (reg_password b) docs' = OrgSigned o (jwtSign later newId))
  /\ (reg_password b = "" ->
      login later (reg_orgId b) (reg_password b) docs' = OrgFailed CredentialsRequired).
Proof.
  intros Hreg Hcompare. unfold register in Hreg.
  destruct (List.find (hasOrgId (reg_orgId b)) docs) eqn:Hfree; [done|].
  destruct (saveOrganization _ _ _ _ _ docs) as [[d docs1]|] eqn:Hsave; [|done].
  injection Hreg as <- <- <-.
  apply saveOrganization_Some in Hsave
    as (-> & Hid & _ & HorgId & Hpw & _ & _ & Hne & _).
  split_and!; [done | done | |].
  - intros Hpassword. unfold login.
    apply String.eqb_neq in Hne, Hpassword. rewrite Hne, Hpassword. cbn [orb].
    rewrite find_app_r by done. cbn [List.find]. unfold hasOrgId at 1.
    rewrite HorgId, String.eqb_refl, Hpw, Hcompare. by rewrite Hid.
  - intros Hempty. unfold login. rewrite Hempty. cbn. by rewrite orb_true_r.
Qed.

(** The branch registers in hour 50 and logs in in hour 60: the summary is
    the same, the token is not. *)
Lemma register_then_login_witness :
  let r := register (H := plainSecrets) 180000000 "s2" 2 Registry.ieee Registry.docs in
  exists o,
    fst r = OrgSigned o "t22"
    /\ login (H := plainSecrets) 216000000 "ieee01" "pw" (snd r) = OrgSigned o "t2<"
    /\ sum_level o = 2%nat.
Proof.
  intros r. eexists. split_and!; [reflexivity | | reflexivity].
  apply (register_then_login (H := plainSecrets) 180000000 216000000 "s2" 2 Registry.ieee
           Registry.docs (snd r) _ "t22");
    [reflexivity | reflexivity | discriminate].
Defined.

(** X17. The organization [auth] lets through is a stored one: looking its
    [_id] up again returns the same document.  And the token of an accepted
    [login], sent as [Bearer] header while it verifies, is let through as
    the organization that logged in, when [_id]s are unique. *)
Theorem auth_loads_the_stored_organization `{Secrets} (docs : list OrgDoc) :
  (forall now header org, auth now header docs = inr org ->
     findOrg (orgsOf docs) (org_id org) = Some org)
  /\ (forall now later orgId password o token,
        login now orgId password docs = OrgSigned o token ->
        NoDup (org_id <$> orgsOf docs) ->
        token <> "" ->
        jwtVerify later token = Some (sum_id o) ->
        exists org,
          auth later (Some ("Bearer " +:+ token)) docs = inr org
          /\ org_id org = sum_id o /\ org_name org = sum_name o
          /\ org_level org = sum_level o
          /\ org_isVenueManager org = sum_isVenueManager o).
Proof.
  split.
  - intros now header org. unfold auth.
    destruct header as [header|]; [|done].
    destruct (String.eqb _ ""); [done|].
    destruct (jwtVerify _ _) as [id|]; [|done].
    destruct (findOrg (orgsOf docs) id) as [o|] eqn:Hfind; [|done].
    intros [= <-]. destruct (findOrg_Some _ _ _ Hfind) as [_ ->]. done.
  - intros now later orgId password o token Hlogin Hnd Htoken Hverify. unfold login in Hlogin.
    destruct (String.eqb orgId "" || String.eqb password ""); [done|].
    destruct (List.find (hasOrgId orgId) docs) as [d|] eqn:Hfind; [|done].
    destruct (bcryptCompare password (doc_password d)); [|done].
    injection Hlogin as <- <-.
    exists (doc_org d). split; [|done].
    unfold auth. rewrite removeFirst_Bearer.
    apply String.eqb_neq in Htoken. rewrite Htoken, Hverify. cbn [summary sum_id].
    rewrite findOrg_NoDup; [done | done |].
    apply List.find_some in Hfind as [Hin _].
    apply list_elem_of_fmap_2. by apply list_elem_of_In.
Qed.

(** The college logs in in hour 50 and sends the token in hour 60. *)
Lemma auth_loads_the_stored_organization_witness :
  exists org,
    auth (H := plainSecrets) 216000000 (Some ("Bearer " +:+ "t12")) Registry.docs = inr org
    /\ org_id org = 1%nat /\ org_level org = 1%nat.
Proof.
  destruct (proj2 (auth_loads_the_stored_organization (H := plainSecrets) Registry.docs)
              180000000 216000000 "coe" "secret" (summary Registry.college) "t12" eq_refl)
    as (org & Hauth & Hid & _ & Hlevel & _).
  - cbn. apply NoDup_cons. split; [|apply NoDup_singleton].
    intros Hin%list_elem_of_singleton. discriminate Hin.
  - discriminate.
  - reflexivity.
  - exists org. split_and!; [exact Hauth | exact Hid | exact Hlevel].
Defined.

(** ** Organizations: updates and deletions go around the hook *)

(** X18. An update of an organization never recomputes a level: whatever the
    new parent, every stored level, venue-manager flag, [_id], organization id
    and password hash is what it was. *)
Theorem updateOrganization_keeps_levels (reqOrg : Organization) (id : Id)
    (p : OrgPatch) (docs : list OrgDoc) :
  let docs' := snd (updateOrganization reqOrg id p docs) in
  (fun d => (org_id (doc_org d), org_level (doc_org d), org_isVenueManager (doc_org d),
             doc_orgId d, doc_password d)) <$> docs'
  = (fun d => (org_id (doc_org d), org_level (doc_org d), org_isVenueManager (doc_org d),
               doc_orgId d, doc_password d)) <$> docs.
Proof.
  cbn zeta. unfold updateOrganization.
  destruct (negb (Nat.eqb (org_level reqOrg) 0)); [done|].
  destruct (List.find (hasDocId id) docs); [|done].
  destruct (existsb _ docs); [done|]. cbn [snd].
  by apply fmap_updateFirst.
Qed.

Lemma walkParents_self_parent orgs now self :
  org_parentOrganization self = Some (org_id self) ->
  findOrg orgs (org_id self) = Some self ->
  org_level self <> 1%nat ->
  forall fuel acc, walkParents fuel orgs now self acc = WalkDiverges.
Proof.
  intros Hparent Hfind Hlevel. apply Nat.eqb_neq in Hlevel.
  induction fuel as [|fuel IH]; intros acc; cbn [walkParents]; rewrite Hparent; [done|].
  rewrite Hfind, Hlevel. apply IH.
Qed.

(** X19. Nothing stops the admin from making an organization its own parent;
    unless the organization is at level 1, the hierarchy walk then never
    ends for it, whatever the fuel, and [createEvent] by it is never answered
    with an event. *)
Theorem reparenting_under_itself_hangs `{Casting} (reqOrg : Organization) (id : Id)
    (p : OrgPatch) (docs docs' : list OrgDoc) (d : OrgDoc)
    (creator : Organization) (db : Db) :
  upd_parentOrganization p = Some id ->
  updateOrganization reqOrg id p docs = (OrgUpdated d, docs') ->
  org_level (doc_org d) <> 1%nat ->
  org_id creator = id ->
  organizations db = orgsOf docs' ->
  forall fuel now eventId bookingId body,
    buildApprovalChain fuel (organizations db) now creator = WalkDiverges
    /\ forall event, fst (createEvent fuel now eventId bookingId creator body db)
                     <> RespEvent event.
Proof.
  intros Hpatch Hupdate Hlevel Hcreator Horgs fuel now eventId bookingId body.
  unfold updateOrganization in Hupdate.
  destruct (negb (Nat.eqb (org_level reqOrg) 0)); [done|].
  destruct (List.find (hasDocId id) docs) as [old|] eqn:Hold; [|done].
  destruct (existsb _ docs); [done|]. injection Hupdate as <- <-.
  assert (Hself : findOrg (organizations db) id = Some (doc_org (applyOrgPatch p old))).
  { rewrite Horgs, findOrg_orgsOf, find_updateFirst by done. by rewrite Hold. }
  assert (Hid : org_id (doc_org (applyOrgPatch p old)) = id).
  { cbn. apply List.find_some in Hold as [_ Hid]. by apply Nat.eqb_eq in Hid. }
  assert (Hwalk : buildApprovalChain fuel (organizations db) now creator = WalkDiverges).
  { unfold buildApprovalChain. rewrite Hcreator, Hself.
    rewrite walkParents_self_parent; [done | | by rewrite Hid | done].
    rewrite Hid. cbn. by rewrite Hpatch. }
  split; [done|]. intros event. unfold createEvent. rewrite Hwalk.
  repeat case_match; done.
Qed.

(** The admin makes the root organization its own parent. *)
Lemma reparenting_under_itself_hangs_witness :
  buildApprovalChain 50
    (orgsOf (snd (updateOrganization Campus.root 0
                    {| upd_name := None; upd_parentOrganization := Some 0%nat |}
                    Registry.docs)))
    7 Campus.root
  = WalkDiverges.
Proof.
  apply (reparenting_under_itself_hangs (H := jsonCasting) Campus.root 0
           {| upd_name := None; upd_parentOrganization := Some 0%nat |}
           Registry.docs _ _ Campus.root
           {| organizations :=
                orgsOf (snd (updateOrganization Campus.root 0
                               {| upd_name := None; upd_parentOrganization := Some 0%nat |}
                               Registry.docs));
              venues := ∅; events := ∅; venueBookings := [] |}
           eq_refl eq_refl ltac:(discriminate) eq_refl eq_refl
           50%nat 7 101%nat 201%nat (Campus.body (JNum 5000) (JNum 200))).
Defined.

Lemma find_deleteFirst_ne {A} (p q : A -> bool) (l : list A) :
  (forall x, p x = true -> q x = false) ->
  List.find q (deleteFirst p l) = List.find q l.
Proof.
  intros Hpq. induction l as [|x l IH]; cbn [deleteFirst List.find]; [done|].
  destruct (p x) eqn:Hp.
  - by rewrite (Hpq x Hp).
  - cbn [List.find]. by rewrite IH.
Qed.

Lemma find_deleteFirst_NoDup (id : Id) (docs : list OrgDoc) :
  NoDup (org_id <$> orgsOf docs) ->
  List.find (hasDocId id) (deleteFirst (hasDocId id) docs) = None.
Proof.
  unfold orgsOf. induction docs as [|d docs IH]; [done|].
  rewrite !fmap_cons. intros [Hd Hnd]%NoDup_cons. cbn [deleteFirst].
  destruct (hasDocId id d) eqn:Hid.
  - apply Nat.eqb_eq in Hid. destruct (List.find (hasDocId id) docs) as [d'|] eqn:Hfind; [|done].
    exfalso. apply Hd. apply List.find_some in Hfind as [Hin Hid'].
    apply Nat.eqb_eq in Hid'. rewrite Hid, <- Hid'.
    apply list_elem_of_fmap_2, list_elem_of_fmap_2. by apply list_elem_of_In.
  - cbn [List.find]. rewrite Hid. by apply IH.
Qed.

(** X20. Deleting an organization does not look at its children: with unique
    [_id]s, once the admin has deleted it, the hierarchy walk throws for every
    stored child of it, and a request of the child that [createEvent] answered
    with the new event before the deletion is answered with the server error
    after it, and stores nothing. *)
Theorem deleting_a_parent_breaks_its_children `{Casting} (reqOrg : Organization)
    (id : Id) (docs docs' : list OrgDoc) (requester child : Organization) (db : Db)
    (fuel : nat) (now : Z) (eventId bookingId : Id) (body : EventBody) :
  deleteOrganization reqOrg id docs = (OrgDeleted, docs') ->
  NoDup (org_id <$> orgsOf docs) ->
  findOrg (orgsOf docs) (org_id requester) = Some child ->
  org_id requester <> id ->
  org_parentOrganization child = Some id ->
  organizations db = orgsOf docs ->
  (1 <= fuel)%nat ->
  let after := {| organizations := orgsOf docs'; venues := venues db;
                  events := events db; venueBookings := venueBookings db |} in
  buildApprovalChain fuel (orgsOf docs') now requester = WalkThrows
  /\ forall event db1,
       createEvent fuel now eventId bookingId requester body db = (RespEvent event, db1) ->
       createEvent fuel now eventId bookingId requester body after
       = (RespError ServerError, after).
Proof.
  intros Hdelete Hnd Hchild Hne Hparent Horgs Hfuel after.
  unfold deleteOrganization in Hdelete.
  destruct (negb (Nat.eqb (org_level reqOrg) 0)); [done|].
  destruct (List.find (hasDocId id) docs); [|done]. injection Hdelete as <-.
  assert (Hwalk : buildApprovalChain fuel (orgsOf (deleteFirst (hasDocId id) docs)) now requester
                  = WalkThrows).
  { unfold buildApprovalChain. rewrite !findOrg_orgsOf.
    rewrite find_deleteFirst_ne.
    2: { intros x Hx. unfold hasDocId in *. apply Nat.eqb_eq in Hx. rewrite Hx.
         apply Nat.eqb_neq. congruence. }
    rewrite <- findOrg_orgsOf, Hchild.
    destruct fuel as [|fuel]; [lia|]. cbn [walkParents]. rewrite Hparent.
    by rewrite findOrg_orgsOf, find_deleteFirst_NoDup. }
  split; [done|]. intros event db1. unfold createEvent.
  subst after. cbn [organizations venues events venueBookings]. rewrite Hwalk.
  destruct (missingRequired body); [done|].
  destruct (castObjectId (body_venue body)) as [venue|]; [|done].
  destruct (venues db !! venue); [|done].
  destruct (newDate (body_startDateTime body)) as [s|]; [|done].
  destruct (newDate (body_endDateTime body)) as [e|]; [|done].
  destruct (e <=? s); [done|].
  destruct (conflictingBookings venue s e (venueBookings db)) as [|c cs]; [done|].
  by destruct (conflictingEvents (events db) (c :: cs)).
Qed.

(** The college is deleted; the department below it asks for the hall, which
    is free, and is answered with the server error. *)
Lemma deleting_a_parent_breaks_its_children_witness :
  let docs := Registry.docs ++ [ {| doc_org := Campus.department; doc_orgId := "cse";
                                    doc_password := "s2#pw" |} ] in
  let after :=
    {| organizations := orgsOf (snd (deleteOrganization Campus.root 1 docs));
       venues := venues Campus.awaitingCollege; events := ∅; venueBookings := [] |} in
  createEvent (H := jsonCasting) 5 7 101 201 Campus.department
    (Campus.body (JNum 5000) (JNum 200)) after
  = (RespError ServerError, after).
Proof.
  intros docs after.
  eapply (proj2 (deleting_a_parent_breaks_its_children (H := jsonCasting) Campus.root 1 docs
                   (snd (deleteOrganization Campus.root 1 docs))
                   Campus.department Campus.department
                   {| organizations := orgsOf docs; venues := venues Campus.awaitingCollege;
                      events := ∅; venueBookings := [] |}
                   5 7 101 201 (Campus.body (JNum 5000) (JNum 200))
                   eq_refl _ eq_refl _ eq_refl eq_refl _)).
  reflexivity.
  Unshelve.
  - cbn. repeat (apply NoDup_cons; split; [cbn; intros Hin|]); [..|apply NoDup_nil_2].
    + repeat (apply elem_of_cons in Hin as [Hin|Hin]; [discriminate Hin|]).
      by apply elem_of_nil in Hin.
    + repeat (apply elem_of_cons in Hin as [Hin|Hin]; [discriminate Hin|]).
      by apply elem_of_nil in Hin.
    + by apply elem_of_nil in Hin.
  - discriminate.
  - lia.
Defined.

(** ** Venues *)

(** X21. Creating an event and deleting a venue never leave an active booking
    without its venue: [createEvent] books only a stored venue, and
    [deleteVenue] refuses while a temporary or confirmed booking is on the
    venue, writing nothing then. *)
Theorem active_bookings_stay_housed `{Casting} (db : Db) :
  Housed db ->
  (forall fuel now eventId bookingId reqOrg body,
     Housed (snd (createEvent fuel now eventId bookingId reqOrg body db)))
  /\ (forall reqOrg venueId,
        Housed (snd (deleteVenue reqOrg venueId db))
        /\ (fst (deleteVenue reqOrg venueId db) = VenueDeleted ->
            forall b, b ∈ venueBookings db -> bk_venue b = venueId ->
                      bk_status b = BkCancelled)
        /\ (fst (deleteVenue reqOrg venueId db) <> VenueDeleted ->
            snd (deleteVenue reqOrg venueId db) = db)).
Proof.
  intros Hhoused. split.
  - intros fuel now eventId bookingId reqOrg body. unfold createEvent.
    destruct (missingRequired body); [done|].
    destruct (castObjectId (body_venue body)) as [venue|]; [|done].
    destruct (venues db !! venue) as [v|] eqn:Hvenue; [|done].
    repeat case_match; try done.
    cbn [snd]. intros b [Hb|Hb%list_elem_of_singleton]%elem_of_app Ha; cbn.
    + by apply Hhoused.
    + subst b. cbn. by rewrite Hvenue.
  - intros reqOrg venueId. unfold deleteVenue.
    destruct (negb (org_isVenueManager reqOrg)); [done|].
    destruct (List.filter (activeOn venueId) (venueBookings db)) as [|c l] eqn:Hnone; [|done].
    destruct (venues db !! venueId) as [v|] eqn:Hvenue; [|done].
    rewrite filter_nil_iff in Hnone. cbn [fst snd]. split_and!; [| |done].
    + intros b Hb Ha. cbn in Hb |- *.
      destruct (decide (bk_venue b = venueId)) as [Heq|Hne].
      * specialize (Hnone b Hb). unfold activeOn in Hnone.
        rewrite Heq, Nat.eqb_refl, Ha in Hnone. done.
      * rewrite lookup_delete_ne by done. by apply Hhoused.
    + intros _ b Hb Hv. specialize (Hnone b Hb). unfold activeOn in Hnone.
      rewrite Hv, Nat.eqb_refl in Hnone. cbn [andb] in Hnone.
      by destruct (bk_status b).
Qed.

Lemma Housed_campus : Housed Campus.approvedByAll.
Proof.
  intros b Hb _. cbn in Hb. apply list_elem_of_singleton in Hb as ->. by eexists.
Qed.

(** The venue manager asks to delete the hall while the fest is confirmed. *)
Lemma active_bookings_stay_housed_witness :
  snd (deleteVenue Campus.root Campus.hall Campus.approvedByAll) = Campus.approvedByAll.
Proof.
  apply (proj2 (active_bookings_stay_housed (H := jsonCasting) Campus.approvedByAll
                  Housed_campus) Campus.root Campus.hall).
  discriminate.
Defined.

(** X22. The availability listing of the venue routes counts more than the
    conflict query: for a range of positive length and a booking of positive
    length, the listing selects the booking exactly when the conflict query
    does or the booking touches the range at an end point. *)
Theorem rangeQuery_is_conflict_or_touching (venueId : Id) (s e : Z) (b : VenueBooking) :
  s < e -> bk_startDateTime b < bk_endDateTime b ->
  rangeQuery venueId s e b = true
  <-> conflictQuery venueId s e b = true
      \/ (activeOn venueId b = true
          /\ (bk_endDateTime b = s \/ bk_startDateTime b = e)).
Proof.
  intros Hse Hb. unfold rangeQuery, conflictQuery, activeOn, timeClash.
  rewrite !andb_true_iff, !orb_true_iff, !andb_true_iff, !Z.leb_le, !Z.ltb_lt.
  split.
  - intros [[[Hv Ha] Hs] He].
    destruct (decide (bk_endDateTime b = s)) as [?|?]; [by right; split; [|left]|].
    destruct (decide (bk_startDateTime b = e)) as [?|?]; [by right; split; [|right]|].
    left. split_and!; [done..|]. lia.
  - intros [[[Hv Ha] Hclash]|[[Hv Ha] Htouch]]; split_and!; try done; lia.
Qed.

Lemma rangeQuery_is_conflict_or_touching_witness :
  rangeQuery Campus.hall 2000 3000 (Campus.booking 200 100 1000 2000 BkConfirmed) = true
  /\ conflictQuery Campus.hall 2000 3000 (Campus.booking 200 100 1000 2000 BkConfirmed)
     = false.
Proof.
  split; [|reflexivity].
  apply (rangeQuery_is_conflict_or_touching Campus.hall 2000 3000); [lia | cbn; lia |].
  right. split; [reflexivity | left; reflexivity].
Defined.

(** ** The date mode of the availability check *)

(** X23. With a [date], the availability check ignores the interval and the
    excluded event and does not look the venue up; for stored bookings of
    positive length it lists exactly the bookings the conflict query selects
    for the window from the start to the end of that day. *)
Theorem date_mode_is_the_day_window `{Casting} `{LocalTime} (venueId : Id)
    (date startDateTime endDateTime : JsVal) (excludeEventId : option Id)
    (db : Db) (selectedDate : Z) :
  truthy date = true ->
  newDate date = Some selectedDate ->
  startOfDay selectedDate < endOfDay selectedDate ->
  PositiveBookings (venueBookings db) ->
  checkAvailabilityRoute venueId date startDateTime endDateTime excludeEventId db
  = DayBookings (conflictingBookings venueId (startOfDay selectedDate)
                                     (endOfDay selectedDate) (venueBookings db)).
Proof.
  intros Htruthy Hdate Hday Hpos. unfold checkAvailabilityRoute.
  rewrite Htruthy, Hdate. f_equal. unfold conflictingBookings.
  induction (venueBookings db) as [|b bs IH]; [done|].
  cbn [List.filter].
  assert (dayQuery venueId (startOfDay selectedDate) (endOfDay selectedDate) b
          = conflictQuery venueId (startOfDay selectedDate) (endOfDay selectedDate) b) as ->.
  { unfold dayQuery, conflictQuery, activeOn.
    rewrite timeClash_overlaps; [|done|apply Hpos; left].
    unfold overlaps. rewrite <- !andb_assoc. do 2 f_equal. apply andb_comm. }
  rewrite IH; [done|]. intros b' Hb'. apply Hpos. by right.
Qed.

(** The fest is the one booking of the hall on the first day of 1970. *)
Lemma date_mode_is_the_day_window_witness :
  checkAvailabilityRoute (H := jsonCasting) (H0 := utc) Campus.hall
    (JNum 5000) JUndefined JUndefined None Campus.awaitingCollege
  = DayBookings [Campus.booking 200 100 1000 2000 BkTemporary].
Proof.
  apply (date_mode_is_the_day_window (H := jsonCasting) (H0 := utc) Campus.hall
           (JNum 5000) JUndefined JUndefined None Campus.awaitingCollege 5000).
  - reflexivity.
  - reflexivity.
  - reflexivity.
  - intros b Hb. apply list_elem_of_singleton in Hb as ->. reflexivity.
Defined.

(** ** The events that await an organization *)

Lemma findIndex_existsb {A} (p : A -> bool) (l : list A) :
  existsb p l = true -> is_Some (findIndex p l).
Proof.
  induction l as [|x l IH]; cbn; [done|].
  destruct (p x); [by eexists|]. intros Hl. destruct (IH Hl) as [i ->]. by eexists.
Qed.

(** X24. The listing of pending events and the review fit together: an event
    whose chain has a pending slot of the organization, and which is neither
    cancelled nor rejected, is listed for it; and every event listed for an
    organization can be reviewed by it, with any of the three decisions and
    any comments that are absent or can be cast, as long as the organization
    is stored. *)
Theorem pending_events_can_be_reviewed `{Casting} (now : Z) (answered : nat -> bool)
    (reqOrg : Organization) (eventId : Id) (db : Db) (event : Event) :
  (events db !! eventId = Some event ->
   (exists i a, ev_approvalChain event !! i = Some a
                /\ ap_organization a = org_id reqOrg /\ ap_status a = ApPending) ->
   isClosed (ev_status event) = false ->
   pendingEvents reqOrg db !! eventId = Some event)
  /\ (pendingEvents reqOrg db !! eventId = Some event ->
      is_Some (findOrg (organizations db) (org_id reqOrg)) ->
      forall status comments,
        is_Some (decisionOf status) ->
        is_Some (castComments comments) ->
        exists replied,
          fst (reviewEvent now answered reqOrg eventId status comments db)
          = RespEvent replied).
Proof.
  split.
  - intros Hev (i & a & Hi & Horg & Hpending) Hopen.
    unfold pendingEvents. apply map_lookup_filter_Some. split; [done|].
    cbn. unfold pendingQuery. rewrite Hopen. cbn [negb].
    rewrite !andb_true_r, andb_true_iff, !existsb_exists.
    apply list_elem_of_lookup_2, list_elem_of_In in Hi.
    split; exists a; (split; [done|]).
    + rewrite Horg. apply Nat.eqb_refl.
    + by rewrite Hpending.
  - intros [Hev Hlisted]%map_lookup_filter_Some [reviewingOrg Horg] status comments
      [d Hd] [c Hcast].
    cbn in Hlisted. unfold pendingQuery in Hlisted.
    apply andb_true_iff in Hlisted as [[Hslot _]%andb_true_iff _].
    apply findIndex_existsb in Hslot as [i Hi].
    unfold reviewEvent, saveAndReply. rewrite Hd, Hev, Hi, Horg, Hcast.
    cbn [accepted]. destruct d; repeat case_match; by eexists.
Qed.

(** The college finds the fest in its listing, and its rejection of it is
    answered with the event. *)
Lemma pending_events_can_be_reviewed_witness :
  pendingEvents Campus.college Campus.awaitingCollege !! 100%nat
  = Some (Campus.event EvPending ApApproved ApPending 1000 2000)
  /\ exists replied,
       fst (reviewEvent (H := jsonCasting) 50 (fun _ => true) Campus.college 100
              (JStr "rejected") (JStr "No") Campus.awaitingCollege)
       = RespEvent replied.
Proof.
  destruct (pending_events_can_be_reviewed (H := jsonCasting) 50 (fun _ => true)
              Campus.college 100 Campus.awaitingCollege
              (Campus.event EvPending ApApproved ApPending 1000 2000))
    as [Hlisted Hreview].
  assert (Hin : pendingEvents Campus.college Campus.awaitingCollege !! 100%nat
                = Some (Campus.event EvPending ApApproved ApPending 1000 2000)).
  { apply Hlisted.
    - reflexivity.
    - exists 1%nat, (Campus.approval Campus.college ApPending). by split_and!.
    - reflexivity. }
  split; [exact Hin|].
  apply (Hreview Hin); [by eexists | by eexists | by eexists].
Defined.

(** ** Listings and the requests they lead to *)

(** X25. The events an organization finds under my-events are exactly the
    stored events it may cancel or edit: for them [cancelEvent] is answered
    with the event, and [updateEvent] is answered with the event when every
    value of the edit can be cast and with the server error otherwise; for
    every other stored event the two are refused as not authorized and write
    nothing. *)
Theorem my_events_are_the_ones_to_cancel_or_edit `{Casting} (reqOrg : Organization)
    (eventId : Id) (db : Db) (event : Event) :
  events db !! eventId = Some event ->
  (myEvents reqOrg db !! eventId = Some event ->
   (exists replied, fst (cancelEvent reqOrg eventId db) = RespEvent replied)
   /\ forall now p,
        (validPatch p = true ->
         exists replied, fst (updateEvent now reqOrg eventId p db) = RespEvent replied)
        /\ (validPatch p = false ->
            fst (updateEvent now reqOrg eventId p db) = RespError ServerError))
  /\ (myEvents reqOrg db !! eventId = None ->
      cancelEvent reqOrg eventId db = (RespError NotAuthorized, db)
      /\ forall now p, updateEvent now reqOrg eventId p db = (RespError NotAuthorized, db)).
Proof.
  intros Hev. unfold myEvents, cancelEvent, updateEvent, saveAndReply. rewrite Hev. split.
  - intros [_ Hmine]%map_lookup_filter_Some. cbn in Hmine.
    apply Nat.eqb_eq in Hmine. rewrite Hmine. cbn [negb]. split; [by eexists|].
    intros now p. split; intros ->; case_match; by eauto.
  - intros Hnone. rewrite map_lookup_filter_None in Hnone.
    destruct Hnone as [Hnone|Hnot]; [congruence|].
    specialize (Hnot event Hev). cbn in Hnot.
    apply Nat.eqb_neq in Hnot. by rewrite Hnot.
Qed.

(** The club, which created the second event of the campus, is answered with
    the event when it edits it; the college is refused when it asks to cancel
    the fest. *)
Lemma my_events_are_the_ones_to_cancel_or_edit_witness :
  (exists replied,
     fst (updateEvent (H := jsonCasting) 60 Campus.club 101 Campus.moveOntoFirst
            Campus.twoEvents) = RespEvent replied)
  /\ cancelEvent Campus.college 100 Campus.awaitingCollege
     = (RespError NotAuthorized, Campus.awaitingCollege).
Proof.
  split.
  - apply (proj1 (my_events_are_the_ones_to_cancel_or_edit (H := jsonCasting) Campus.club
                    101 Campus.twoEvents
                    (Campus.event EvNeedsModification ApApproved ApNeedsModification 3000 4000)
                    eq_refl)); reflexivity.
  - apply (my_events_are_the_ones_to_cancel_or_edit (H := jsonCasting) Campus.college 100
             Campus.awaitingCollege
             (Campus.event EvPending ApApproved ApPending 1000 2000) eq_refl).
    reflexivity.
Defined.

Lemma walkParents_all_pending orgs now :
  forall fuel currentOrg acc chain,
    (forall a, a ∈ acc -> ap_status a = ApPending) ->
    walkParents fuel orgs now currentOrg acc = WalkChain chain ->
    forall a, a ∈ chain -> ap_status a = ApPending.
Proof.
  induction fuel as [|fuel IH]; intros currentOrg acc chain Hacc; cbn [walkParents].
  - destruct (org_parentOrganization currentOrg); [done|]. by intros [= <-].
  - destruct (org_parentOrganization currentOrg) as [parentId|]; [|by intros [= <-]].
    destruct (findOrg orgs parentId) as [parent|]; [|done].
    assert (Hacc' : forall a, a ∈ acc ++ [pendingApproval now (org_id parent)] ->
                      ap_status a = ApPending).
    { intros a [Ha|Ha%list_elem_of_singleton]%elem_of_app; [by apply Hacc | by subst a]. }
    destruct (Nat.eqb (org_level parent) 1); [by intros [= <-]|].
    by apply IH.
Qed.

Lemma buildApprovalChain_all_pending fuel orgs now reqOrg chain :
  buildApprovalChain fuel orgs now reqOrg = WalkChain chain ->
  forall a, a ∈ chain -> ap_status a = ApPending.
Proof.
  unfold buildApprovalChain.
  destruct (findOrg orgs (org_id reqOrg)) as [currentOrg|]; [|done].
  destruct (walkParents fuel orgs now currentOrg []) as [walked| |] eqn:Hwalk; [|done..].
  assert (Hwalked : forall a, a ∈ walked -> ap_status a = ApPending).
  { eapply walkParents_all_pending; [|done]. by intros a ?%elem_of_nil. }
  destruct (_ && _); intros [= <-]; [|done].
  intros a [Ha|Ha]%elem_of_app; [by apply Hwalked|].
  apply list_elem_of_In, List.in_map_iff in Ha as (o & <- & _). done.
Qed.

(** X26. A new event is stored with every slot of its chain pending, and
    every organization of the chain finds it in its listing of pending
    events right away. *)
Theorem created_event_is_listed_for_its_chain `{Casting} (fuel : nat) (now : Z)
    (eventId bookingId : Id) (reqOrg : Organization) (body : EventBody)
    (db db' : Db) (event : Event) :
  createEvent fuel now eventId bookingId reqOrg body db = (RespEvent event, db') ->
  ev_status event = EvPending
  /\ (forall a, a ∈ ev_approvalChain event -> ap_status a = ApPending)
  /\ forall org,
       (exists a, a ∈ ev_approvalChain event /\ ap_organization a = org_id org) ->
       pendingEvents org db' !! eventId = Some event.
Proof.
  unfold createEvent.
  destruct (missingRequired body); [done|].
  destruct (castObjectId (body_venue body)) as [venue|]; [|done].
  destruct (venues db !! venue); [|done].
  destruct (newDate (body_startDateTime body)) as [s|]; [|done].
  destruct (newDate (body_endDateTime body)) as [e|]; [|done].
  destruct (e <=? s); [done|].
  destruct (conflictingBookings venue s e (venueBookings db)) as [|c cs];
    [|by destruct (conflictingEvents (events db) (c :: cs))].
  destruct (buildApprovalChain fuel (organizations db) now reqOrg)
    as [approvalChain| |] eqn:Hchain; [|done..].
  destruct (newEvent reqOrg body approvalChain) as [ev|] eqn:Hnew; [|done].
  intros [= <- <-].
  assert (Hstatus : ev_status ev = EvPending) by by eapply newEvent_pending.
  assert (Hsame : ev_approvalChain ev = approvalChain).
  { unfold newEvent in Hnew. by simplify_option_eq. }
  assert (Hpending : forall a, a ∈ ev_approvalChain ev -> ap_status a = ApPending).
  { rewrite Hsame. by eapply buildApprovalChain_all_pending. }
  split_and!; [done..|].
  intros org (a & Ha & Horg). unfold pendingEvents. cbn [events].
  apply map_lookup_filter_Some. split; [apply lookup_insert_eq|].
  cbn. unfold pendingQuery. rewrite Hstatus. cbn [isClosed negb].
  rewrite !andb_true_r, andb_true_iff, !existsb_exists.
  split; exists a; (split; [by apply list_elem_of_In|]).
  - rewrite Horg. apply Nat.eqb_refl.
  - by rewrite (Hpending a Ha).
Qed.

Lemma created_event_is_listed_for_its_chain_witness :
  exists event,
    pendingEvents Campus.college
      (snd (createEvent (H := jsonCasting) 5 7 101 201 Campus.club
              (Campus.body (JNum 5000) (JNum 200)) Campus.awaitingCollege)) !! 101%nat
    = Some event.
Proof.
  eexists.
  eapply (created_event_is_listed_for_its_chain (H := jsonCasting) 5 7 101 201 Campus.club
            (Campus.body (JNum 5000) (JNum 200)) Campus.awaitingCollege).
  - reflexivity.
  - exists (pendingApproval 7 1). split; [|reflexivity].
    cbn. right. left.
Defined.

(** X27. An edit never touches the approval chain, so it re-opens no slot:
    when no slot of the chain of an event is pending, the event is in nobody's
    listing of pending events after any edit, the reset edit that makes the
    event itself pending included. *)
Theorem edit_reopens_no_slot `{Casting} (now : Z) (reqOrg : Organization) (eventId : Id)
    (p : EventPatch) (db : Db) (event : Event) :
  events db !! eventId = Some event ->
  (forall a, a ∈ ev_approvalChain event -> ap_status a <> ApPending) ->
  (exists stored,
     events (snd (updateEvent now reqOrg eventId p db)) !! eventId = Some stored
     /\ ev_approvalChain stored = ev_approvalChain event)
  /\ forall org,
       pendingEvents org (snd (updateEvent now reqOrg eventId p db)) !! eventId = None.
Proof.
  intros Hev Hnone.
  assert (Hchain : exists stored,
            events (snd (updateEvent now reqOrg eventId p db)) !! eventId = Some stored
            /\ ev_approvalChain stored = ev_approvalChain event).
  { unfold updateEvent, saveAndReply. rewrite Hev.
    repeat case_match; cbn [snd events withBookings];
      first [ by exists event | rewrite events_saveEvent; by eexists ]. }
  split; [done|]. intros org. destruct Hchain as (stored & Hstored & Hsame).
  unfold pendingEvents. apply map_lookup_filter_None. right.
  intros stored' Hstored'. rewrite Hstored in Hstored'. injection Hstored' as <-.
  cbn. unfold pendingQuery. rewrite Hsame.
  assert (existsb (fun a => isPending (ap_status a)) (ev_approvalChain event) = false) as ->.
  { apply not_true_iff_false. rewrite existsb_exists.
    intros (a & Ha%list_elem_of_In & Hpending).
    apply (Hnone a Ha). by destruct (ap_status a). }
  by rewrite andb_false_r.
Qed.

(** The second event of the campus was approved by the department and sent
    back by the college; its creator resets it. *)
Lemma edit_reopens_no_slot_witness :
  pendingEvents Campus.college
    (snd (updateEvent (H := jsonCasting) 60 Campus.club 101 Campus.moveOntoFirst
            Campus.twoEvents)) !! 101%nat
  = None.
Proof.
  apply (edit_reopens_no_slot (H := jsonCasting) 60 Campus.club 101 Campus.moveOntoFirst
           Campus.twoEvents
           (Campus.event EvNeedsModification ApApproved ApNeedsModification 3000 4000)).
  - reflexivity.
  - intros a Ha. cbn in Ha.
    apply elem_of_cons in Ha as [->|Ha]; [discriminate|].
    apply list_elem_of_singleton in Ha as ->. discriminate.
Defined.
